(** * Level-of-traffic-stress classification: a model of [lts_functions.py]

    The module classifies the edges of a street network held in a pandas
    data frame.  The development below embeds the data frame operations the
    module relies on (column access, elementwise comparison, [np.select],
    boolean indexing) and then each function of the module, line by line,
    in an error monad whose failures are the Python exceptions the code can
    raise.  Floating-point cells are binary64 numbers ([PrimFloat.float]);
    integer cells are unbounded Python integers ([Z]). *)

From Stdlib Require Import ZArith Ascii String.
From Stdlib Require Import Floats.PrimFloat Floats.SpecFloat Floats.FloatOps.
From Stdlib Require Import Floats.FloatAxioms Floats.FloatLemmas.
From stdpp Require Import gmap strings list.

Set Warnings "-inexact-float".

Local Open Scope string_scope.
Local Open Scope Z_scope.

(** ** Exceptions and results *)

Inductive exn :=
| KeyError (k : string)
| NameError (n : string)
| ValueError
| TypeError
| OverflowError
| IndexError
| SyntaxError.

Inductive result (A : Type) :=
| Ok (a : A)
| Raise (e : exn).
Arguments Ok {A} a.
Arguments Raise {A} e.

#[global] Instance result_ret : MRet result := λ A, Ok.
#[global] Instance result_bind : MBind result :=
  λ A B f m, match m with Ok a => f a | Raise e => Raise e end.
#[global] Instance result_fmap : FMap result :=
  λ A B f m, match m with Ok a => Ok (f a) | Raise e => Raise e end.

Definition is_ok {A} (m : result A) : bool :=
  match m with Ok _ => true | Raise _ => false end.

(** The value of a computation that is known to return. *)
Definition val {A} (d : A) (m : result A) : A :=
  match m with Ok a => a | Raise _ => d end.

(** ** Python values held in a cell *)

(** A cell holds a scalar or, where OSMnx merged several ways into one
    edge, a flat list of scalars.  The missing-value marker is the float
    NaN; [None] is the other value pandas counts as missing. *)
Inductive atom :=
| PyNone
| PyStr (s : string)
| PyInt (z : Z)
| PyFloat (f : float).

Inductive value :=
| Atom (a : atom)
| PyList (l : list atom).

Coercion Atom : atom >-> value.

Definition NaN : value := Atom (PyFloat nan).

(** ** Characters and strings *)

(** A Python string is modelled by a string of the standard library, one
    character for each code point, so the model covers the text whose code
    points lie below 256: ASCII and the Latin-1 supplement.  On this range
    Python has two sets of blanks.  [str.split] and [str.isspace] know
    TAB..CR, FS..US, the blank, NEL (133) and the no-break space (160).
    [int] and [float] first turn the blanks above 127 into an ASCII blank
    and then strip with the C function [isspace], so they know TAB..CR,
    the blank, NEL and the no-break space, but not FS..US.  No character
    of the range above 127 is a decimal digit.  Text with a code point
    from 256 on is outside the model. *)

Module Str.

Definition code (c : ascii) : N := N_of_ascii c.

(** [str.isspace], the blanks of [str.split]. *)
Definition is_space (c : ascii) : bool :=
  ((9 <=? code c) && (code c <=? 13) || (28 <=? code c) && (code c <=? 32)
   || (code c =? 133) || (code c =? 160))%N.

(** The blanks [int] and [float] strip. *)
Definition is_blank (c : ascii) : bool :=
  ((9 <=? code c) && (code c <=? 13) || (code c =? 32)
   || (code c =? 133) || (code c =? 160))%N.

Definition is_digit (c : ascii) : bool :=
  ((48 <=? code c) && (code c <=? 57))%N.

Definition digit_val (c : ascii) : Z := Z.of_N (code c) - 48.

Definition lower (c : ascii) : ascii :=
  if ((65 <=? code c) && (code c <=? 90))%N
  then ascii_of_N (code c + 32) else c.

(** [needle in hay] *)
Fixpoint contains (needle hay : string) : bool :=
  String.prefix needle hay ||
  match hay with
  | EmptyString => false
  | String _ hay' => contains needle hay'
  end.

Fixpoint lstrip_by (blank : ascii → bool) (l : list ascii) : list ascii :=
  match l with
  | c :: l' => if blank c then lstrip_by blank l' else l
  | [] => []
  end.

(** What [str.split] skips before the first word. *)
Definition lstrip : list ascii → list ascii := lstrip_by is_space.

(** What [int] and [float] parse once the blanks around are gone. *)
Definition strip (l : list ascii) : list ascii :=
  rev (lstrip_by is_blank (rev (lstrip_by is_blank l))).

(** The longest prefix of non-blank characters, and what follows it. *)
Fixpoint token (l : list ascii) : list ascii * list ascii :=
  match l with
  | c :: l' =>
      if is_space c then ([], l)
      else let '(t, r) := token l' in (c :: t, r)
  | [] => ([], [])
  end.

(** [s.split()[0]]: the first blank-separated word, [IndexError] when
    there is none. *)
Definition first_word (s : string) : result string :=
  match lstrip (list_ascii_of_string s) with
  | [] => Raise IndexError
  | l => Ok (string_of_list_ascii (fst (token l)))
  end.

(** The longest prefix of decimal digits, and what follows it. *)
Fixpoint digits (l : list ascii) : list ascii * list ascii :=
  match l with
  | c :: l' =>
      if is_digit c then let '(d, r) := digits l' in (c :: d, r)
      else ([], l)
  | [] => ([], [])
  end.

Definition nat_of_digits (d : list ascii) : Z :=
  fold_left (λ acc c, 10 * acc + digit_val c) d 0.

(** An optional sign: [true] for minus. *)
Definition sign (l : list ascii) : bool * list ascii :=
  match l with
  | "-"%char :: l' => (true, l')
  | "+"%char :: l' => (false, l')
  | _ => (false, l)
  end.

(** Digit-group underscores: each one must stand between two digits.
    [prev] is the character before the head of [l]. *)
Fixpoint drop_underscores (prev : ascii) (l : list ascii)
  : option (list ascii) :=
  match l with
  | [] => if Ascii.eqb prev "_" then None else Some []
  | c :: l' =>
      if Ascii.eqb c "_" then
        if is_digit prev then drop_underscores c l' else None
      else if Ascii.eqb prev "_" && negb (is_digit c) then None
      else cons c <$> drop_underscores c l'
  end.

End Str.

(** ** Python's numeric conversions *)

Module Py.

Definition NUL : ascii := ascii_of_N 0.

(** [int(s)] in base ten: blanks around, an optional sign, digits. *)
Definition int_of_str (s : string) : result Z :=
  let '(neg, r) := Str.sign (Str.strip (list_ascii_of_string s)) in
  match Str.drop_underscores NUL r with
  | Some (c :: d) =>
      if forallb Str.is_digit (c :: d)
      then Ok (if neg then - Str.nat_of_digits (c :: d)
               else Str.nat_of_digits (c :: d))
      else Raise ValueError
  | _ => Raise ValueError
  end.

(** The binary64 number nearest to [(-1)^neg * m * 10^e10], ties to
    even.  For a negative exponent the quotient is taken with 1075
    binary places, below the last place of every binary64 number, and a
    sticky bit records a non-zero remainder. *)
Definition dec_to_float (neg : bool) (m e10 : Z) : float :=
  let sg (x : Z) := if neg then - x else x in
  SF2Prim
    (if 0 <=? e10 then binary_normalize prec emax (sg (m * 10 ^ e10)) 0 neg
     else
       let d := 10 ^ (- e10) in
       let n := m * 2 ^ 1075 in
       let sticky := if n mod d =? 0 then 0 else 1 in
       binary_normalize prec emax (sg (2 * (n / d) + sticky)) (-1076) neg).

Definition float_of_Z (z : Z) : float := dec_to_float false z 0.

(** The exponent part [e[+-]ddd] when it is well formed; otherwise
    nothing is consumed. *)
Definition exponent (l : list ascii) : Z * list ascii :=
  match l with
  | c :: l' =>
      if Ascii.eqb (Str.lower c) "e" then
        let '(neg, l2) := Str.sign l' in
        match Str.digits l2 with
        | ([], _) => (0, l)
        | (d, r) =>
            (if neg then - Str.nat_of_digits d else Str.nat_of_digits d, r)
        end
      else (0, l)
  | [] => (0, [])
  end.

(** [float(s)]: blanks around, an optional sign, then [inf],
    [infinity], [nan] in any case or a decimal numeral with an optional
    fraction and exponent; anything left over is a [ValueError]. *)
Definition float_of_str (s : string) : result float :=
  match Str.drop_underscores NUL (Str.strip (list_ascii_of_string s)) with
  | None => Raise ValueError
  | Some l =>
      let '(neg, r) := Str.sign l in
      let name := string_of_list_ascii (map Str.lower r) in
      if String.eqb name "inf" || String.eqb name "infinity"
      then Ok (if neg then neg_infinity else infinity)
      else if String.eqb name "nan" then Ok nan
      else
        let '(ip, r1) := Str.digits r in
        let '(fp, r2) :=
          match r1 with
          | "."%char :: r' => Str.digits r'
          | _ => ([], r1)
          end in
        match (ip ++ fp)%list with
        | [] => Raise ValueError
        | md =>
            match exponent r2 with
            | (ex, []) =>
                Ok (dec_to_float neg (Str.nat_of_digits md)
                      (ex - Z.of_nat (length fp)))
            | _ => Raise ValueError
            end
        end
  end.

(** [int(f)]: truncation towards zero. *)
Definition int_of_float (f : float) : result Z :=
  match Prim2SF f with
  | S754_nan => Raise ValueError
  | S754_infinity _ => Raise OverflowError
  | S754_zero _ => Ok 0
  | S754_finite s m e =>
      let a := if 0 <=? e then Zpos m * 2 ^ e else Zpos m / 2 ^ (- e) in
      Ok (if s then - a else a)
  end.

(** Exact comparison of an integer with a binary64 number, [None] when
    the float is NaN. *)
Definition compare_int_float (z : Z) (f : float) : option comparison :=
  match Prim2SF f with
  | S754_nan => None
  | S754_infinity s => Some (if s then Gt else Lt)
  | S754_zero _ => Some (z ?= 0)
  | S754_finite s m e =>
      let v := if s then Zneg m else Zpos m in
      Some (if 0 <=? e then z ?= v * 2 ^ e else z * 2 ^ (- e) ?= v)
  end.

(** [x <= c] for a float constant [c]; strings, [None] and lists do not
    order against a float. *)
Definition le_float (x : value) (c : float) : result bool :=
  match x with
  | Atom (PyFloat f) => Ok (PrimFloat.leb f c)
  | Atom (PyInt z) =>
      Ok (match compare_int_float z c with
          | Some Lt | Some Eq => true
          | _ => false
          end)
  | _ => Raise TypeError
  end.

Definition isinstance_str (x : value) : bool :=
  match x with Atom (PyStr _) => true | _ => false end.

Definition isinstance_float (x : value) : bool :=
  match x with Atom (PyFloat _) => true | _ => false end.

End Py.

(** ** Data frames *)

(** A row carries its index label and its cells; a cell the row does not
    store reads as NaN.  The schema (the column names) belongs to the
    frame: asking for a column that is not in it is a [KeyError]. *)
Record Row := { label : Z; cells : gmap string value }.

Record DataFrame := { columns : list string; rows : list Row }.

Definition cell (c : string) (r : Row) : value := default NaN (cells r !! c).

Definition set_cell (c : string) (r : Row) (v : value) : Row :=
  {| label := label r; cells := <[c := v]> (cells r) |}.

Definition labels (df : DataFrame) : list Z := label <$> rows df.

Module pd.

Definition has_column (df : DataFrame) (c : string) : bool :=
  existsb (String.eqb c) (columns df).

(** [df[c]] *)
Definition getitem (df : DataFrame) (c : string) : result (list value) :=
  if has_column df c then Ok (cell c <$> rows df) else Raise (KeyError c).

(** The schema once column [c] has been assigned. *)
Definition with_column (cols : list string) (c : string) : list string :=
  if existsb (String.eqb c) cols then cols else (cols ++ [c])%list.

(** [df[c] = vs]: overwrites the column or appends it to the schema. *)
Definition setitem (df : DataFrame) (c : string) (vs : list value)
  : DataFrame :=
  {| columns := with_column (columns df) c;
     rows := zip_with (set_cell c) (rows df) vs |}.

(** [df.drop(columns = c)] *)
Definition drop (df : DataFrame) (c : string) : result DataFrame :=
  if has_column df c then
    Ok {| columns := List.filter (λ k, negb (String.eqb c k)) (columns df);
          rows := (λ r, {| label := label r; cells := delete c (cells r) |})
                    <$> rows df |}
  else Raise (KeyError c).

(** Rows kept by a boolean mask. *)
Fixpoint take {A} (l : list A) (mask : list bool) : list A :=
  match l, mask with
  | x :: l', b :: mask' =>
      if b then x :: take l' mask' else take l' mask'
  | _, _ => []
  end.

(** [df[mask]] *)
Definition loc (df : DataFrame) (mask : list bool) : DataFrame :=
  {| columns := columns df; rows := take (rows df) mask |}.

(** [df.columns[df.columns.str.contains(sub)]] *)
Definition columns_containing (df : DataFrame) (sub : string)
  : list string :=
  List.filter (Str.contains sub) (columns df).

(** [df[cols]] for a list of columns of the schema: the cells of each
    row, column by column. *)
Definition getitems (df : DataFrame) (cols : list string)
  : list (list value) :=
  (λ r, (λ c, cell c r) <$> cols) <$> rows df.

(** [x == s] for one cell: only a string equal to [s] compares equal. *)
Definition eq_str (s : string) (x : value) : bool :=
  match x with
  | Atom (PyStr t) => String.eqb t s
  | _ => false
  end.

(** [x in ids] for one cell, as [isin] sees it: a cell that is not a
    string, a list among them, is none of the identifiers. *)
Definition isin_cell (ids : list string) (x : value) : bool :=
  existsb (λ s, eq_str s x) ids.

Definition isna_cell (x : value) : bool :=
  match x with
  | Atom PyNone => true
  | Atom (PyFloat f) => is_nan f
  | _ => false
  end.

(** Elementwise operations on a column. *)
Definition eq (col : list value) (s : string) : list bool :=
  eq_str s <$> col.
Definition ne (col : list value) (s : string) : list bool :=
  (λ x, negb (eq_str s x)) <$> col.
Definition isna (col : list value) : list bool := isna_cell <$> col.
Definition fillna (col : list value) (v : value) : list value :=
  (λ x, if isna_cell x then v else x) <$> col.
Definition and_ (a b : list bool) : list bool := zip_with andb a b.
Definition or_ (a b : list bool) : list bool := zip_with orb a b.
Definition not_ (a : list bool) : list bool := negb <$> a.

(** [col.apply(f)]: the first cell on which [f] raises aborts the call. *)
Definition apply {A B} (f : A → result B) (col : list A)
  : result (list B) := mapM f col.

(** The values [col.apply(f)] has collected are stored in a column of the
    type they fit.  The parser of speeds returns floats and [None]: where
    a float is among them the column is a float column, in which each
    [None] is the missing float; any other column is left as it is. *)
Definition is_float_or_none (x : value) : bool :=
  match x with
  | Atom (PyFloat _) | Atom PyNone => true
  | _ => false
  end.

Definition infer_floats (col : list value) : list value :=
  if existsb Py.isinstance_float col && forallb is_float_or_none col
  then (λ x, match x with Atom PyNone => NaN | _ => x end) <$> col
  else col.

(** Elementwise operations on a sub-frame. *)
Definition frame_eq (fr : list (list value)) (s : string)
  : list (list bool) := (λ cs : list value, eq_str s <$> cs) <$> fr.
Definition frame_isin (fr : list (list value)) (ids : list string)
  : list (list bool) :=
  (λ cs : list value, isin_cell ids <$> cs) <$> fr.

(** [col.map(d)] for a dictionary of integers: a key that is not in
    the dictionary maps to NaN, and one NaN makes the column a float
    column. *)
Definition map_dict (d : gmap string Z) (col : list value) : list value :=
  let look (x : value) : option Z :=
    match x with Atom (PyStr s) => d !! s | _ => None end in
  let hits := look <$> col in
  if forallb (λ o : option Z, bool_decide (is_Some o)) hits
  then (λ o, Atom (PyInt (default 0 o))) <$> hits
  else (λ o : option Z,
          from_option (λ z, Atom (PyFloat (Py.float_of_Z z))) NaN o)
         <$> hits.

End pd.

Module np.

(** [np.any(frame, axis = 1)] *)
Definition any_axis1 (fr : list (list bool)) : list bool :=
  existsb id <$> fr.

Fixpoint select_go {A} (condlist : list (list bool)) (choicelist : list A)
  (default : list A) : list A :=
  match condlist, choicelist with
  | c :: cs, v :: vs =>
      zip_with (λ (b : bool) x, if b then v else x) c
        (select_go cs vs default)
  | _, _ => default
  end.

(** [np.select(condlist, choicelist, default)]: at each position the
    choice of the first condition that holds there, the default where
    none does.  The two lists must have the same length. *)
Definition select {A} (condlist : list (list bool)) (choicelist : list A)
  (default : list A) : result (list A) :=
  if (length condlist =? length choicelist)%nat
  then Ok (select_go condlist choicelist default)
  else Raise ValueError.

(** A scalar default is broadcast over the rows. *)
Definition broadcast {A} (df : DataFrame) (x : A) : list A :=
  replicate (length (rows df)) x.

Definition int64_min : Z := - 2 ^ 63.
Definition int64_max : Z := 2 ^ 63 - 1.

Definition to_int64 (z : Z) : result Z :=
  if (int64_min <=? z) && (z <=? int64_max) then Ok z
  else Raise OverflowError.

Definition int_of_atom (a : atom) : result Z :=
  match a with
  | PyInt z => to_int64 z
  | PyFloat f => z ← Py.int_of_float f; to_int64 z
  | PyStr s => z ← Py.int_of_str s; to_int64 z
  | PyNone => Raise TypeError
  end.

(** [np.array(x, dtype = 'int')]: the integers of a scalar or of a list. *)
Definition array_int (x : value) : result (list Z) :=
  match x with
  | Atom a => z ← int_of_atom a; Ok [z]
  | PyList l => mapM int_of_atom l
  end.

(** [np.max(a)]: a [ValueError] on an empty array. *)
Definition max (a : list Z) : result Z :=
  match a with
  | [] => Raise ValueError
  | z :: a' => Ok (fold_left Z.max a' z)
  end.

End np.

(** ** Ordering of numbers *)

Module Cmp.

Definition of_float_comparison (c : float_comparison) : option comparison :=
  match c with
  | FEq => Some Eq
  | FLt => Some Lt
  | FGt => Some Gt
  | FNotComparable => None
  end.

(** How [x] stands to [y]; [None] when a NaN is involved, a
    [TypeError] when one side is not a number. *)
Definition compare (x y : atom) : result (option comparison) :=
  match x, y with
  | PyInt a, PyInt b => Ok (Some (a ?= b))
  | PyInt a, PyFloat g => Ok (Py.compare_int_float a g)
  | PyFloat f, PyInt b => Ok (CompOpp <$> Py.compare_int_float b f)
  | PyFloat f, PyFloat g => Ok (of_float_comparison (PrimFloat.compare f g))
  | _, _ => Raise TypeError
  end.

Definition holds (ok : comparison → bool) (x : value) (y : atom)
  : result bool :=
  match x with
  | Atom a => c ← compare a y; Ok (from_option ok false c)
  | PyList _ => Raise TypeError
  end.

Definition le := holds (λ c, match c with Gt => false | _ => true end).
Definition lt := holds (λ c, match c with Lt => true | _ => false end).
Definition ge := holds (λ c, match c with Lt => false | _ => true end).
Definition gt := holds (λ c, match c with Gt => true | _ => false end).

End Cmp.

(** Comparison of a column with a number, and the liftings that let a
    list of conditions be written as in the source. *)
Definition col_le (col : list value) (k : atom) := pd.apply (λ x, Cmp.le x k) col.
Definition col_lt (col : list value) (k : atom) := pd.apply (λ x, Cmp.lt x k) col.
Definition col_ge (col : list value) (k : atom) := pd.apply (λ x, Cmp.ge x k) col.
Definition col_gt (col : list value) (k : atom) := pd.apply (λ x, Cmp.gt x k) col.

Definition and_r (a b : result (list bool)) : result (list bool) :=
  x ← a; y ← b; Ok (pd.and_ x y).

Infix "&&&" := and_r (at level 40, left associativity).

Definition strings (col : list string) : list value :=
  (λ s, Atom (PyStr s)) <$> col.

Definition ints (col : list Z) : list value :=
  (λ z, Atom (PyInt z)) <$> col.

(** ** The classifiers *)

Definition biking_permitted (gdf_edges : DataFrame)
  : result (DataFrame * DataFrame) :=
  bicycle ← pd.getitem gdf_edges "bicycle";
  access ← pd.getitem gdf_edges "access";
  highway ← pd.getitem gdf_edges "highway";
  footway ← pd.getitem gdf_edges "footway";
  let conditions :=
    [ pd.eq bicycle "no";                                           (* p2 *)
      pd.eq access "no";                                            (* p6 *)
      pd.eq highway "motorway";                                     (* p3 *)
      pd.eq highway "motorway_link";                                (* p4 *)
      pd.eq highway "proposed";                                     (* p7 *)
      pd.and_
        (pd.and_ (pd.eq footway "sidewalk") (pd.not_ (pd.eq bicycle "yes")))
        (pd.or_ (pd.eq highway "footway") (pd.eq highway "path")) ] (* p5 *)
  in
  let values := ["p2"; "p6"; "p3"; "p4"; "p7"; "p5"] in
  rule ← np.select conditions values (np.broadcast gdf_edges "p0");
  let gdf_edges := pd.setitem gdf_edges "rule" (strings rule) in
  rule ← pd.getitem gdf_edges "rule";
  let gdf_allowed := pd.loc gdf_edges (pd.eq rule "p0") in
  let gdf_not_allowed := pd.loc gdf_edges (pd.not_ (pd.eq rule "p0")) in
  Ok (gdf_allowed, gdf_not_allowed).

Definition is_separated_path (gdf_edges : DataFrame)
  : result (DataFrame * DataFrame) :=
  let cycleway_tags := pd.columns_containing gdf_edges "cycleway" in
  highway ← pd.getitem gdf_edges "highway";
  footway ← pd.getitem gdf_edges "footway";
  let conditions :=
    [ pd.eq highway "cycleway";                                     (* s3 *)
      pd.eq highway "path";                                         (* s1 *)
      pd.and_ (pd.eq highway "footway")
        (pd.not_ (pd.eq footway "crossing"));                       (* s2 *)
      np.any_axis1
        (pd.frame_eq (pd.getitems gdf_edges cycleway_tags) "track"); (* s7 *)
      np.any_axis1
        (pd.frame_eq (pd.getitems gdf_edges cycleway_tags)
           "opposite_track") ]                                      (* s8 *)
  in
  let values := ["s3"; "s1"; "s2"; "s7"; "s8"] in
  rule ← np.select conditions values (np.broadcast gdf_edges "s0");
  let gdf_edges := pd.setitem gdf_edges "rule" (strings rule) in
  rule ← pd.getitem gdf_edges "rule";
  let separated := pd.loc gdf_edges (pd.ne rule "s0") in
  let not_separated := pd.loc gdf_edges (pd.eq rule "s0") in
  not_separated ← pd.drop not_separated "rule";
  Ok (separated, not_separated).

Definition lane_identifiers : list string :=
  ["crossing"; "lane"; "left"; "opposite"; "opposite_lane"; "right"; "yes"].

Definition is_bike_lane (gdf_edges : DataFrame)
  : result (DataFrame * DataFrame) :=
  let cycleway_tags := pd.columns_containing gdf_edges "cycleway" in
  lane_check ←
    (if pd.has_column gdf_edges "shoulder:access:bicycle" then
       shoulder ← pd.getitem gdf_edges "shoulder:access:bicycle";
       Ok (pd.or_
             (np.any_axis1
                (pd.frame_isin (pd.getitems gdf_edges cycleway_tags)
                   lane_identifiers))
             (pd.eq shoulder "yes"))
     else
       Ok (np.any_axis1
             (pd.frame_isin (pd.getitems gdf_edges cycleway_tags)
                lane_identifiers)));
  let to_analyze := pd.loc gdf_edges lane_check in
  let no_lane := pd.loc gdf_edges (pd.not_ lane_check) in
  Ok (to_analyze, no_lane).

Definition parking_identifiers : list string :=
  ["yes"; "parallel"; "perpendicular"; "diagonal"; "marked"].

Definition parking_present (gdf_edges : DataFrame)
  : result (DataFrame * DataFrame) :=
  let parking_tags := pd.columns_containing gdf_edges "parking" in
  let parking_check :=
    np.any_axis1
      (pd.frame_isin (pd.getitems gdf_edges parking_tags)
         parking_identifiers) in
  let parking_detected := pd.loc gdf_edges parking_check in
  let parking_not_detected := pd.loc gdf_edges (pd.not_ parking_check) in
  Ok (parking_detected, parking_not_detected).

(** ** Attribute normalizers *)

Definition get_lanes (gdf_edges : DataFrame) (default_lanes : Z)
  : result DataFrame :=
  lanes ← pd.getitem gdf_edges "lanes";
  arrays ← pd.apply np.array_int (pd.fillna lanes (PyInt default_lanes));
  largest ← pd.apply np.max arrays;
  Ok (pd.setitem gdf_edges "lanes_assumed" (ints largest)).

Definition mph_to_kph (mph : float) : float := (mph * 1.60934)%float.
Definition kph_to_mph (kph : float) : float := (kph / 1.60934)%float.
Definition knots_to_mph (knots : float) : float := (knots * 1.15078)%float.
Definition mph_to_knots (mph : float) : float := (mph / 1.15078)%float.

(** [np.isnan(x)] used as a condition.  On a float it tells whether it
    is NaN.  An integer is first made an array element: one that fits the
    signed or the unsigned 64-bit type is a number and not NaN, any other
    becomes an object, on which [np.isnan] is a [TypeError], as it is on a
    string and on [None].  A list gives an array: beside a float every
    integer is taken as a float; the truth value of the answer is that of
    its element when it has exactly one and a [ValueError] otherwise. *)
Definition isnan_atom (a : atom) : result bool :=
  match a with
  | PyFloat f => Ok (is_nan f)
  | PyInt z =>
      if (np.int64_min <=? z) && (z <? 2 ^ 64) then Ok false
      else Raise TypeError
  | _ => Raise TypeError
  end.

Definition isnan_float_array (a : atom) : result bool :=
  match a with
  | PyFloat f => Ok (is_nan f)
  | PyInt _ => Ok false
  | _ => Raise TypeError
  end.

Definition isnan_truth (x : value) : result bool :=
  match x with
  | Atom a => isnan_atom a
  | PyList l =>
      bs ← mapM (if existsb (λ a, Py.isinstance_float (Atom a)) l
                 then isnan_float_array else isnan_atom) l;
      match bs with
      | [b] => Ok b
      | _ => Raise ValueError
      end
  end.

(** The function ends without a [return] when the argument is neither a
    string nor NaN: the caller receives [None]. *)
Definition parse_speed (speed_string : value) : result value :=
  match speed_string with
  | Atom (PyStr s) =>
      if Str.contains "mph" s then
        w ← Str.first_word s;
        f ← Py.float_of_str w;
        Ok (Atom (PyFloat f))
      else if Str.contains "knots" s then
        w ← Str.first_word s;
        f ← Py.float_of_str w;
        Ok (Atom (PyFloat (knots_to_mph f)))
      else
        f ← Py.float_of_str s;
        Ok (Atom (PyFloat f))
  | _ =>
      b ← isnan_truth speed_string;
      if (b : bool) then Ok NaN else Ok (Atom PyNone)
  end.

Definition clean_speeds (gdf_edges : DataFrame) (key units : string)
  (newkey : option string) : result DataFrame :=
  let newkey :=
    match newkey with
    | None => key ++ "_" ++ units
    | Some k => k
    end in
  speeds ← pd.getitem gdf_edges key;
  parsed ← pd.apply parse_speed speeds;
  Ok (pd.setitem gdf_edges newkey (pd.infer_floats parsed)).

Definition get_max_speed (gdf_edges : DataFrame)
  (national local motorway primary secondary : Z) : result DataFrame :=
  maxspeed ← pd.getitem gdf_edges "maxspeed";
  highway ← pd.getitem gdf_edges "highway";
  let conditions :=
    [ pd.eq maxspeed "national";
      pd.and_ (pd.isna maxspeed) (pd.eq highway "motorway");
      pd.and_ (pd.isna maxspeed) (pd.eq highway "primary");
      pd.and_ (pd.isna maxspeed) (pd.eq highway "secondary");
      pd.isna maxspeed ] in
  let values := ints [national; motorway; primary; secondary; local] in
  assumed ← np.select conditions values maxspeed;
  let gdf_edges := pd.setitem gdf_edges "maxspeed_assumed" assumed in
  assumed ← pd.getitem gdf_edges "maxspeed_assumed";
  arrays ← pd.apply np.array_int assumed;
  largest ← pd.apply np.max arrays;
  Ok (pd.setitem gdf_edges "maxspeed_assumed" (ints largest)).

(** The names a function body can read: its parameters.  The module
    binds no global of the names used below, so a name that is not a
    parameter is a [NameError]. *)
Definition read_name (scope : gmap string Z) (n : string) : result value :=
  match scope !! n with
  | Some z => Ok (Atom (PyInt z))
  | None => Raise (NameError n)
  end.

(** Lines 271-272 of the source repeat the comment of lines 262-263
    without the comment sign, so that the file as it stands is rejected by
    the Python parser before any function runs.  The definition follows
    the body with these two lines read as the comment they repeat: six
    conditions, five values, the last of them the name [resdidential]. *)
Definition get_max_speed_us (gdf_edges : DataFrame)
  (motorway primary secondary tertiary residential : Z) : result DataFrame :=
  let scope : gmap string Z :=
    list_to_map [("motorway", motorway); ("primary", primary);
                 ("secondary", secondary); ("tertiary", tertiary);
                 ("residential", residential)] in
  maxspeed ← pd.getitem gdf_edges "maxspeed";
  highway ← pd.getitem gdf_edges "highway";
  let conditions :=
    [ pd.and_ (pd.isna maxspeed) (pd.eq highway "motorway");
      pd.and_ (pd.isna maxspeed) (pd.eq highway "primary");
      pd.and_ (pd.isna maxspeed) (pd.eq highway "secondary");
      pd.and_ (pd.isna maxspeed) (pd.eq highway "tertiary");
      pd.and_ (pd.isna maxspeed) (pd.eq highway "residential");
      pd.isna maxspeed ] in
  values ← mapM (read_name scope)
             ["motorway"; "primary"; "secondary"; "tertiary"; "resdidential"];
  assumed ← np.select conditions values maxspeed;
  let gdf_edges := pd.setitem gdf_edges "maxspeed_assumed" assumed in
  assumed ← pd.getitem gdf_edges "maxspeed_assumed";
  arrays ← pd.apply np.array_int assumed;
  largest ← pd.apply np.max arrays;
  Ok (pd.setitem gdf_edges "maxspeed_assumed" (ints largest)).

(** ** The scoring procedures *)

Definition sequence {A} (l : list (result A)) : result (list A) := mapM id l.

Definition rule_dict_with_parking : gmap string Z :=
  list_to_map [("b1", 1); ("b2", 3); ("b3", 3); ("b4", 2); ("b5", 2);
               ("b6", 2); ("b7", 3); ("b8", 4); ("b9", 3)].

Definition bike_lane_analysis_with_parking (gdf_edges : DataFrame)
  : result DataFrame :=
  gdf_edges ← get_lanes gdf_edges 2;
  gdf_edges ← get_max_speed gdf_edges 40 50 100 80 80;
  lanes_assumed ← pd.getitem gdf_edges "lanes_assumed";
  maxspeed_assumed ← pd.getitem gdf_edges "maxspeed_assumed";
  width ← pd.getitem gdf_edges "width";
  highway ← pd.getitem gdf_edges "highway";
  conditions ← sequence
    [ col_ge lanes_assumed (PyInt 3) &&& col_le maxspeed_assumed (PyInt 55);
      col_le width (PyFloat 4.1);
      col_le width (PyFloat 4.25);
      col_le width (PyFloat 4.5)
        &&& (col_le maxspeed_assumed (PyInt 40)
             &&& Ok (pd.eq highway "residential"));
      col_gt maxspeed_assumed (PyInt 40) &&& col_le maxspeed_assumed (PyInt 50);
      col_gt maxspeed_assumed (PyInt 50) &&& col_le maxspeed_assumed (PyInt 55);
      col_gt maxspeed_assumed (PyInt 55);
      Ok (pd.ne highway "residential") ];
  let values := ["b2"; "b3"; "b4"; "b5"; "b6"; "b7"; "b8"; "b9"] in
  rule ← np.select conditions values (np.broadcast gdf_edges "b1");
  let gdf_edges := pd.setitem gdf_edges "rule" (strings rule) in
  rule ← pd.getitem gdf_edges "rule";
  Ok (pd.setitem gdf_edges "lts" (pd.map_dict rule_dict_with_parking rule)).

Definition rule_dict_no_parking : gmap string Z :=
  list_to_map [("c1", 1); ("c3", 3); ("c4", 2); ("c5", 3); ("c6", 4);
               ("c7", 3)].

Definition bike_lane_analysis_no_parking (gdf_edges : DataFrame)
  : result DataFrame :=
  gdf_edges ← get_lanes gdf_edges 2;
  gdf_edges ← get_max_speed gdf_edges 40 50 100 80 80;
  (* assign widths that are a string to nan *)
  width ← pd.getitem gdf_edges "width";
  let gdf_edges :=
    pd.setitem gdf_edges "width"
      ((λ x, if Py.isinstance_str x then NaN else x) <$> width) in
  lanes_assumed ← pd.getitem gdf_edges "lanes_assumed";
  maxspeed_assumed ← pd.getitem gdf_edges "maxspeed_assumed";
  width ← pd.getitem gdf_edges "width";
  highway ← pd.getitem gdf_edges "highway";
  conditions ← sequence
    [ col_ge lanes_assumed (PyInt 3) &&& col_le maxspeed_assumed (PyInt 65);
      Ok (Py.isinstance_float <$> width) &&& col_le width (PyFloat 1.7);
      col_gt maxspeed_assumed (PyInt 50) &&& col_le maxspeed_assumed (PyInt 65);
      col_gt maxspeed_assumed (PyInt 65);
      Ok (pd.ne highway "residential") ];
  let values := ["c3"; "c4"; "c5"; "c6"; "c7"] in
  rule ← np.select conditions values (np.broadcast gdf_edges "c1");
  let gdf_edges := pd.setitem gdf_edges "rule" (strings rule) in
  rule ← pd.getitem gdf_edges "rule";
  Ok (pd.setitem gdf_edges "lts" (pd.map_dict rule_dict_no_parking rule)).

Definition rule_dict_mixed : gmap string Z :=
  list_to_map [("m17", 1); ("m13", 1); ("m14", 2); ("m2", 2); ("m15", 2);
               ("m3", 2); ("m4", 2); ("m16", 2); ("m5", 2); ("m6", 3);
               ("m7", 3); ("m8", 4); ("m9", 2); ("m10", 3); ("m11", 4);
               ("m12", 4)].

Definition mixed_traffic (gdf_edges : DataFrame) : result DataFrame :=
  gdf_edges ← get_lanes gdf_edges 2;
  gdf_edges ← get_max_speed gdf_edges 40 50 100 80 80;
  motor_vehicle ← pd.getitem gdf_edges "motor_vehicle";
  highway ← pd.getitem gdf_edges "highway";
  footway ← pd.getitem gdf_edges "footway";
  service ← pd.getitem gdf_edges "service";
  maxspeed_assumed ← pd.getitem gdf_edges "maxspeed_assumed";
  lanes_assumed ← pd.getitem gdf_edges "lanes_assumed";
  conditions ← sequence
    [ Ok (pd.eq motor_vehicle "no");
      Ok (pd.eq highway "pedestrian");
      Ok (pd.eq highway "footway") &&& Ok (pd.eq footway "crossing");
      Ok (pd.eq highway "service") &&& Ok (pd.eq service "alley");
      Ok (pd.eq highway "track");
      col_le maxspeed_assumed (PyInt 50) &&& Ok (pd.eq highway "service")
        &&& Ok (pd.eq service "parking_aisle");
      col_le maxspeed_assumed (PyInt 50) &&& Ok (pd.eq highway "service")
        &&& Ok (pd.eq service "driveway");
      col_le maxspeed_assumed (PyInt 35) &&& Ok (pd.eq highway "service");
      col_le maxspeed_assumed (PyInt 40) &&& col_le lanes_assumed (PyInt 3)
        &&& Ok (pd.eq highway "residential");
      col_le maxspeed_assumed (PyInt 40) &&& col_le lanes_assumed (PyInt 3);
      col_le maxspeed_assumed (PyInt 40) &&& col_le lanes_assumed (PyInt 5);
      col_le maxspeed_assumed (PyInt 40) &&& col_gt lanes_assumed (PyInt 5);
      col_le maxspeed_assumed (PyInt 50) &&& col_lt lanes_assumed (PyInt 3)
        &&& Ok (pd.eq highway "residential");
      col_le maxspeed_assumed (PyInt 50) &&& col_le lanes_assumed (PyInt 3);
      col_le maxspeed_assumed (PyInt 50) &&& col_gt lanes_assumed (PyInt 3);
      col_gt maxspeed_assumed (PyInt 50) ];
  let values :=
    ["m17"; "m13"; "m14"; "m2"; "m15"; "m3"; "m4"; "m16"; "m5"; "m6"; "m7";
     "m8"; "m9"; "m10"; "m11"; "m12"] in
  rule ← np.select conditions values (np.broadcast gdf_edges "m0");
  let gdf_edges := pd.setitem gdf_edges "rule" (strings rule) in
  rule ← pd.getitem gdf_edges "rule";
  Ok (pd.setitem gdf_edges "lts" (pd.map_dict rule_dict_mixed rule)).

(** * The specification's reading of the rules *)

(** The definitions of this part follow the words of the specification,
    edge by edge; the theorems compare them with the functions above. *)

(** The cascade of section 4.1 of the specification, read on one edge. *)
Definition permission_rule (r : Row) : string :=
  if pd.eq_str "no" (cell "bicycle" r) then "p2"
  else if pd.eq_str "no" (cell "access" r) then "p6"
  else if pd.eq_str "motorway" (cell "highway" r) then "p3"
  else if pd.eq_str "motorway_link" (cell "highway" r) then "p4"
  else if pd.eq_str "proposed" (cell "highway" r) then "p7"
  else if pd.eq_str "sidewalk" (cell "footway" r)
          && negb (pd.eq_str "yes" (cell "bicycle" r))
          && (pd.eq_str "footway" (cell "highway" r)
              || pd.eq_str "path" (cell "highway" r))
       then "p5"
  else "p0".

(** An edge with its rule id written in the [rule] column. *)
Definition tag_rule (f : Row → string) (r : Row) : Row :=
  set_cell "rule" r (Atom (PyStr (f r))).

Definition permitted (r : Row) : bool := String.eqb (permission_rule r) "p0".

Definition permission_columns : list string :=
  ["bicycle"; "access"; "highway"; "footway"].

(** A small frame used to run the functions: a residential street, a
    motorway closed to bicycles, and a primary road with a bicycle lane,
    a speed limit, two lane counts and a width. *)
Definition edge (l : Z) (tags : list (string * value)) : Row :=
  {| label := l; cells := list_to_map tags |}.

Definition example_columns : list string :=
  ["highway"; "bicycle"; "access"; "footway"; "motor_vehicle"; "service";
   "maxspeed"; "lanes"; "width"; "cycleway"; "cycleway:right";
   "parking:lane"].

Definition example_edges : DataFrame :=
  {| columns := example_columns;
     rows :=
       [ edge 0 [("highway", Atom (PyStr "residential"))];
         edge 1 [("highway", Atom (PyStr "motorway"));
                 ("bicycle", Atom (PyStr "no"))];
         edge 2 [("highway", Atom (PyStr "primary"));
                 ("cycleway", Atom (PyStr "lane"));
                 ("maxspeed", Atom (PyStr "60"));
                 ("lanes", PyList [PyStr "2"; PyStr "4"]);
                 ("width", Atom (PyFloat 4.2))] ] |}.

(** The four splitting classifiers of sections 4.1 to 4.4. *)
Inductive classifier :=
| Permission
| Separation
| LanePresence
| ParkingPresence.

Definition classify (k : classifier)
  : DataFrame → result (DataFrame * DataFrame) :=
  match k with
  | Permission => biking_permitted
  | Separation => is_separated_path
  | LanePresence => is_bike_lane
  | ParkingPresence => parking_present
  end.

(** Two rows stand for the same edge when they carry the same index label
    and the same cells, the diagnostic [rule] column apart. *)
Definition same_edge (r r' : Row) : Prop :=
  label r = label r' ∧ ∀ c, c ≠ "rule" → cells r !! c = cells r' !! c.

(** [a] and [b] split the rows [l]: some mask over the positions of [l]
    sends each position to exactly one side, in order. *)
Definition splits (l a b : list Row) : Prop :=
  ∃ mask : list bool,
    length mask = length l
    ∧ Forall2 same_edge (pd.take l mask) a
    ∧ Forall2 same_edge (pd.take l (negb <$> mask)) b.

(** The cells of an edge in the columns [family]. *)
Definition family_cells (family : list string) (r : Row) : list value :=
  (λ c, cell c r) <$> family.

(** The separation cascade of section 4.2, read on one edge; [cw] are the
    cycleway-family columns of the frame. *)
Definition separation_rule (cw : list string) (r : Row) : string :=
  if pd.eq_str "cycleway" (cell "highway" r) then "s3"
  else if pd.eq_str "path" (cell "highway" r) then "s1"
  else if pd.eq_str "footway" (cell "highway" r)
          && negb (pd.eq_str "crossing" (cell "footway" r)) then "s2"
  else if existsb (pd.eq_str "track") (family_cells cw r) then "s7"
  else if existsb (pd.eq_str "opposite_track") (family_cells cw r) then "s8"
  else "s0".

Definition separated (cw : list string) (r : Row) : bool :=
  negb (String.eqb (separation_rule cw r) "s0").

(** An edge without its [rule] column. *)
Definition untag_rule (r : Row) : Row :=
  {| label := label r; cells := delete "rule" (cells r) |}.

(** Lane detection of section 4.3, read on one edge; [shoulder] tells
    whether the frame has the column [shoulder:access:bicycle]. *)
Definition has_lane (cw : list string) (shoulder : bool) (r : Row) : bool :=
  existsb (pd.isin_cell lane_identifiers) (family_cells cw r)
  || shoulder && pd.eq_str "yes" (cell "shoulder:access:bicycle" r).

(** Parking detection of section 4.4, read on one edge; [pk] are the
    parking-family columns of the frame. *)
Definition has_parking (pk : list string) (r : Row) : bool :=
  existsb (pd.isin_cell parking_identifiers) (family_cells pk r).

(** ** The normalizers and the scorers, read on one edge *)

(** [np.max(np.array(x, dtype = 'int'))] *)
Definition int_max (x : value) : result Z :=
  a ← np.array_int x; np.max a.

(** The lane count [get_lanes] resolves for one edge. *)
Definition lanes_assumed_of (default_lanes : Z) (r : Row) : result Z :=
  int_max (if pd.isna_cell (cell "lanes" r) then Atom (PyInt default_lanes)
           else cell "lanes" r).

(** The value [get_max_speed] selects for one edge before the cast. *)
Definition maxspeed_choice (national local motorway primary secondary : Z)
  (r : Row) : value :=
  if pd.eq_str "national" (cell "maxspeed" r) then Atom (PyInt national)
  else if pd.isna_cell (cell "maxspeed" r)
          && pd.eq_str "motorway" (cell "highway" r)
       then Atom (PyInt motorway)
  else if pd.isna_cell (cell "maxspeed" r)
          && pd.eq_str "primary" (cell "highway" r)
       then Atom (PyInt primary)
  else if pd.isna_cell (cell "maxspeed" r)
          && pd.eq_str "secondary" (cell "highway" r)
       then Atom (PyInt secondary)
  else if pd.isna_cell (cell "maxspeed" r) then Atom (PyInt local)
  else cell "maxspeed" r.

(** The speed [get_max_speed] resolves for one edge. *)
Definition maxspeed_assumed_of (national local motorway primary secondary : Z)
  (r : Row) : result Z :=
  int_max (maxspeed_choice national local motorway primary secondary r).

(** The resolutions with the defaults the scorers use. *)
Definition lanes_of (r : Row) : result Z := lanes_assumed_of 2 r.
Definition speed_of (r : Row) : result Z :=
  maxspeed_assumed_of 40 50 100 80 80 r.

(** An edge with its two resolved attributes written in. *)
Definition resolved (r : Row) : Row :=
  set_cell "maxspeed_assumed"
    (set_cell "lanes_assumed" r (Atom (PyInt (val 0 (lanes_of r)))))
    (Atom (PyInt (val 0 (speed_of r)))).

(** A cell that orders against a number. *)
Definition is_number (x : value) : bool :=
  match x with
  | Atom (PyInt _) | Atom (PyFloat _) => true
  | _ => false
  end.

(** [x <= c] on a numeric cell; false on NaN. *)
Definition num_le (x : value) (c : float) : bool :=
  val false (Cmp.le x (PyFloat c)).

(** The frame the scorers work on once [get_lanes] and [get_max_speed]
    have run with their defaults. *)
Definition resolved_frame (df : DataFrame) : DataFrame :=
  pd.setitem
    (pd.setitem
       (pd.setitem df "lanes_assumed"
          ((λ r, Atom (PyInt (val 0 (lanes_of r)))) <$> rows df))
       "maxspeed_assumed"
       (maxspeed_choice 40 50 100 80 80 <$> rows df))
    "maxspeed_assumed"
    ((λ r, Atom (PyInt (val 0 (speed_of r)))) <$> rows df).

(** The frame can be resolved: the columns read are there and every edge
    has a lane count and a speed that cast to integers. *)
Definition resolvable (df : DataFrame) : bool :=
  pd.has_column df "lanes" && pd.has_column df "maxspeed"
  && pd.has_column df "highway"
  && forallb (λ r, is_ok (lanes_of r) && is_ok (speed_of r)) (rows df).

(** An edge with its resolved attributes, its rule id and its score. *)
Definition scored (r : Row) (rule : string) (lts : Z) : Row :=
  set_cell "lts" (set_cell "rule" (resolved r) (Atom (PyStr rule)))
    (Atom (PyInt lts)).

Definition scored_by (table : Row → string * Z) (r : Row) : Row :=
  scored r (fst (table r)) (snd (table r)).

(** Section 4.6 of the specification: the priority-ordered rules of the
    lane-with-parking scorer and the score of each, for resolved lanes
    [la], resolved speed [ms], width [w] and highway tag [hw]. *)
Definition with_parking_table (la ms : Z) (w hw : value) : string * Z :=
  if (3 <=? la) && (ms <=? 55) then ("b2", 3)
  else if num_le w 4.1 then ("b3", 3)
  else if num_le w 4.25 then ("b4", 2)
  else if num_le w 4.5 && (ms <=? 40) && pd.eq_str "residential" hw
       then ("b5", 2)
  else if (40 <? ms) && (ms <=? 50) then ("b6", 2)
  else if (50 <? ms) && (ms <=? 55) then ("b7", 3)
  else if 55 <? ms then ("b8", 4)
  else if negb (pd.eq_str "residential" hw) then ("b9", 3)
  else ("b1", 1).

Definition with_parking_score (r : Row) : string * Z :=
  with_parking_table (val 0 (lanes_of r)) (val 0 (speed_of r))
    (cell "width" r) (cell "highway" r).

(** The frames the lane-with-parking scorer accepts. *)
Definition scorable_with_parking (df : DataFrame) : bool :=
  resolvable df && pd.has_column df "width"
  && forallb (λ r, is_number (cell "width" r)) (rows df).

(** Section 4.8 of the specification: the sixteen rules of the
    mixed-traffic scorer in their order, with the score of each; an edge
    that matches none is left unmatched (rule m0, no score). *)
Definition mixed_table (la ms : Z) (mv hw fw sv : value)
  : string * option Z :=
  if pd.eq_str "no" mv then ("m17", Some 1)
  else if pd.eq_str "pedestrian" hw then ("m13", Some 1)
  else if pd.eq_str "footway" hw && pd.eq_str "crossing" fw
       then ("m14", Some 2)
  else if pd.eq_str "service" hw && pd.eq_str "alley" sv then ("m2", Some 2)
  else if pd.eq_str "track" hw then ("m15", Some 2)
  else if (ms <=? 50) && pd.eq_str "service" hw
          && pd.eq_str "parking_aisle" sv then ("m3", Some 2)
  else if (ms <=? 50) && pd.eq_str "service" hw && pd.eq_str "driveway" sv
       then ("m4", Some 2)
  else if (ms <=? 35) && pd.eq_str "service" hw then ("m16", Some 2)
  else if (ms <=? 40) && (la <=? 3) && pd.eq_str "residential" hw
       then ("m5", Some 2)
  else if (ms <=? 40) && (la <=? 3) then ("m6", Some 3)
  else if (ms <=? 40) && (la <=? 5) then ("m7", Some 3)
  else if (ms <=? 40) && (5 <? la) then ("m8", Some 4)
  else if (ms <=? 50) && (la <? 3) && pd.eq_str "residential" hw
       then ("m9", Some 2)
  else if (ms <=? 50) && (la <=? 3) then ("m10", Some 3)
  else if (ms <=? 50) && (3 <? la) then ("m11", Some 4)
  else if 50 <? ms then ("m12", Some 4)
  else ("m0", None).

Definition mixed_score (r : Row) : string * option Z :=
  mixed_table (val 0 (lanes_of r)) (val 0 (speed_of r))
    (cell "motor_vehicle" r) (cell "highway" r) (cell "footway" r)
    (cell "service" r).

(** The frames the mixed-traffic scorer accepts. *)
Definition scorable_mixed (df : DataFrame) : bool :=
  resolvable df && pd.has_column df "motor_vehicle"
  && pd.has_column df "footway" && pd.has_column df "service".

(** Section 4.7 of the specification: a textual width is coerced to the
    missing value before the rules are read. *)
Definition coerce_width (x : value) : value :=
  if Py.isinstance_str x then NaN else x.

Definition coerced_frame (df : DataFrame) : DataFrame :=
  pd.setitem (resolved_frame df) "width"
    ((λ r, coerce_width (cell "width" r)) <$> rows df).

Definition coerced (r : Row) : Row :=
  set_cell "width" (resolved r) (coerce_width (cell "width" r)).

(** The rules of the lane-without-parking scorer in their order, with the
    score of each; [w] is the width after coercion. *)
Definition no_parking_table (la ms : Z) (w hw : value) : string * Z :=
  if (3 <=? la) && (ms <=? 65) then ("c3", 3)
  else if Py.isinstance_float w && num_le w 1.7 then ("c4", 2)
  else if (50 <? ms) && (ms <=? 65) then ("c5", 3)
  else if 65 <? ms then ("c6", 4)
  else if negb (pd.eq_str "residential" hw) then ("c7", 3)
  else ("c1", 1).

Definition no_parking_score (r : Row) : string * Z :=
  no_parking_table (val 0 (lanes_of r)) (val 0 (speed_of r))
    (coerce_width (cell "width" r)) (cell "highway" r).

(** The frames the lane-without-parking scorer accepts. *)
Definition scorable_no_parking (df : DataFrame) : bool :=
  resolvable df && pd.has_column df "width"
  && forallb (λ r, is_number (coerce_width (cell "width" r))) (rows df).

(** The three scoring procedures, the dictionary each maps its rule ids
    through and the rule id each gives an edge no predicate matches. *)
Inductive scorer :=
| WithParking
| NoParking
| MixedTraffic.

Definition score (s : scorer) : DataFrame → result DataFrame :=
  match s with
  | WithParking => bike_lane_analysis_with_parking
  | NoParking => bike_lane_analysis_no_parking
  | MixedTraffic => mixed_traffic
  end.

Definition rule_dict (s : scorer) : gmap string Z :=
  match s with
  | WithParking => rule_dict_with_parking
  | NoParking => rule_dict_no_parking
  | MixedTraffic => rule_dict_mixed
  end.

Definition default_rule (s : scorer) : string :=
  match s with
  | WithParking => "b1"
  | NoParking => "c1"
  | MixedTraffic => "m0"
  end.

(** ** The end-to-end scenario of section 8 *)

Definition missing (c : string) (r : Row) : Prop :=
  pd.isna_cell (cell c r) = true.

(** The columns the four functions on the route read by name. *)
Definition scenario_columns : list string :=
  ["bicycle"; "access"; "highway"; "footway"; "motor_vehicle"; "service";
   "maxspeed"; "lanes"].

(** A residential street that carries no other tag: speed limit and lane
    count are missing, so are the access tags, and so is every cell of a
    column of the cycleway family and of the shoulder column. *)
Definition plain_residential (r : Row) : Prop :=
  cell "highway" r = Atom (PyStr "residential")
  ∧ Forall (λ c, missing c r)
      ["bicycle"; "access"; "footway"; "motor_vehicle"; "service";
       "maxspeed"; "lanes"; "shoulder:access:bicycle"]
  ∧ ∀ c, Str.contains "cycleway" c = true → missing c r.

(** Two rows that differ at most in the [rule] column. *)
Definition agree (r r' : Row) : Prop :=
  label r' = label r ∧ ∀ c, c ≠ "rule" → cell c r' = cell c r.

(** The edge of the scenario: a residential street and nothing else. *)
Definition residential_street : Row :=
  edge 7 [("highway", Atom (PyStr "residential"))].

(** ** Inputs of the speed parser *)

(** A number that is present and that NumPy holds as a number: a float
    other than NaN, or an integer of the 64-bit range. *)
Definition present_number (x : value) : bool :=
  match x with
  | Atom (PyInt z) => (np.int64_min <=? z) && (z <=? np.int64_max)
  | Atom (PyFloat f) => negb (is_nan f)
  | _ => false
  end.

(** A frame for the US resolver: a residential street without a speed
    limit and a primary road with one. *)
Definition us_edges : DataFrame :=
  {| columns := ["highway"; "maxspeed"];
     rows := [ edge 0 [("highway", Atom (PyStr "residential"))];
               edge 1 [("highway", Atom (PyStr "primary"));
                       ("maxspeed", Atom (PyInt 45))] ] |}.

(** A frame whose speed limits carry a unit. *)
Definition mph_edges : DataFrame :=
  {| columns := ["highway"; "maxspeed"; "lanes"; "width"; "motor_vehicle";
                 "footway"; "service"];
     rows := [ edge 0 [("highway", Atom (PyStr "residential"));
                       ("maxspeed", Atom (PyStr "35 mph"))] ] |}.

(** The characters [int] accepts somewhere in a numeral. *)
Definition int_char (c : ascii) : bool :=
  Str.is_blank c || Str.is_digit c || Ascii.eqb c "+" || Ascii.eqb c "-"
  || Ascii.eqb c "_".

(** ** The module's own test *)

(** [test_answer] builds a frame without columns or rows, runs the
    permission filter on it and asserts that the pair it returns equals 5;
    a pair never equals a number, so the asserted condition, were it
    reached, is false.  The definition gives the asserted condition. *)
Definition test_answer : result bool :=
  let df := {| columns := []; rows := [] |} in
  out ← biking_permitted df;
  Ok false.

(** The first column of [wanted] that the frame lacks. *)
Definition first_missing (df : DataFrame) (wanted : list string)
  : option string :=
  List.find (λ c, negb (pd.has_column df c)) wanted.

(** The characters [float] accepts somewhere in a literal: blanks, digits,
    signs, the underscore, the point, the exponent mark and the letters
    of [inf], [infinity] and [nan], in either case. *)
Definition float_char (c : ascii) : bool :=
  Str.is_blank c || Str.is_digit c || Ascii.eqb c "+" || Ascii.eqb c "-"
  || Ascii.eqb c "_" || Ascii.eqb c "."
  || existsb (Ascii.eqb (Str.lower c))
       ["e"; "i"; "n"; "f"; "t"; "y"; "a"]%char.

(** ** The three scorers, read uniformly *)

(** The rule id and the score a scorer gives an edge. *)
Definition edge_rule (s : scorer) (r : Row) : string * Z :=
  match s with
  | WithParking => with_parking_score r
  | NoParking => no_parking_score r
  | MixedTraffic => (fst (mixed_score r), default 0 (snd (mixed_score r)))
  end.

(** The edge a scorer works on once the attributes are resolved, and the
    row it puts out. *)
Definition edge_in (s : scorer) (r : Row) : Row :=
  match s with
  | NoParking => coerced r
  | _ => resolved r
  end.

Definition edge_out (s : scorer) (r : Row) : Row :=
  set_cell "lts"
    (set_cell "rule" (edge_in s r) (Atom (PyStr (fst (edge_rule s r)))))
    (Atom (PyInt (snd (edge_rule s r)))).

(** The frames a scorer accepts. *)
Definition scorable (s : scorer) (df : DataFrame) : bool :=
  match s with
  | WithParking => scorable_with_parking df
  | NoParking => scorable_no_parking df
  | MixedTraffic => scorable_mixed df
  end.

(** The columns a scorer writes. *)
Definition columns_written (s : scorer) : list string :=
  match s with
  | NoParking => ["lanes_assumed"; "maxspeed_assumed"; "width"; "rule"; "lts"]
  | _ => ["lanes_assumed"; "maxspeed_assumed"; "rule"; "lts"]
  end.

Definition out_columns (s : scorer) (cols : list string) : list string :=
  foldl pd.with_column cols (columns_written s).

(** A frame of one street with the columns the scorers read. *)
Definition street (hw : string) (lanes maxspeed : Z) (width : float)
  : DataFrame :=
  {| columns := ["highway"; "lanes"; "maxspeed"; "width"; "motor_vehicle";
                 "footway"; "service"];
     rows := [ edge 0 [("highway", Atom (PyStr hw));
                       ("lanes", Atom (PyInt lanes));
                       ("maxspeed", Atom (PyInt maxspeed));
                       ("width", Atom (PyFloat width))] ] |}.

(** The scores of a frame, edge by edge. *)
Definition lts_of (df : DataFrame) : list value := cell "lts" <$> rows df.

(** A street whose width is given as text. *)
Definition text_width_edges : DataFrame :=
  {| columns := ["highway"; "lanes"; "maxspeed"; "width"];
     rows := [ edge 0 [("highway", Atom (PyStr "residential"));
                       ("width", Atom (PyStr "3 m"))] ] |}.

(** Two edges that differ at most in the cell [c]. *)
Definition differ_at (c : string) (r1 r2 : Row) : Prop :=
  ∀ k, k ≠ c → cell k r1 = cell k r2.

(** Frame [df2] has the edges of [df1] with at most the cell [c] changed,
    and the attribute [f] resolves on each edge of [df2] to no less than
    on the edge of [df1] it stands for. *)
Definition more_of (c : string) (f : Row → result Z)
  (df1 df2 : DataFrame) : Prop :=
  Forall2 (λ r1 r2, differ_at c r1 r2
                    ∧ ∃ a b, f r1 = Ok a ∧ f r2 = Ok b ∧ a ≤ b)
    (rows df1) (rows df2).

(** Every edge of [d2] has a score no lower than the edge of [d1] at the
    same position. *)
Definition no_lower_scores (d1 d2 : DataFrame) : Prop :=
  Forall2 (λ r1 r2, ∃ z1 z2, cell "lts" r1 = Atom (PyInt z1)
                      ∧ cell "lts" r2 = Atom (PyInt z2) ∧ z1 ≤ z2)
    (rows d1) (rows d2).

(** A scorer never lowers a score when speeds rise. *)
Definition monotone_in_speed (s : scorer) : Prop :=
  ∀ df1 df2 d1 d2,
    score s df1 = Ok d1 → score s df2 = Ok d2 →
    more_of "maxspeed" speed_of df1 df2 → no_lower_scores d1 d2.

(** ** How [clean_speeds] stores what the parser returns *)

(** The parser returns a float on the speed of the edge. *)
Definition parses_float (key : string) (r : Row) : bool :=
  match parse_speed (cell key r) with
  | Ok (Atom (PyFloat _)) => true
  | _ => false
  end.

(** The cell that holds the result [v] of the parser in a column where
    some result is a float ([float_column]) or none is. *)
Definition stored_speed (float_column : bool) (v : value) : value :=
  if float_column then match v with Atom PyNone => NaN | _ => v end
  else v.

(** A frame with a speed given as a number and a speed given as text. *)
Definition mixed_speed_edges : DataFrame :=
  {| columns := ["highway"; "maxspeed"];
     rows := [ edge 0 [("highway", Atom (PyStr "residential"));
                       ("maxspeed", Atom (PyFloat 50))];
               edge 1 [("highway", Atom (PyStr "residential"));
                       ("maxspeed", Atom (PyStr "35 mph"))] ] |}.

(** ** What the speed parser reads *)

(** A word: text with a character in it and no blank of [str.split]. *)
Fixpoint no_space (s : string) : bool :=
  match s with
  | EmptyString => true
  | String c s' => negb (Str.is_space c) && no_space s'
  end.

Definition is_word (s : string) : bool :=
  negb (String.eqb s "") && no_space s.

(** The literal [parse_speed] hands to [float]: the first word of a
    string in which a unit occurs, the whole string otherwise. *)
Definition speed_literal (s : string) : result string :=
  if Str.contains "mph" s || Str.contains "knots" s
  then Str.first_word s else Ok s.

(** The number [parse_speed] makes of the float read from [s]. *)
Definition speed_of_literal (s : string) (f : float) : float :=
  if Str.contains "mph" s then f
  else if Str.contains "knots" s then (f * 1.15078)%float
  else f.

(** The literals [float] reads as NaN: blanks around, an optional sign
    and the letters of [nan] in either case. *)
Definition spells_nan (w : string) : bool :=
  match Str.drop_underscores Py.NUL
          (Str.strip (list_ascii_of_string w)) with
  | None => false
  | Some l =>
      String.eqb
        (string_of_list_ascii (map Str.lower (snd (Str.sign l)))) "nan"
  end.

(** A number, whatever its size, that is not NaN. *)
Definition number_not_nan (x : value) : bool :=
  is_number x && negb (pd.isna_cell x).

(** * Properties *)

(** A few evaluations of the numeric conversions. *)
Example float_of_str_35 : Py.float_of_str "35" = Ok 35%float.
Proof. vm_compute. reflexivity. Qed.

Example float_of_str_dec : Py.float_of_str " 4.1 " = Ok 4.1%float.
Proof. vm_compute. reflexivity. Qed.

Example float_of_str_exp : Py.float_of_str "-1_0.5e-1" = Ok (-1.05)%float.
Proof. vm_compute. reflexivity. Qed.

Example float_of_str_tiny : Py.float_of_str "5e-324" = Ok 0x1p-1074%float.
Proof. vm_compute. reflexivity. Qed.

Example float_of_str_nan : Py.float_of_str "NaN" = Ok nan.
Proof. vm_compute. reflexivity. Qed.

Example float_of_str_unit : Py.float_of_str "35 mph" = Raise ValueError.
Proof. vm_compute. reflexivity. Qed.

Example int_of_str_50 : Py.int_of_str " +5_0" = Ok 50.
Proof. vm_compute. reflexivity. Qed.

Example int_of_str_frac : Py.int_of_str "50.0" = Raise ValueError.
Proof. vm_compute. reflexivity. Qed.

Example int_of_float_trunc : Py.int_of_float (-2.75)%float = Ok (-2).
Proof. vm_compute. reflexivity. Qed.

(** The two sets of blanks: the file separator (28) ends a word of
    [str.split] but is no blank for [int] and [float]; the no-break space
    (160) is a blank for all three. *)
Example blanks_of_int :
  Py.int_of_str (String (ascii_of_N 160) "50") = Ok 50
  ∧ Py.int_of_str (String "1" (String "2" (String (ascii_of_N 28) "")))
    = Raise ValueError.
Proof. split; vm_compute; reflexivity. Qed.

Example blanks_of_float :
  Py.float_of_str (String (ascii_of_N 160) "50") = Ok 50%float
  ∧ Py.float_of_str (String "1" (String "2" (String (ascii_of_N 28) "")))
    = Raise ValueError.
Proof. split; vm_compute; reflexivity. Qed.

Example blanks_of_split :
  Str.first_word (String "3" (String "5" (String (ascii_of_N 28) "mph")))
  = Ok "35".
Proof. vm_compute. reflexivity. Qed.

(** ** The error monad *)

Lemma bind_Ok {A B} (m : result A) (f : A → result B) (b : B) :
  m ≫= f = Ok b → ∃ a, m = Ok a ∧ f a = Ok b.
Proof. destruct m as [a|e]; [eauto | discriminate]. Qed.

Section result_facts.
Context {A B : Type}.

Lemma mapM_Ok (f : A → result B) (l : list A) (k : list B) :
  mapM f l = Ok k ↔ Forall2 (λ x y, f x = Ok y) l k.
Proof.
  split.
  - revert k. induction l as [|x l IH]; intros k; simpl.
    + intros [= <-]. constructor.
    + intros H. apply bind_Ok in H as (y & Hy & H).
      apply bind_Ok in H as (k' & Hk' & [= <-]).
      constructor; auto.
  - induction 1 as [|x y l k Hxy _ IH]; simpl; [done|].
    rewrite Hxy. simpl. rewrite IH. done.
Qed.

Lemma mapM_Ok_fmap (d : B) (f : A → result B) (l : list A) (k : list B) :
  mapM f l = Ok k →
  k = (λ x, val d (f x)) <$> l ∧ Forall (λ x, is_ok (f x) = true) l.
Proof.
  rewrite mapM_Ok. induction 1 as [|x y l k Hxy _ [-> IH]]; simpl.
  - split; constructor.
  - rewrite Hxy. simpl. split; [done|]. constructor; [by rewrite Hxy | done].
Qed.

Lemma mapM_total (d : B) (f : A → result B) (l : list A) :
  Forall (λ x, is_ok (f x) = true) l →
  mapM f l = Ok ((λ x, val d (f x)) <$> l).
Proof.
  intros H. apply mapM_Ok. induction H as [|x l Hx _ IH]; simpl.
  - constructor.
  - constructor; [|done]. destruct (f x); [done | discriminate].
Qed.
End result_facts.

(** ** Columns as functions of the rows

    Every column the module computes is read off the rows position by
    position.  The lemmas below turn the elementwise operations into one
    function mapped over the rows. *)

Section columns.
Context {A B C D : Type}.

Lemma zip_with_fmap_fmap (f : B → C → D) (g : A → B) (h : A → C) l :
  zip_with f (g <$> l) (h <$> l) = (λ x, f (g x) (h x)) <$> l.
Proof. induction l as [|x l IH]; csimpl; [done | by rewrite IH]. Qed.

Lemma zip_with_self_fmap (f : A → C → D) (h : A → C) l :
  zip_with f l (h <$> l) = (λ x, f x (h x)) <$> l.
Proof. induction l as [|x l IH]; csimpl; [done | by rewrite IH]. Qed.

Lemma replicate_length_fmap (x : B) (l : list A) :
  replicate (length l) x = (λ _, x) <$> l.
Proof. induction l as [|y l IH]; csimpl; [done | by rewrite IH]. Qed.

Lemma take_fmap_fmap (g : A → B) (p : A → bool) l :
  pd.take (g <$> l) (p <$> l) = g <$> List.filter p l.
Proof.
  induction l as [|x l IH]; csimpl; [done|].
  destruct (p x); csimpl; by rewrite IH.
Qed.

Lemma take_self_fmap (p : A → bool) (l : list A) :
  pd.take l (p <$> l) = List.filter p l.
Proof.
  induction l as [|x l IH]; csimpl; [done|].
  destruct (p x); csimpl; by rewrite IH.
Qed.
End columns.

Lemma take_fmap {A B} (g : A → B) (l : list A) (mask : list bool) :
  pd.take (g <$> l) mask = g <$> pd.take l mask.
Proof.
  revert mask. induction l as [|x l IH]; intros [|b mask]; csimpl; try done.
  destruct b; csimpl; by rewrite IH.
Qed.

Lemma take_split {A} (l : list A) (mask : list bool) :
  length mask = length l →
  pd.take l mask ++ pd.take l (negb <$> mask) ≡ₚ l.
Proof.
  revert mask. induction l as [|x l IH]; intros [|b mask]; csimpl; try done.
  intros [= Hlen]. destruct b; csimpl.
  - by rewrite IH.
  - rewrite <- Permutation_middle. by rewrite IH.
Qed.

Lemma has_column_setitem df c vs c' :
  pd.has_column (pd.setitem df c vs) c' =
  pd.has_column df c' || String.eqb c' c.
Proof.
  unfold pd.setitem. simpl. unfold pd.has_column, pd.with_column.
  destruct (existsb (String.eqb c) (columns df)) eqn:Hc.
  - destruct (String.eqb_spec c' c) as [->|Hne].
    + rewrite Hc. by rewrite orb_true_r.
    + by rewrite orb_false_r.
  - simpl. rewrite existsb_app. simpl. by rewrite orb_false_r.
Qed.

Lemma getitem_Ok df c col :
  pd.getitem df c = Ok col →
  pd.has_column df c = true ∧ col = cell c <$> rows df.
Proof.
  unfold pd.getitem. destruct (pd.has_column df c); [|discriminate].
  by intros [= <-].
Qed.

Lemma getitem_has df c :
  pd.has_column df c = true → pd.getitem df c = Ok (cell c <$> rows df).
Proof. unfold pd.getitem. by intros ->. Qed.

Lemma cell_set_cell_eq c r v : cell c (set_cell c r v) = v.
Proof. unfold cell, set_cell. simpl. by rewrite lookup_insert_eq. Qed.

Lemma cell_set_cell_ne c c' r v : c ≠ c' → cell c' (set_cell c r v) = cell c' r.
Proof. intros H. unfold cell, set_cell. simpl. by rewrite lookup_insert_ne. Qed.

Section row_forms.
Context {A : Type} (l : list A).

Lemma eq_rows (f : A → value) s :
  pd.eq (f <$> l) s = (λ r, pd.eq_str s (f r)) <$> l.
Proof. unfold pd.eq. by rewrite <- list_fmap_compose. Qed.

Lemma ne_rows (f : A → value) s :
  pd.ne (f <$> l) s = (λ r, negb (pd.eq_str s (f r))) <$> l.
Proof. unfold pd.ne. by rewrite <- list_fmap_compose. Qed.

Lemma isna_rows (f : A → value) :
  pd.isna (f <$> l) = (λ r, pd.isna_cell (f r)) <$> l.
Proof. unfold pd.isna. by rewrite <- list_fmap_compose. Qed.

Lemma fillna_rows (f : A → value) v :
  pd.fillna (f <$> l) v =
  (λ r, if pd.isna_cell (f r) then v else f r) <$> l.
Proof. unfold pd.fillna. by rewrite <- list_fmap_compose. Qed.

Lemma not_rows (p : A → bool) :
  pd.not_ (p <$> l) = (λ r, negb (p r)) <$> l.
Proof. unfold pd.not_. by rewrite <- list_fmap_compose. Qed.

Lemma and_rows (p q : A → bool) :
  pd.and_ (p <$> l) (q <$> l) = (λ r, p r && q r) <$> l.
Proof. apply zip_with_fmap_fmap. Qed.

Lemma or_rows (p q : A → bool) :
  pd.or_ (p <$> l) (q <$> l) = (λ r, p r || q r) <$> l.
Proof. apply zip_with_fmap_fmap. Qed.

Lemma choice_rows {V} (v : V) (p : A → bool) (g : A → V) :
  zip_with (λ (b : bool) x, if b then v else x) (p <$> l) (g <$> l) =
  (λ r, if p r then v else g r) <$> l.
Proof. apply zip_with_fmap_fmap. Qed.

Lemma strings_rows (g : A → string) :
  strings (g <$> l) = (λ r, Atom (PyStr (g r))) <$> l.
Proof. unfold strings. by rewrite <- list_fmap_compose. Qed.

Lemma ints_rows (g : A → Z) :
  ints (g <$> l) = (λ r, Atom (PyInt (g r))) <$> l.
Proof. unfold ints. by rewrite <- list_fmap_compose. Qed.

Lemma any_eq_rows (f : A → list value) s :
  np.any_axis1 (pd.frame_eq (f <$> l) s) =
  (λ r, existsb (pd.eq_str s) (f r)) <$> l.
Proof.
  unfold np.any_axis1, pd.frame_eq. rewrite <- !list_fmap_compose.
  apply list_fmap_ext. intros _ r _. simpl.
  induction (f r) as [|x xs IH]; csimpl; [done | by rewrite IH].
Qed.

Lemma any_isin_rows (f : A → list value) ids :
  np.any_axis1 (pd.frame_isin (f <$> l) ids) =
  (λ r, existsb (pd.isin_cell ids) (f r)) <$> l.
Proof.
  unfold np.any_axis1, pd.frame_isin. rewrite <- !list_fmap_compose.
  apply list_fmap_ext. intros _ r _. simpl.
  induction (f r) as [|x xs IH]; csimpl; [done | by rewrite IH].
Qed.
End row_forms.

Lemma broadcast_rows {V} df (x : V) :
  np.broadcast df x = (λ _, x) <$> rows df.
Proof. apply replicate_length_fmap. Qed.

Lemma rows_setitem df c (g : Row → value) :
  rows (pd.setitem df c (g <$> rows df)) =
  (λ r, set_cell c r (g r)) <$> rows df.
Proof. apply zip_with_self_fmap. Qed.

Lemma getitem_setitem df c vs :
  pd.getitem (pd.setitem df c vs) c =
  Ok (cell c <$> rows (pd.setitem df c vs)).
Proof.
  apply getitem_has. rewrite has_column_setitem, String.eqb_refl.
  apply orb_true_r.
Qed.

Lemma cell_rows_eq {A} c (h : A → Row) (g : A → value) (l : list A) :
  cell c <$> ((λ r, set_cell c (h r) (g r)) <$> l) = g <$> l.
Proof.
  rewrite <- list_fmap_compose. apply list_fmap_ext. intros _ r _. simpl.
  apply cell_set_cell_eq.
Qed.

Lemma cell_rows_ne {A} c c' (h : A → Row) (g : A → value) (l : list A) :
  c ≠ c' →
  cell c' <$> ((λ r, set_cell c (h r) (g r)) <$> l) = (λ r, cell c' (h r)) <$> l.
Proof.
  intros Hne. rewrite <- list_fmap_compose. apply list_fmap_ext.
  intros _ r _. simpl. by apply cell_set_cell_ne.
Qed.

Lemma getitems_rows df cols :
  pd.getitems df cols = (λ r, (λ c, cell c r) <$> cols) <$> rows df.
Proof. done. Qed.

Ltac rows_form :=
  repeat first
    [ rewrite eq_rows | rewrite ne_rows | rewrite isna_rows
    | rewrite not_rows | rewrite and_rows | rewrite or_rows
    | rewrite broadcast_rows | rewrite choice_rows | rewrite strings_rows
    | rewrite ints_rows | rewrite any_eq_rows | rewrite any_isin_rows
    | rewrite fillna_rows ].

Ltac run := cbn [mbind result_bind mret result_ret Nat.eqb].
Tactic Notation "run" "in" hyp(H) :=
  cbn [mbind result_bind mret result_ret Nat.eqb] in H.

Lemma bind_getitem_Ok {B} df c (f : list value → result B) (b : B) :
  pd.getitem df c ≫= f = Ok b →
  pd.has_column df c = true ∧ f (cell c <$> rows df) = Ok b.
Proof.
  intros H. apply bind_Ok in H as (col & Hcol & H).
  apply getitem_Ok in Hcol as [Hc ->]. done.
Qed.

(** ** The permission filter *)

Lemma biking_permitted_frames df :
  Forall (λ c, pd.has_column df c = true) permission_columns →
  biking_permitted df =
  Ok ({| columns := pd.with_column (columns df) "rule";
         rows := tag_rule permission_rule <$>
                   List.filter permitted (rows df) |},
      {| columns := pd.with_column (columns df) "rule";
         rows := tag_rule permission_rule <$>
                   List.filter (λ r, negb (permitted r)) (rows df) |}).
Proof.
  intros H. repeat (apply Forall_cons in H as [? H]).
  unfold biking_permitted.
  rewrite !getitem_has by done. run.
  unfold np.select. simpl length. run. simpl np.select_go.
  rows_form.
  rewrite getitem_setitem. run.
  rewrite (rows_setitem df), cell_rows_eq. rows_form.
  unfold pd.loc. rewrite (rows_setitem df), !take_fmap_fmap. done.
Qed.

Lemma biking_permitted_rows df :
  Forall (λ c, pd.has_column df c = true) permission_columns →
  ∃ a b, biking_permitted df = Ok (a, b)
    ∧ rows a = tag_rule permission_rule <$> List.filter permitted (rows df)
    ∧ rows b = tag_rule permission_rule <$>
                 List.filter (λ r, negb (permitted r)) (rows df).
Proof. intros H. rewrite biking_permitted_frames by done. by eexists _, _. Qed.

Lemma biking_permitted_Ok df a b :
  biking_permitted df = Ok (a, b) →
  Forall (λ c, pd.has_column df c = true) permission_columns.
Proof.
  unfold biking_permitted. intros H.
  repeat (apply bind_getitem_Ok in H as [? H]).
  repeat constructor; done.
Qed.

(** C1.  On a frame that has the four columns it reads, the permission
    filter returns: the allowed part holds exactly the edges whose first
    true predicate in the order p2, p6, p3, p4, p7, p5 is none (rule p0),
    the other part the remaining edges, and every edge carries in [rule]
    the id of its first true predicate.  In particular an edge with
    bicycle = no on a motorway is refused under p2, not p3. *)
Theorem biking_permitted_priority df :
  Forall (λ c, pd.has_column df c = true) permission_columns →
  ∃ a b, biking_permitted df = Ok (a, b)
    ∧ rows a = tag_rule permission_rule <$> List.filter permitted (rows df)
    ∧ rows b = tag_rule permission_rule <$>
                 List.filter (λ r, negb (permitted r)) (rows df)
    ∧ ∀ r, r ∈ rows df →
        cell "bicycle" r = Atom (PyStr "no") →
        cell "highway" r = Atom (PyStr "motorway") →
        tag_rule permission_rule r ∈ rows b
        ∧ cell "rule" (tag_rule permission_rule r) = Atom (PyStr "p2").
Proof.
  intros H. destruct (biking_permitted_rows df H) as (a & b & Hab & Ha & Hb).
  exists a, b. split; [done|]. split; [done|]. split; [done|].
  intros r Hr Hbic Hhw.
  assert (permission_rule r = "p2") as Hrule
    by (unfold permission_rule; by rewrite Hbic).
  split.
  - rewrite Hb. apply list_elem_of_fmap_2.
    apply list_elem_of_In, filter_In. split; [by apply list_elem_of_In|].
    unfold permitted. by rewrite Hrule.
  - unfold tag_rule. rewrite cell_set_cell_eq. by rewrite Hrule.
Qed.

Lemma biking_permitted_priority_witness :
  ∃ a b, biking_permitted example_edges = Ok (a, b)
    ∧ rows a = tag_rule permission_rule <$>
                 List.filter permitted (rows example_edges)
    ∧ rows b = tag_rule permission_rule <$>
                 List.filter (λ r, negb (permitted r)) (rows example_edges)
    ∧ ∀ r, r ∈ rows example_edges →
        cell "bicycle" r = Atom (PyStr "no") →
        cell "highway" r = Atom (PyStr "motorway") →
        tag_rule permission_rule r ∈ rows b
        ∧ cell "rule" (tag_rule permission_rule r) = Atom (PyStr "p2").
Proof.
  apply (biking_permitted_priority example_edges).
  repeat constructor.
Defined.

(** ** Every classifier splits its input *)

Lemma same_edge_refl r : same_edge r r.
Proof. by split. Qed.

Lemma same_edge_set_rule r v : same_edge r (set_cell "rule" r v).
Proof.
  split; [done|]. intros c Hc. simpl. by rewrite lookup_insert_ne.
Qed.

Lemma same_edge_drop_rule r v :
  same_edge r
    {| label := label (set_cell "rule" r v);
       cells := delete "rule" (cells (set_cell "rule" r v)) |}.
Proof.
  split; [done|]. intros c Hc. simpl.
  rewrite lookup_delete_ne by done. by rewrite lookup_insert_ne.
Qed.

Lemma Forall2_fmap_same {A B} (R : A → B → Prop) (g : A → B) (l : list A) :
  (∀ x, R x (g x)) → Forall2 R l (g <$> l).
Proof. intros H. induction l; csimpl; constructor; auto. Qed.

(** The two filters on a predicate and on its negation split the rows. *)
Lemma splits_filter (p : Row → bool) (g g' : Row → Row) l :
  (∀ r, same_edge r (g r)) → (∀ r, same_edge r (g' r)) →
  splits l (g <$> List.filter p l)
    (g' <$> List.filter (λ r, negb (p r)) l).
Proof.
  intros Hg Hg'. exists (p <$> l). split; [by rewrite length_fmap|].
  rewrite <- list_fmap_compose, !take_self_fmap.
  split; by apply Forall2_fmap_same.
Qed.

Lemma same_edge_labels a b :
  Forall2 same_edge a b → label <$> a = label <$> b.
Proof. induction 1 as [|x y a b [H _] _ IH]; csimpl; [done | by rewrite H, IH]. Qed.

Lemma take_elem_of {A} (l : list A) (mask : list bool) x :
  x ∈ pd.take l mask ↔ ∃ i, l !! i = Some x ∧ mask !! i = Some true.
Proof.
  revert mask. induction l as [|y l IH]; intros [|b mask]; simpl.
  - split; [by intros ?%elem_of_nil | by intros (i & ? & ?)].
  - split; [by intros ?%elem_of_nil | by intros (i & ? & ?)].
  - split; [by intros ?%elem_of_nil | by intros (i & ? & ?)].
  - destruct b.
    + rewrite elem_of_cons, IH. split.
      * intros [->|(i & ? & ?)]; [by exists 0%nat | by exists (S i)].
      * intros ([|i] & Hl & Hm); simpl in *; [left; congruence|].
        right. eauto.
    + rewrite IH. split.
      * intros (i & ? & ?). by exists (S i).
      * intros ([|i] & Hl & Hm); simpl in *; [congruence | eauto].
Qed.

Lemma splits_labels l a b :
  splits l a b →
  (label <$> a) ++ (label <$> b) ≡ₚ label <$> l
  ∧ (NoDup (label <$> l) →
     ∀ i, i ∈ label <$> a → i ∈ label <$> b → False).
Proof.
  intros (mask & Hlen & Ha & Hb).
  rewrite <- (same_edge_labels _ _ Ha), <- (same_edge_labels _ _ Hb).
  rewrite <- !take_fmap. split.
  - apply take_split. by rewrite length_fmap.
  - intros Hnd i [j [Hj Hm]]%take_elem_of [j' [Hj' Hm']]%take_elem_of.
    assert (j = j') as <- by (eapply NoDup_lookup; eauto).
    rewrite list_lookup_fmap, Hm in Hm'. discriminate.
Qed.

Lemma biking_permitted_splits df a b :
  biking_permitted df = Ok (a, b) → splits (rows df) (rows a) (rows b).
Proof.
  intros H.
  destruct (biking_permitted_rows df (biking_permitted_Ok _ _ _ H))
    as (a' & b' & H' & Ha & Hb).
  rewrite H in H'. injection H' as <- <-. rewrite Ha, Hb.
  apply splits_filter; intros r; apply same_edge_set_rule.
Qed.

Lemma has_column_loc df mask c :
  pd.has_column (pd.loc df mask) c = pd.has_column df c.
Proof. done. Qed.

Lemma drop_has df c :
  pd.has_column df c = true →
  pd.drop df c =
  Ok {| columns := List.filter (λ k, negb (String.eqb c k)) (columns df);
        rows := (λ r, {| label := label r; cells := delete c (cells r) |})
                  <$> rows df |}.
Proof. unfold pd.drop. by intros ->. Qed.

Lemma is_separated_path_frames df :
  pd.has_column df "highway" = true → pd.has_column df "footway" = true →
  let cw := pd.columns_containing df "cycleway" in
  is_separated_path df =
  Ok ({| columns := pd.with_column (columns df) "rule";
         rows := tag_rule (separation_rule cw) <$>
                   List.filter (separated cw) (rows df) |},
      {| columns := List.filter (λ k, negb (String.eqb "rule" k))
                      (pd.with_column (columns df) "rule");
         rows := (λ r, untag_rule (tag_rule (separation_rule cw) r)) <$>
                   List.filter (λ r, negb (separated cw r)) (rows df) |}).
Proof.
  intros Hh Hf cw. unfold is_separated_path.
  rewrite !getitem_has by done. run.
  unfold np.select. simpl length. run. simpl np.select_go.
  rewrite !getitems_rows. rows_form.
  rewrite getitem_setitem. run.
  rewrite (rows_setitem df), cell_rows_eq. rows_form.
  rewrite drop_has
    by (rewrite has_column_loc, has_column_setitem; apply orb_true_r).
  run. unfold pd.loc. cbn [rows columns].
  rewrite (rows_setitem df), !take_fmap_fmap.
  rewrite <- list_fmap_compose. do 3 f_equal.
  change (?f ∘ ?g <$> ?l = ?h <$> ?l') with ((λ r, f (g r)) <$> l = h <$> l').
  f_equal. apply filter_ext. intros r. unfold separated.
  by rewrite negb_involutive.
Qed.

Lemma is_separated_path_rows df :
  pd.has_column df "highway" = true → pd.has_column df "footway" = true →
  let cw := pd.columns_containing df "cycleway" in
  ∃ a b, is_separated_path df = Ok (a, b)
    ∧ rows a = tag_rule (separation_rule cw) <$>
                 List.filter (separated cw) (rows df)
    ∧ rows b = (λ r, untag_rule (tag_rule (separation_rule cw) r)) <$>
                 List.filter (λ r, negb (separated cw r)) (rows df).
Proof.
  intros Hh Hf cw. rewrite is_separated_path_frames by done. by eexists _, _.
Qed.

Lemma is_separated_path_Ok df a b :
  is_separated_path df = Ok (a, b) →
  pd.has_column df "highway" = true ∧ pd.has_column df "footway" = true.
Proof.
  unfold is_separated_path. intros H.
  apply bind_getitem_Ok in H as [? H]. apply bind_getitem_Ok in H as [? H].
  done.
Qed.

Lemma same_edge_untag r v : same_edge r (untag_rule (set_cell "rule" r v)).
Proof. apply same_edge_drop_rule. Qed.

Lemma is_separated_path_splits df a b :
  is_separated_path df = Ok (a, b) → splits (rows df) (rows a) (rows b).
Proof.
  intros H. destruct (is_separated_path_Ok _ _ _ H) as [Hh Hf].
  destruct (is_separated_path_rows df Hh Hf) as (a' & b' & H' & Ha & Hb).
  rewrite H in H'. injection H' as <- <-. rewrite Ha, Hb.
  apply splits_filter; intros r;
    [apply same_edge_set_rule | apply same_edge_untag].
Qed.

Lemma is_bike_lane_rows df :
  let cw := pd.columns_containing df "cycleway" in
  let sh := pd.has_column df "shoulder:access:bicycle" in
  is_bike_lane df =
  Ok ({| columns := columns df;
         rows := List.filter (has_lane cw sh) (rows df) |},
      {| columns := columns df;
         rows := List.filter (λ r, negb (has_lane cw sh r)) (rows df) |}).
Proof.
  intros cw sh. unfold is_bike_lane, has_lane. fold sh.
  destruct sh eqn:Hsh.
  - rewrite getitem_has by done. run.
    rewrite !getitems_rows. rows_form. unfold pd.loc.
    by rewrite !take_self_fmap.
  - run. rewrite !getitems_rows. rows_form. unfold pd.loc.
    rewrite !take_self_fmap.
    f_equal. f_equal; (f_equal; apply filter_ext; intros r; simpl;
                       by rewrite orb_false_r).
Qed.

Lemma parking_present_rows df :
  let pk := pd.columns_containing df "parking" in
  parking_present df =
  Ok ({| columns := columns df;
         rows := List.filter (has_parking pk) (rows df) |},
      {| columns := columns df;
         rows := List.filter (λ r, negb (has_parking pk r)) (rows df) |}).
Proof.
  intros pk. unfold parking_present, has_parking.
  rewrite !getitems_rows. rows_form. unfold pd.loc.
  by rewrite !take_self_fmap.
Qed.

Lemma splits_filter_id (p : Row → bool) l :
  splits l (List.filter p l) (List.filter (λ r, negb (p r)) l).
Proof.
  rewrite <- (list_fmap_id (List.filter p l)).
  rewrite <- (list_fmap_id (List.filter (λ r, negb (p r)) l)).
  apply splits_filter; intros r; apply same_edge_refl.
Qed.

(** C2.  Whenever one of the four classifiers returns, its two outputs
    split the input: a mask over the input rows sends every row to
    exactly one output, unchanged but for the [rule] column; the labels of
    the two outputs together are a rearrangement of the input labels (no
    edge dropped, none duplicated), and when the input labels are
    distinct no label occurs in both outputs. *)
Theorem classifier_outputs_partition k df a b :
  classify k df = Ok (a, b) →
  splits (rows df) (rows a) (rows b)
  ∧ labels a ++ labels b ≡ₚ labels df
  ∧ (NoDup (labels df) → ∀ i, i ∈ labels a → i ∈ labels b → False).
Proof.
  intros H.
  assert (splits (rows df) (rows a) (rows b)) as Hs.
  { destruct k; simpl in H.
    - by apply biking_permitted_splits.
    - by apply is_separated_path_splits.
    - rewrite is_bike_lane_rows in H. injection H as <- <-.
      apply splits_filter_id.
    - rewrite parking_present_rows in H. injection H as <- <-.
      apply splits_filter_id. }
  split; [done|]. by apply splits_labels.
Qed.

Lemma classifier_outputs_partition_witness :
  ∃ a b, classify Permission example_edges = Ok (a, b)
    ∧ splits (rows example_edges) (rows a) (rows b)
    ∧ labels a ++ labels b ≡ₚ labels example_edges
    ∧ (NoDup (labels example_edges) →
       ∀ i, i ∈ labels a → i ∈ labels b → False).
Proof.
  eexists _, _. split; [reflexivity|].
  apply (classifier_outputs_partition Permission example_edges).
  reflexivity.
Defined.

(** ** The normalizers *)

Lemma mapM_fmap {A B C} (g : B → result C) (f : A → B) (l : list A) :
  mapM g (f <$> l) = mapM (λ x, g (f x)) l.
Proof. induction l as [|x l IH]; [done|]. simpl. by rewrite <- IH. Qed.

Lemma int_max_ok x :
  is_ok (int_max x) = true ↔
  is_ok (np.array_int x) = true
  ∧ is_ok (np.max (val [] (np.array_int x))) = true.
Proof.
  unfold int_max. destruct (np.array_int x) as [a|]; simpl; [|by split; [|intros [? _]]].
  destruct (np.max a); simpl; by split; [|intros [_ ?]].
Qed.

Lemma int_max_val x :
  is_ok (np.array_int x) = true →
  val 0 (np.max (val [] (np.array_int x))) = val 0 (int_max x).
Proof. unfold int_max. by destruct (np.array_int x). Qed.

Lemma apply_int_max {A B} (f : A → value) (l : list A)
  (k : list Z → result B) (b : B) :
  (pd.apply np.array_int (f <$> l) ≫=
     λ arrays, pd.apply np.max arrays ≫= k) = Ok b ↔
  Forall (λ r, is_ok (int_max (f r)) = true) l
  ∧ k ((λ r, val 0 (int_max (f r))) <$> l) = Ok b.
Proof.
  unfold pd.apply. rewrite mapM_fmap. split.
  - intros H. apply bind_Ok in H as (arrays & Ha & H).
    apply (mapM_Ok_fmap []) in Ha as [-> Ha].
    rewrite mapM_fmap in H. apply bind_Ok in H as (largest & Hl & H).
    apply (mapM_Ok_fmap 0) in Hl as [-> Hl].
    assert (Forall (λ r, is_ok (int_max (f r)) = true) l) as Hok.
    { rewrite Forall_forall in *. intros r Hr. apply int_max_ok. auto. }
    split; [done|]. rewrite <- H. f_equal.
    apply list_fmap_ext. intros i r Hr. symmetry. apply int_max_val.
    rewrite Forall_forall in Ha. apply Ha. by eapply list_elem_of_lookup_2.
  - intros [Hok H].
    assert (Forall (λ r, is_ok (np.array_int (f r)) = true) l) as Ha.
    { rewrite Forall_forall in *. intros r Hr. by apply int_max_ok, Hok. }
    rewrite (mapM_total [] _ _ Ha). run. rewrite mapM_fmap.
    assert (Forall
      (λ r, is_ok (np.max (val [] (np.array_int (f r)))) = true) l) as Hl.
    { rewrite Forall_forall in *. intros r Hr. by apply int_max_ok, Hok. }
    rewrite (mapM_total 0 _ _ Hl). run. rewrite <- H. f_equal.
    apply list_fmap_ext. intros i r Hr. apply int_max_val.
    rewrite Forall_forall in Ha. apply Ha. by eapply list_elem_of_lookup_2.
Qed.

Lemma get_lanes_spec df d df' :
  get_lanes df d = Ok df' ↔
  pd.has_column df "lanes" = true
  ∧ Forall (λ r, is_ok (lanes_assumed_of d r) = true) (rows df)
  ∧ df' = pd.setitem df "lanes_assumed"
            ((λ r, Atom (PyInt (val 0 (lanes_assumed_of d r)))) <$> rows df).
Proof.
  unfold get_lanes, pd.getitem.
  destruct (pd.has_column df "lanes"); run; [|by split; [|intros [? _]]].
  rows_form. rewrite apply_int_max. rows_form.
  unfold lanes_assumed_of. split.
  - intros [? [= <-]]. done.
  - intros (_ & ? & ->). done.
Qed.

Lemma get_max_speed_spec df national local motorway primary secondary df' :
  get_max_speed df national local motorway primary secondary = Ok df' ↔
  pd.has_column df "maxspeed" = true
  ∧ pd.has_column df "highway" = true
  ∧ Forall (λ r, is_ok (maxspeed_assumed_of national local motorway primary
                          secondary r) = true) (rows df)
  ∧ df' = pd.setitem
            (pd.setitem df "maxspeed_assumed"
               (maxspeed_choice national local motorway primary secondary
                  <$> rows df))
            "maxspeed_assumed"
            ((λ r, Atom (PyInt (val 0 (maxspeed_assumed_of national local
                                         motorway primary secondary r))))
               <$> rows df).
Proof.
  unfold get_max_speed, pd.getitem.
  destruct (pd.has_column df "maxspeed"); run;
    [|by split; [|intros [? _]]].
  destruct (pd.has_column df "highway"); run;
    [|by split; [|intros (_ & ? & _)]].
  unfold np.select. simpl length. run. simpl np.select_go.
  rows_form.
  rewrite has_column_setitem, String.eqb_refl, orb_true_r. run.
  rewrite (rows_setitem df), cell_rows_eq.
  rewrite apply_int_max. rows_form.
  unfold maxspeed_assumed_of, maxspeed_choice. split.
  - intros [? [= <-]]. done.
  - intros (_ & _ & ? & ->). done.
Qed.

Lemma rows_setitem_twice df c (g h : Row → value) :
  rows (pd.setitem (pd.setitem df c (g <$> rows df)) c (h <$> rows df)) =
  (λ r, set_cell c r (h r)) <$> rows df.
Proof.
  unfold pd.setitem at 1. cbn [rows]. rewrite (rows_setitem df).
  rewrite zip_with_fmap_fmap. apply list_fmap_ext. intros _ r _.
  unfold set_cell. simpl. by rewrite insert_insert_eq.
Qed.

(** ** Comparisons of a column with a number *)

Lemma mapM_pure {A B} (f : A → result B) (g : A → B) (l : list A) :
  (∀ x, f x = Ok (g x)) → mapM f l = Ok (g <$> l).
Proof.
  intros H. apply mapM_Ok. induction l; csimpl; constructor; auto.
Qed.

Section int_columns.
Context {A : Type} (g : A → Z) (l : list A) (k : Z).

Lemma col_le_ints :
  col_le ((λ r, Atom (PyInt (g r))) <$> l) (PyInt k) =
  Ok ((λ r, g r <=? k) <$> l).
Proof.
  unfold col_le, pd.apply. rewrite mapM_fmap. apply mapM_pure.
  intros r. unfold Cmp.le, Cmp.holds. simpl. unfold Z.leb.
  by destruct (g r ?= k).
Qed.

Lemma col_lt_ints :
  col_lt ((λ r, Atom (PyInt (g r))) <$> l) (PyInt k) =
  Ok ((λ r, g r <? k) <$> l).
Proof.
  unfold col_lt, pd.apply. rewrite mapM_fmap. apply mapM_pure.
  intros r. unfold Cmp.lt, Cmp.holds. simpl. unfold Z.ltb.
  by destruct (g r ?= k).
Qed.

Lemma col_ge_ints :
  col_ge ((λ r, Atom (PyInt (g r))) <$> l) (PyInt k) =
  Ok ((λ r, k <=? g r) <$> l).
Proof.
  unfold col_ge, pd.apply. rewrite mapM_fmap. apply mapM_pure.
  intros r. unfold Cmp.ge, Cmp.holds. simpl. unfold Z.leb.
  rewrite (Z.compare_antisym (g r) k). by destruct (g r ?= k).
Qed.

Lemma col_gt_ints :
  col_gt ((λ r, Atom (PyInt (g r))) <$> l) (PyInt k) =
  Ok ((λ r, k <? g r) <$> l).
Proof.
  unfold col_gt, pd.apply. rewrite mapM_fmap. apply mapM_pure.
  intros r. unfold Cmp.gt, Cmp.holds. simpl. unfold Z.ltb.
  rewrite (Z.compare_antisym (g r) k). by destruct (g r ?= k).
Qed.
End int_columns.

Lemma le_float_number x c :
  Cmp.le x (PyFloat c) =
  if is_number x then Ok (num_le x c) else Raise TypeError.
Proof.
  unfold num_le. destruct x as [[| | |]|]; try done.
Qed.

Lemma col_le_float {A} (w : A → value) (l : list A) (c : float) :
  col_le (w <$> l) (PyFloat c) =
  if forallb (λ r, is_number (w r)) l
  then Ok ((λ r, num_le (w r) c) <$> l)
  else Raise TypeError.
Proof.
  unfold col_le, pd.apply. rewrite mapM_fmap.
  induction l as [|r l IH]; [done|]. simpl.
  rewrite le_float_number. destruct (is_number (w r)); [|done].
  simpl. rewrite IH. by destruct (forallb _ l).
Qed.

Lemma map_dict_rows {A} (d : gmap string Z) (g : A → string) (h : A → Z)
  (l : list A) :
  (∀ r, d !! g r = Some (h r)) →
  pd.map_dict d ((λ r, Atom (PyStr (g r))) <$> l) =
  (λ r, Atom (PyInt (h r))) <$> l.
Proof.
  intros H. unfold pd.map_dict. rewrite <- list_fmap_compose.
  assert (forallb (λ o : option Z, bool_decide (is_Some o))
            ((λ r, d !! g r) <$> l) = true) as Hall.
  { induction l as [|r l IH]; [done|]. csimpl. rewrite IH, H. done. }
  change ((λ x : value, match x with
                        | Atom (PyStr s) => d !! s
                        | _ => None
                        end) ∘ (λ r, Atom (PyStr (g r))))
    with (λ r, d !! g r).
  rewrite Hall, <- list_fmap_compose. apply list_fmap_ext.
  intros _ r _. simpl. by rewrite H.
Qed.

(** ** The common prologue of the scorers *)

Lemma cell_set_other c c' r v :
  String.eqb c c' = false → cell c' (set_cell c r v) = cell c' r.
Proof. intros H. apply cell_set_cell_ne. intros ->. by rewrite String.eqb_refl in H. Qed.

Lemma maxspeed_choice_lanes n l m p s r v :
  maxspeed_choice n l m p s (set_cell "lanes_assumed" r v) =
  maxspeed_choice n l m p s r.
Proof. unfold maxspeed_choice. by rewrite !cell_set_other. Qed.

Lemma rows_resolved_frame df :
  rows (resolved_frame df) = resolved <$> rows df.
Proof.
  unfold resolved_frame, pd.setitem at 1 2. cbn [rows].
  rewrite (rows_setitem df), !zip_with_fmap_fmap. apply list_fmap_ext.
  intros _ r _. unfold resolved, set_cell. simpl.
  by rewrite insert_insert_eq.
Qed.

Lemma has_column_resolved_frame df c :
  pd.has_column (resolved_frame df) c =
  pd.has_column df c || String.eqb c "lanes_assumed"
  || String.eqb c "maxspeed_assumed".
Proof.
  unfold resolved_frame. rewrite !has_column_setitem.
  by destruct (pd.has_column df c), (String.eqb c "lanes_assumed"),
       (String.eqb c "maxspeed_assumed").
Qed.

Lemma resolve_eval {B} df (k : DataFrame → result B) :
  resolvable df = true →
  (get_lanes df 2 ≫= λ d, get_max_speed d 40 50 100 80 80 ≫= k) =
  k (resolved_frame df).
Proof.
  unfold resolvable. rewrite !andb_true_iff, forallb_forall.
  intros [[[Hl Hm] Hh] Hok].
    assert (∀ r, maxspeed_assumed_of 40 50 100 80 80
                   (set_cell "lanes_assumed" r
                      (Atom (PyInt (val 0 (lanes_of r))))) =
                 speed_of r) as Hsp.
    { intros r. unfold speed_of, maxspeed_assumed_of.
      by rewrite maxspeed_choice_lanes. }
    assert (get_lanes df 2 = Ok (pd.setitem df "lanes_assumed"
              ((λ r, Atom (PyInt (val 0 (lanes_of r)))) <$> rows df))) as ->.
    { apply get_lanes_spec. repeat split; try done.
      apply Forall_forall. intros r Hr%list_elem_of_In.
      by apply Hok, andb_true_iff in Hr as [? _]. }
    run.
    match goal with
    | |- get_max_speed ?d _ _ _ _ _ ≫= _ = _ =>
        assert (get_max_speed d 40 50 100 80 80 = Ok (resolved_frame df))
          as ->; [|done]
    end.
    apply get_max_speed_spec. rewrite !has_column_setitem, Hm, Hh.
    repeat split; try done.
    + rewrite (rows_setitem df), Forall_fmap. apply Forall_forall.
      intros r Hr%list_elem_of_In. simpl. rewrite Hsp.
      by apply Hok, andb_true_iff in Hr as [_ ?].
    + unfold resolved_frame. rewrite (rows_setitem df).
      rewrite <- !list_fmap_compose. f_equal.
      * f_equal. apply list_fmap_ext. intros _ r _. simpl.
        by rewrite maxspeed_choice_lanes.
      * apply list_fmap_ext. intros _ r _. simpl. by rewrite Hsp.
Qed.

Lemma resolve_bind {B} df (k : DataFrame → result B) (b : B) :
  (get_lanes df 2 ≫= λ d, get_max_speed d 40 50 100 80 80 ≫= k) = Ok b ↔
  resolvable df = true ∧ k (resolved_frame df) = Ok b.
Proof.
  split.
  - intros H. unfold resolvable. rewrite !andb_true_iff, forallb_forall.
    apply bind_Ok in H as (d1 & H1 & H).
    apply bind_Ok in H as (d2 & H2 & H).
    apply get_lanes_spec in H1 as (Hl & Hok1 & ->).
    apply get_max_speed_spec in H2 as (Hm & Hh & Hok2 & ->).
    rewrite has_column_setitem in Hm, Hh. simpl in Hm, Hh.
    rewrite orb_false_r in Hm, Hh.
    rewrite (rows_setitem df) in Hok2, H.
    rewrite Forall_forall in Hok1. rewrite Forall_fmap, Forall_forall in Hok2.
    assert (∀ r, maxspeed_assumed_of 40 50 100 80 80
                   (set_cell "lanes_assumed" r
                      (Atom (PyInt (val 0 (lanes_assumed_of 2 r))))) =
                 speed_of r) as Hsp.
    { intros r. unfold speed_of, maxspeed_assumed_of.
      by rewrite maxspeed_choice_lanes. }
    split.
    + repeat split; try done. intros r Hr%list_elem_of_In.
      apply andb_true_iff. split; [by apply Hok1|].
      rewrite <- Hsp. by apply Hok2.
    + rewrite <- H. f_equal. unfold resolved_frame.
      rewrite <- !list_fmap_compose. f_equal.
      * f_equal. apply list_fmap_ext. intros _ r _. simpl.
        by rewrite maxspeed_choice_lanes.
      * apply list_fmap_ext. intros _ r _. simpl. by rewrite Hsp.
  - intros [Hres H]. by rewrite resolve_eval.
Qed.

(** ** The lane-with-parking scorer *)

Lemma cell_resolved_lanes r :
  cell "lanes_assumed" (resolved r) = Atom (PyInt (val 0 (lanes_of r))).
Proof.
  unfold resolved. rewrite cell_set_other by done. apply cell_set_cell_eq.
Qed.

Lemma cell_resolved_speed r :
  cell "maxspeed_assumed" (resolved r) = Atom (PyInt (val 0 (speed_of r))).
Proof. apply cell_set_cell_eq. Qed.

Lemma cell_resolved_other c r :
  String.eqb "lanes_assumed" c = false →
  String.eqb "maxspeed_assumed" c = false →
  cell c (resolved r) = cell c r.
Proof. intros H1 H2. unfold resolved. by rewrite !cell_set_other. Qed.

Lemma col_resolved_lanes (l : list Row) :
  cell "lanes_assumed" <$> (resolved <$> l) =
  (λ r, Atom (PyInt (val 0 (lanes_of r)))) <$> l.
Proof.
  rewrite <- list_fmap_compose. apply list_fmap_ext. intros _ r _.
  apply cell_resolved_lanes.
Qed.

Lemma col_resolved_speed (l : list Row) :
  cell "maxspeed_assumed" <$> (resolved <$> l) =
  (λ r, Atom (PyInt (val 0 (speed_of r)))) <$> l.
Proof.
  rewrite <- list_fmap_compose. apply list_fmap_ext. intros _ r _.
  apply cell_resolved_speed.
Qed.

Lemma col_resolved_other c (l : list Row) :
  String.eqb "lanes_assumed" c = false →
  String.eqb "maxspeed_assumed" c = false →
  cell c <$> (resolved <$> l) = cell c <$> l.
Proof.
  intros H1 H2. rewrite <- list_fmap_compose. apply list_fmap_ext.
  intros _ r _. by apply cell_resolved_other.
Qed.

Lemma broadcast_resolved {V} df (x : V) :
  np.broadcast (resolved_frame df) x = (λ _, x) <$> rows df.
Proof.
  rewrite broadcast_rows, rows_resolved_frame. by rewrite <- list_fmap_compose.
Qed.

Lemma resolvable_highway df :
  resolvable df = true → pd.has_column df "highway" = true.
Proof. unfold resolvable. rewrite !andb_true_iff. tauto. Qed.

Ltac resolved_columns :=
  rewrite ?col_resolved_lanes, ?col_resolved_speed,
    ?col_resolved_other by done.

Lemma rows_setitem_over {A} df c (h : A → Row) (g : A → value) (l : list A) :
  rows df = h <$> l →
  rows (pd.setitem df c (g <$> l)) = (λ r, set_cell c (h r) (g r)) <$> l.
Proof. intros H. unfold pd.setitem. cbn [rows]. rewrite H. apply zip_with_fmap_fmap. Qed.

Lemma with_parking_pointwise la ms w hw :
  let rule :=
    if (3 <=? la) && (ms <=? 55) then "b2"
    else if num_le w 4.1 then "b3"
    else if num_le w 4.25 then "b4"
    else if num_le w 4.5 && ((ms <=? 40) && pd.eq_str "residential" hw)
         then "b5"
    else if (40 <? ms) && (ms <=? 50) then "b6"
    else if (50 <? ms) && (ms <=? 55) then "b7"
    else if 55 <? ms then "b8"
    else if negb (pd.eq_str "residential" hw) then "b9"
    else "b1" in
  rule = fst (with_parking_table la ms w hw)
  ∧ rule_dict_with_parking !! rule = Some (snd (with_parking_table la ms w hw)).
Proof.
  unfold with_parking_table. rewrite andb_assoc. cbv zeta.
  repeat match goal with
         | |- context [if ?c then _ else _] => destruct c
         end; split; reflexivity.
Qed.

Lemma with_parking_eval df :
  resolvable df = true →
  bike_lane_analysis_with_parking df =
  if pd.has_column df "width" then
    if forallb (λ r, is_number (cell "width" r)) (rows df) then
      Ok (pd.setitem
            (pd.setitem (resolved_frame df) "rule"
               ((λ r, Atom (PyStr (fst (with_parking_score r)))) <$> rows df))
            "lts"
            ((λ r, Atom (PyInt (snd (with_parking_score r)))) <$> rows df))
    else Raise TypeError
  else Raise (KeyError "width").
Proof.
  intros Hres. unfold bike_lane_analysis_with_parking.
  rewrite resolve_eval by done. unfold pd.getitem.
  rewrite !has_column_resolved_frame, (resolvable_highway df Hres).
  cbn [String.eqb Ascii.eqb Bool.eqb]. rewrite !orb_false_r, !orb_true_r. run.
  destruct (pd.has_column df "width"); [|done]. run.
  rewrite broadcast_resolved, rows_resolved_frame. resolved_columns.
  rows_form.
  rewrite !col_le_ints, !col_ge_ints, !col_gt_ints, !col_le_float.
  destruct (forallb (λ r, is_number (cell "width" r)) (rows df)); [|done].
  unfold sequence, and_r. cbn [mapM]. cbn [mbind result_bind mret result_ret id].
  rows_form.
  unfold np.select. simpl length. run. simpl np.select_go.
  rows_form.
  rewrite has_column_setitem, orb_true_r. run.
  rewrite (rows_setitem_over _ _ resolved _ _ (rows_resolved_frame df)).
  rewrite cell_rows_eq.
  rewrite (map_dict_rows _ _ (λ r, snd (with_parking_score r)))
    by (intros r; apply with_parking_pointwise).
  do 3 f_equal. apply list_fmap_ext. intros _ r _. do 2 f_equal.
  apply with_parking_pointwise.
Qed.

Lemma Forall2_fmap_in {A B} (R : A → B → Prop) (g : A → B) (l : list A) :
  (∀ x, x ∈ l → R x (g x)) → Forall2 R l (g <$> l).
Proof.
  induction l as [|x l IH]; intros H; csimpl; constructor.
  - apply H. by left.
  - apply IH. intros y Hy. apply H. by right.
Qed.

Lemma is_ok_val {A} (d : A) (m : result A) : is_ok m = true → m = Ok (val d m).
Proof. by destruct m. Qed.

Lemma resolvable_row df r :
  resolvable df = true → r ∈ rows df →
  lanes_of r = Ok (val 0 (lanes_of r)) ∧ speed_of r = Ok (val 0 (speed_of r)).
Proof.
  unfold resolvable. rewrite !andb_true_iff, forallb_forall.
  intros [_ H] Hr%list_elem_of_In. apply H, andb_true_iff in Hr as [? ?].
  split; by apply is_ok_val.
Qed.

Lemma rows_scored df (g : Row → string) (h : Row → Z) :
  rows (pd.setitem
          (pd.setitem (resolved_frame df) "rule"
             ((λ r, Atom (PyStr (g r))) <$> rows df))
          "lts" ((λ r, Atom (PyInt (h r))) <$> rows df)) =
  (λ r, scored r (g r) (h r)) <$> rows df.
Proof.
  erewrite (rows_setitem_over _ "lts"); [done|].
  by rewrite (rows_setitem_over _ _ resolved _ _ (rows_resolved_frame df)).
Qed.

Lemma with_parking_spec df df' :
  bike_lane_analysis_with_parking df = Ok df' ↔
  scorable_with_parking df = true
  ∧ df' = pd.setitem
            (pd.setitem (resolved_frame df) "rule"
               ((λ r, Atom (PyStr (fst (with_parking_score r)))) <$> rows df))
            "lts"
            ((λ r, Atom (PyInt (snd (with_parking_score r)))) <$> rows df).
Proof.
  unfold scorable_with_parking. split.
  - intros H. assert (resolvable df = true) as Hres.
    { unfold bike_lane_analysis_with_parking in H.
      by apply resolve_bind in H as [? _]. }
    rewrite with_parking_eval in H by done. rewrite Hres.
    destruct (pd.has_column df "width"); [|discriminate].
    destruct (forallb _ (rows df)); [|discriminate].
    by injection H as <-.
  - rewrite !andb_true_iff. intros [[[Hres Hw] Hn] ->].
    by rewrite with_parking_eval, Hw, Hn.
Qed.



(** ** The mixed-traffic scorer *)

(** The sixteen rules leave no integer speed and lane count unmatched. *)
Lemma mixed_table_total la ms mv hw fw sv :
  ∃ z, snd (mixed_table la ms mv hw fw sv) = Some z ∧ 1 ≤ z ≤ 4.
Proof.
  unfold mixed_table.
  repeat match goal with
         | |- context [if ?c then _ else _] => destruct c eqn:?
         end;
    try (eexists; split; [reflexivity | lia]).
  exfalso.
  repeat match goal with
         | H : _ && _ = false |- _ => apply andb_false_iff in H
         end.
  rewrite ?Z.leb_gt, ?Z.ltb_ge in *. lia.
Qed.

Lemma mixed_pointwise la ms mv hw fw sv :
  let rule :=
    if pd.eq_str "no" mv then "m17"
    else if pd.eq_str "pedestrian" hw then "m13"
    else if pd.eq_str "footway" hw && pd.eq_str "crossing" fw then "m14"
    else if pd.eq_str "service" hw && pd.eq_str "alley" sv then "m2"
    else if pd.eq_str "track" hw then "m15"
    else if (ms <=? 50) && pd.eq_str "service" hw
            && pd.eq_str "parking_aisle" sv then "m3"
    else if (ms <=? 50) && pd.eq_str "service" hw
            && pd.eq_str "driveway" sv then "m4"
    else if (ms <=? 35) && pd.eq_str "service" hw then "m16"
    else if (ms <=? 40) && (la <=? 3) && pd.eq_str "residential" hw
         then "m5"
    else if (ms <=? 40) && (la <=? 3) then "m6"
    else if (ms <=? 40) && (la <=? 5) then "m7"
    else if (ms <=? 40) && (5 <? la) then "m8"
    else if (ms <=? 50) && (la <? 3) && pd.eq_str "residential" hw
         then "m9"
    else if (ms <=? 50) && (la <=? 3) then "m10"
    else if (ms <=? 50) && (3 <? la) then "m11"
    else if 50 <? ms then "m12"
    else "m0" in
  rule = fst (mixed_table la ms mv hw fw sv)
  ∧ rule_dict_mixed !! rule = snd (mixed_table la ms mv hw fw sv).
Proof.
  unfold mixed_table. cbv zeta.
  repeat match goal with
         | |- context [if ?c then _ else _] => destruct c
         end; split; reflexivity.
Qed.

Lemma mixed_eval df :
  resolvable df = true →
  mixed_traffic df =
  if pd.has_column df "motor_vehicle" then
    if pd.has_column df "footway" then
      if pd.has_column df "service" then
        Ok (pd.setitem
              (pd.setitem (resolved_frame df) "rule"
                 ((λ r, Atom (PyStr (fst (mixed_score r)))) <$> rows df))
              "lts"
              ((λ r, Atom (PyInt (default 0 (snd (mixed_score r)))))
                 <$> rows df))
      else Raise (KeyError "service")
    else Raise (KeyError "footway")
  else Raise (KeyError "motor_vehicle").
Proof.
  intros Hres. unfold mixed_traffic.
  rewrite resolve_eval by done. unfold pd.getitem.
  rewrite !has_column_resolved_frame, (resolvable_highway df Hres).
  cbn [String.eqb Ascii.eqb Bool.eqb]. rewrite !orb_false_r, !orb_true_r.
  destruct (pd.has_column df "motor_vehicle"); [|done]. run.
  destruct (pd.has_column df "footway"); [|done]. run.
  destruct (pd.has_column df "service"); [|done]. run.
  rewrite broadcast_resolved, rows_resolved_frame. resolved_columns.
  rows_form.
  rewrite !col_le_ints, !col_lt_ints, !col_gt_ints.
  unfold sequence, and_r. cbn [mapM]. cbn [mbind result_bind mret result_ret id].
  rows_form.
  unfold np.select. simpl length. run. simpl np.select_go.
  rows_form.
  rewrite has_column_setitem, orb_true_r. run.
  rewrite (rows_setitem_over _ _ resolved _ _ (rows_resolved_frame df)).
  rewrite cell_rows_eq.
  rewrite (map_dict_rows _ _ (λ r, default 0 (snd (mixed_score r)))).
  2:{ intros r. unfold mixed_score.
      destruct (mixed_table_total (val 0 (lanes_of r)) (val 0 (speed_of r))
                  (cell "motor_vehicle" r) (cell "highway" r)
                  (cell "footway" r) (cell "service" r)) as (z & Hz & _).
      rewrite Hz. simpl. rewrite <- Hz. apply mixed_pointwise. }
  do 3 f_equal. apply list_fmap_ext. intros _ r _. do 2 f_equal.
  apply mixed_pointwise.
Qed.

Lemma mixed_spec df df' :
  mixed_traffic df = Ok df' ↔
  scorable_mixed df = true
  ∧ df' = pd.setitem
            (pd.setitem (resolved_frame df) "rule"
               ((λ r, Atom (PyStr (fst (mixed_score r)))) <$> rows df))
            "lts"
            ((λ r, Atom (PyInt (default 0 (snd (mixed_score r)))))
               <$> rows df).
Proof.
  unfold scorable_mixed. split.
  - intros H. assert (resolvable df = true) as Hres.
    { unfold mixed_traffic in H. by apply resolve_bind in H as [? _]. }
    rewrite mixed_eval in H by done. rewrite Hres.
    destruct (pd.has_column df "motor_vehicle"); [|discriminate].
    destruct (pd.has_column df "footway"); [|discriminate].
    destruct (pd.has_column df "service"); [|discriminate].
    by injection H as <-.
  - rewrite !andb_true_iff. intros [[[[Hres Hm] Hf] Hs] ->].
    by rewrite mixed_eval, Hm, Hf, Hs.
Qed.

(** ** The lane-without-parking scorer *)

Lemma rows_coerced_frame df : rows (coerced_frame df) = coerced <$> rows df.
Proof.
  unfold coerced_frame.
  by rewrite (rows_setitem_over _ _ resolved _ _ (rows_resolved_frame df)).
Qed.

Lemma has_column_coerced_frame df c :
  pd.has_column (coerced_frame df) c =
  pd.has_column df c || String.eqb c "lanes_assumed"
  || String.eqb c "maxspeed_assumed" || String.eqb c "width".
Proof.
  unfold coerced_frame. by rewrite has_column_setitem, has_column_resolved_frame.
Qed.

Lemma col_coerced_lanes (l : list Row) :
  cell "lanes_assumed" <$> (coerced <$> l) =
  (λ r, Atom (PyInt (val 0 (lanes_of r)))) <$> l.
Proof.
  rewrite <- list_fmap_compose. apply list_fmap_ext. intros _ r _. simpl.
  unfold coerced. rewrite cell_set_other by done. apply cell_resolved_lanes.
Qed.

Lemma col_coerced_speed (l : list Row) :
  cell "maxspeed_assumed" <$> (coerced <$> l) =
  (λ r, Atom (PyInt (val 0 (speed_of r)))) <$> l.
Proof.
  rewrite <- list_fmap_compose. apply list_fmap_ext. intros _ r _. simpl.
  unfold coerced. rewrite cell_set_other by done. apply cell_resolved_speed.
Qed.

Lemma col_coerced_width (l : list Row) :
  cell "width" <$> (coerced <$> l) =
  (λ r, coerce_width (cell "width" r)) <$> l.
Proof.
  rewrite <- list_fmap_compose. apply list_fmap_ext. intros _ r _.
  apply cell_set_cell_eq.
Qed.

Lemma col_coerced_highway (l : list Row) :
  cell "highway" <$> (coerced <$> l) = cell "highway" <$> l.
Proof.
  rewrite <- list_fmap_compose. apply list_fmap_ext. intros _ r _. simpl.
  unfold coerced. rewrite cell_set_other by done.
  by apply cell_resolved_other.
Qed.

Lemma no_parking_pointwise la ms w hw :
  let rule :=
    if (3 <=? la) && (ms <=? 65) then "c3"
    else if Py.isinstance_float w && num_le w 1.7 then "c4"
    else if (50 <? ms) && (ms <=? 65) then "c5"
    else if 65 <? ms then "c6"
    else if negb (pd.eq_str "residential" hw) then "c7"
    else "c1" in
  rule = fst (no_parking_table la ms w hw)
  ∧ rule_dict_no_parking !! rule = Some (snd (no_parking_table la ms w hw)).
Proof.
  unfold no_parking_table. cbv zeta.
  repeat match goal with
         | |- context [if ?c then _ else _] => destruct c
         end; split; reflexivity.
Qed.

Lemma no_parking_eval df :
  resolvable df = true →
  bike_lane_analysis_no_parking df =
  if pd.has_column df "width" then
    if forallb (λ r, is_number (coerce_width (cell "width" r))) (rows df) then
      Ok (pd.setitem
            (pd.setitem (coerced_frame df) "rule"
               ((λ r, Atom (PyStr (fst (no_parking_score r)))) <$> rows df))
            "lts"
            ((λ r, Atom (PyInt (snd (no_parking_score r)))) <$> rows df))
    else Raise TypeError
  else Raise (KeyError "width").
Proof.
  intros Hres. unfold bike_lane_analysis_no_parking.
  rewrite resolve_eval by done.
  destruct (pd.has_column df "width") eqn:Hw.
  2:{ unfold pd.getitem. by rewrite has_column_resolved_frame, Hw. }
  rewrite getitem_has by (by rewrite has_column_resolved_frame, Hw).
  run. rewrite rows_resolved_frame. resolved_columns.
  rewrite <- (list_fmap_compose (cell "width")).
  change (pd.setitem (resolved_frame df) "width"
            ((λ x, if Py.isinstance_str x then NaN else x) ∘ cell "width"
               <$> rows df)) with (coerced_frame df).
  unfold pd.getitem.
  rewrite !has_column_coerced_frame, (resolvable_highway df Hres), Hw.
  cbn [String.eqb Ascii.eqb Bool.eqb orb]. rewrite ?orb_true_r. run.
  simpl (_ || _). run.
  rewrite broadcast_rows, !rows_coerced_frame.
  rewrite col_coerced_lanes, col_coerced_speed, !col_coerced_width,
    !col_coerced_highway.
  rewrite <- (list_fmap_compose coerced). rows_form.
  rewrite <- (list_fmap_compose _ Py.isinstance_float).
  rewrite !col_le_ints, !col_ge_ints, !col_gt_ints, !col_le_float.
  destruct (forallb _ (rows df)); [|done].
  unfold sequence, and_r. cbn [mapM]. cbn [mbind result_bind mret result_ret id].
  rows_form.
  unfold np.select. simpl length. run. simpl np.select_go.
  rows_form.
  rewrite has_column_setitem, orb_true_r. run.
  rewrite (rows_setitem_over _ _ coerced _ _ (rows_coerced_frame df)).
  rewrite cell_rows_eq.
  rewrite (map_dict_rows _ _ (λ r, snd (no_parking_score r)))
    by (intros r; apply no_parking_pointwise).
  do 3 f_equal. apply list_fmap_ext. intros _ r _. do 2 f_equal.
  apply no_parking_pointwise.
Qed.

Lemma no_parking_spec df df' :
  bike_lane_analysis_no_parking df = Ok df' ↔
  scorable_no_parking df = true
  ∧ df' = pd.setitem
            (pd.setitem (coerced_frame df) "rule"
               ((λ r, Atom (PyStr (fst (no_parking_score r)))) <$> rows df))
            "lts"
            ((λ r, Atom (PyInt (snd (no_parking_score r)))) <$> rows df).
Proof.
  unfold scorable_no_parking. split.
  - intros H. assert (resolvable df = true) as Hres.
    { unfold bike_lane_analysis_no_parking in H.
      by apply resolve_bind in H as [? _]. }
    rewrite no_parking_eval in H by done. rewrite Hres.
    destruct (pd.has_column df "width"); [|discriminate].
    destruct (forallb _ (rows df)); [|discriminate].
    by injection H as <-.
  - rewrite !andb_true_iff. intros [[[Hres Hw] Hn] ->].
    by rewrite no_parking_eval, Hw, Hn.
Qed.

(** ** No scored edge is left without a score *)

Lemma with_parking_table_scored la ms w hw :
  let t := with_parking_table la ms w hw in
  rule_dict_with_parking !! fst t = Some (snd t) ∧ 1 ≤ snd t ≤ 4.
Proof.
  cbv zeta. destruct (with_parking_pointwise la ms w hw) as [<- ->].
  split; [done|]. unfold with_parking_table.
  repeat match goal with
         | |- context [if ?c then _ else _] => destruct c
         end; simpl; lia.
Qed.

Lemma no_parking_table_scored la ms w hw :
  let t := no_parking_table la ms w hw in
  rule_dict_no_parking !! fst t = Some (snd t) ∧ 1 ≤ snd t ≤ 4.
Proof.
  cbv zeta. destruct (no_parking_pointwise la ms w hw) as [<- ->].
  split; [done|]. unfold no_parking_table.
  repeat match goal with
         | |- context [if ?c then _ else _] => destruct c
         end; simpl; lia.
Qed.

Lemma mixed_table_scored la ms mv hw fw sv :
  let t := mixed_table la ms mv hw fw sv in
  ∃ z, rule_dict_mixed !! fst t = Some z ∧ snd t = Some z ∧ 1 ≤ z ≤ 4.
Proof.
  cbv zeta. destruct (mixed_table_total la ms mv hw fw sv) as (z & Hz & Hb).
  exists z. destruct (mixed_pointwise la ms mv hw fw sv) as [<- ->]. done.
Qed.

Lemma cell_scored_rule r0 rule lts :
  cell "rule" (set_cell "lts" (set_cell "rule" r0 (Atom (PyStr rule)))
                 (Atom (PyInt lts))) = Atom (PyStr rule).
Proof. by rewrite cell_set_other, cell_set_cell_eq. Qed.

Lemma cell_scored_lts r0 rule lts :
  cell "lts" (set_cell "lts" (set_cell "rule" r0 (Atom (PyStr rule)))
                (Atom (PyInt lts))) = Atom (PyInt lts).
Proof. by rewrite cell_set_cell_eq. Qed.

(** C5, as the code has it.  Whenever a scoring procedure returns, every
    row of its output carries a rule id that the procedure's dictionary
    maps to an integer between 1 and 4, and that integer is the row's
    [lts]: no scored edge has a missing score.  The defaults b1 and c1
    are in their dictionaries. *)
Theorem scored_edges_have_lts s df df' :
  score s df = Ok df' →
  Forall
    (λ r', ∃ rule z,
       cell "rule" r' = Atom (PyStr rule)
       ∧ rule_dict s !! rule = Some z
       ∧ cell "lts" r' = Atom (PyInt z)
       ∧ 1 ≤ z ≤ 4)
    (rows df')
  ∧ rule_dict WithParking !! default_rule WithParking = Some 1
  ∧ rule_dict NoParking !! default_rule NoParking = Some 1.
Proof.
  intros H. split; [|done]. destruct s; simpl in H.
  - apply with_parking_spec in H as [_ ->]. rewrite rows_scored.
    apply Forall_fmap, Forall_forall. intros r _. cbn beta.
    destruct (with_parking_table_scored (val 0 (lanes_of r))
                (val 0 (speed_of r)) (cell "width" r) (cell "highway" r))
      as [Hd Hb].
    exists (fst (with_parking_score r)), (snd (with_parking_score r)).
    unfold scored, compose. rewrite cell_scored_rule, cell_scored_lts.
    split; [done|]. split; [exact Hd|]. split; [done | exact Hb].
  - apply no_parking_spec in H as [_ ->].
    erewrite (rows_setitem_over _ "lts");
      [|by rewrite (rows_setitem_over _ _ coerced _ _ (rows_coerced_frame df))].
    apply Forall_fmap, Forall_forall. intros r _. cbn beta.
    destruct (no_parking_table_scored (val 0 (lanes_of r))
                (val 0 (speed_of r)) (coerce_width (cell "width" r))
                (cell "highway" r)) as [Hd Hb].
    exists (fst (no_parking_score r)), (snd (no_parking_score r)).
    unfold compose. rewrite cell_scored_rule, cell_scored_lts.
    split; [done|]. split; [exact Hd|]. split; [done | exact Hb].
  - apply mixed_spec in H as [_ ->]. rewrite rows_scored.
    apply Forall_fmap, Forall_forall. intros r _. cbn beta.
    destruct (mixed_table_scored (val 0 (lanes_of r)) (val 0 (speed_of r))
                (cell "motor_vehicle" r) (cell "highway" r)
                (cell "footway" r) (cell "service" r))
      as (z & Hd & Hs & Hb).
    exists (fst (mixed_score r)), z. unfold scored, compose.
    rewrite cell_scored_rule, cell_scored_lts.
    unfold mixed_score. rewrite Hs.
    split; [done|]. split; [exact Hd|]. split; [done | exact Hb].
Qed.

Lemma scored_edges_have_lts_witness :
  ∃ df', score MixedTraffic example_edges = Ok df'
    ∧ Forall
        (λ r', ∃ rule z,
           cell "rule" r' = Atom (PyStr rule)
           ∧ rule_dict MixedTraffic !! rule = Some z
           ∧ cell "lts" r' = Atom (PyInt z)
           ∧ 1 ≤ z ≤ 4)
        (rows df')
    ∧ rule_dict WithParking !! default_rule WithParking = Some 1
    ∧ rule_dict NoParking !! default_rule NoParking = Some 1.
Proof.
  eexists. split; [reflexivity|].
  apply (scored_edges_have_lts MixedTraffic example_edges). reflexivity.
Defined.

(** C5, as the specification states it, fails: the mixed-traffic scorer
    names a default rule id, m0, that its dictionary does not map, so that
    [map] would turn it into NaN. *)
Lemma mixed_default_has_no_score :
  ¬ (∀ s, is_Some (rule_dict s !! default_rule s))
  ∧ pd.map_dict (rule_dict MixedTraffic)
      [Atom (PyStr (default_rule MixedTraffic))] = [NaN].
Proof.
  split; [|reflexivity].
  intros H. destruct (H MixedTraffic) as [z Hz]. discriminate.
Qed.

(** ** The end-to-end scenario *)

Lemma isna_eq_str s x : pd.isna_cell x = true → pd.eq_str s x = false.
Proof. by destruct x as [[| | |]|]. Qed.

Lemma isna_isin ids x : pd.isna_cell x = true → pd.isin_cell ids x = false.
Proof.
  intros H. unfold pd.isin_cell. induction ids as [|s ids IH]; [done|].
  simpl. by rewrite isna_eq_str.
Qed.

Lemma agree_refl r : agree r r.
Proof. by split. Qed.

Lemma agree_trans r1 r2 r3 : agree r1 r2 → agree r2 r3 → agree r1 r3.
Proof.
  intros [Hl1 H1] [Hl2 H2]. split; [congruence|].
  intros c Hc. by rewrite H2, H1.
Qed.

Lemma agree_tag f r : agree r (tag_rule f r).
Proof.
  split; [done|]. intros c Hc. unfold tag_rule. by apply cell_set_cell_ne.
Qed.

Lemma agree_untag r : agree r (untag_rule r).
Proof.
  split; [done|]. intros c Hc. unfold untag_rule, cell. simpl.
  by rewrite lookup_delete_ne.
Qed.

Lemma plain_residential_agree r r' :
  agree r r' → plain_residential r → plain_residential r'.
Proof.
  intros [_ H] (Hh & Hm & Hc). unfold plain_residential, missing in *.
  split; [by rewrite H|]. split.
  - repeat (apply Forall_cons in Hm as [? Hm]).
    repeat constructor; by rewrite H.
  - intros c Hcw. rewrite H; [by apply Hc|].
    intros ->. vm_compute in Hcw. discriminate.
Qed.

Section scenario.
Context (r : Row) (Hr : plain_residential r).

Lemma scenario_eq_str s c :
  c ∈ ["bicycle"; "access"; "footway"; "motor_vehicle"; "service";
       "maxspeed"; "lanes"; "shoulder:access:bicycle"] →
  pd.eq_str s (cell c r) = false.
Proof.
  intros Hc. apply isna_eq_str. pose proof Hr as (_ & Hm & _).
  rewrite Forall_forall in Hm. by apply Hm.
Qed.

Ltac scenario_cells :=
  repeat match goal with
         | |- context [pd.eq_str ?s (cell ?c r)] =>
             rewrite (scenario_eq_str s c) by set_solver
         end.

Lemma scenario_permission : permission_rule r = "p0".
Proof.
  unfold permission_rule. scenario_cells.
  pose proof Hr as (-> & _ & _). done.
Qed.

Lemma scenario_family (p : value → bool) cw :
  (∀ x, pd.isna_cell x = true → p x = false) →
  Forall (λ c, Str.contains "cycleway" c = true) cw →
  existsb p (family_cells cw r) = false.
Proof.
  intros Hp Hcw. pose proof Hr as (_ & _ & Hc). unfold family_cells.
  induction Hcw as [|c cw Hcy _ IH]; [done|]. csimpl.
  rewrite Hp by (by apply Hc). done.
Qed.

Lemma scenario_separation cw :
  Forall (λ c, Str.contains "cycleway" c = true) cw →
  separation_rule cw r = "s0".
Proof.
  intros Hcw. unfold separation_rule.
  rewrite !scenario_family by (done || apply isna_eq_str).
  pose proof Hr as (-> & _ & _). done.
Qed.

Lemma scenario_no_lane cw sh :
  Forall (λ c, Str.contains "cycleway" c = true) cw →
  has_lane cw sh r = false.
Proof.
  intros Hcw. unfold has_lane.
  rewrite scenario_family by (done || apply isna_isin).
  scenario_cells. by destruct sh.
Qed.

Lemma scenario_lanes : lanes_of r = Ok 2.
Proof.
  unfold lanes_of, lanes_assumed_of. pose proof Hr as (_ & Hm & _).
  rewrite Forall_forall in Hm. unfold missing in Hm.
  rewrite (Hm "lanes") by set_solver. reflexivity.
Qed.

Lemma scenario_speed : speed_of r = Ok 50.
Proof.
  unfold speed_of, maxspeed_assumed_of, maxspeed_choice.
  scenario_cells.
  pose proof Hr as (-> & Hm & _).
  rewrite Forall_forall in Hm. unfold missing in Hm.
  rewrite (Hm "maxspeed") by set_solver. reflexivity.
Qed.

Lemma scenario_mixed : mixed_score r = ("m9", Some 2).
Proof.
  unfold mixed_score, mixed_table. rewrite scenario_lanes, scenario_speed.
  scenario_cells.
  pose proof Hr as (-> & _ & _). reflexivity.
Qed.
End scenario.
Lemma has_with_column cols c c' :
  existsb (String.eqb c') (pd.with_column cols c) =
  existsb (String.eqb c') cols || String.eqb c' c.
Proof.
  unfold pd.with_column. destruct (existsb (String.eqb c) cols) eqn:Hc.
  - destruct (String.eqb_spec c' c) as [->|Hne].
    + rewrite Hc. by rewrite orb_true_r.
    + by rewrite orb_false_r.
  - rewrite existsb_app. simpl. by rewrite orb_false_r.
Qed.

Lemma has_filter_ne cols c c' :
  String.eqb c c' = false →
  existsb (String.eqb c') (List.filter (λ k, negb (String.eqb c k)) cols) =
  existsb (String.eqb c') cols.
Proof.
  intros Hne. induction cols as [|k cols IH]; [done|]. simpl.
  destruct (String.eqb_spec c k) as [->|Hk]; simpl.
  - rewrite IH. rewrite String.eqb_sym in Hne. by rewrite Hne.
  - by rewrite IH.
Qed.

Lemma columns_containing_all df sub :
  Forall (λ c, Str.contains sub c = true) (pd.columns_containing df sub).
Proof.
  apply Forall_forall. intros c Hc%list_elem_of_In.
  by apply filter_In in Hc as [_ ?].
Qed.

(** C3.  A frame with the columns the route reads and one edge, a
    residential street with no other tag: the permission filter allows it
    under p0, the separation classifier leaves it unseparated under s0,
    the lane classifier finds no lane, and the mixed-traffic scorer
    resolves speed 50 and two lanes, matches m9 and scores 2. *)
Theorem residential_default_scenario (cols : list string) (r : Row) :
  Forall (λ c, existsb (String.eqb c) cols = true) scenario_columns →
  plain_residential r →
  ∃ allowed refused separated roadway lane no_lane out r1 r2 r3,
    biking_permitted {| columns := cols; rows := [r] |}
      = Ok (allowed, refused)
    ∧ rows allowed = [r1] ∧ rows refused = []
    ∧ cell "rule" r1 = Atom (PyStr "p0")
    ∧ is_separated_path allowed = Ok (separated, roadway)
    ∧ rows separated = [] ∧ rows roadway = [r2]
    ∧ separation_rule (pd.columns_containing allowed "cycleway") r1 = "s0"
    ∧ is_bike_lane roadway = Ok (lane, no_lane)
    ∧ rows lane = [] ∧ rows no_lane = [r2]
    ∧ mixed_traffic no_lane = Ok out
    ∧ rows out = [r3] ∧ label r3 = label r
    ∧ cell "maxspeed_assumed" r3 = Atom (PyInt 50)
    ∧ cell "lanes_assumed" r3 = Atom (PyInt 2)
    ∧ cell "rule" r3 = Atom (PyStr "m9")
    ∧ cell "lts" r3 = Atom (PyInt 2).
Proof.
  intros Hcols Hr.
  set (df := {| columns := cols; rows := [r] |}).
  set (r1 := tag_rule permission_rule r).
  set (allowed := {| columns := pd.with_column cols "rule"; rows := [r1] |}).
  set (cw := pd.columns_containing allowed "cycleway").
  set (r2 := untag_rule (tag_rule (separation_rule cw) r1)).
  set (roadway :=
         {| columns := List.filter (λ k, negb (String.eqb "rule" k))
                         (pd.with_column (columns allowed) "rule");
            rows := [r2] |}).
  assert (plain_residential r1) as Hr1
    by (eapply plain_residential_agree; [apply agree_tag | done]).
  assert (plain_residential r2) as Hr2.
  { eapply plain_residential_agree; [|exact Hr1].
    eapply agree_trans; [apply agree_tag | apply agree_untag]. }
  assert (∀ c, c ∈ scenario_columns → existsb (String.eqb c) cols = true)
    as Hdf.
  { intros c Hc. rewrite Forall_forall in Hcols. by apply Hcols. }
  assert (∀ c, c ∈ scenario_columns → pd.has_column allowed c = true) as Hal.
  { intros c Hc. unfold pd.has_column, allowed. cbn [columns].
    rewrite has_with_column. by rewrite (Hdf c Hc). }
  assert (∀ c, c ∈ scenario_columns → pd.has_column roadway c = true) as Hro.
  { intros c Hc. unfold pd.has_column, roadway. cbn [columns].
    rewrite has_filter_ne, has_with_column.
    - pose proof (Hal c Hc) as Hc'. unfold pd.has_column in Hc'.
      by rewrite Hc'.
    - set_unfold in Hc. by destruct_or!; subst. }
  assert (biking_permitted df =
          Ok (allowed, {| columns := pd.with_column cols "rule";
                          rows := [] |})) as H1.
  { rewrite biking_permitted_frames
      by (repeat constructor; apply Hdf; set_solver).
    unfold df. cbn [rows List.filter]. unfold permitted.
    by rewrite (scenario_permission r Hr). }
  assert (separation_rule cw r1 = "s0") as Hs0
    by (apply scenario_separation; [done | apply columns_containing_all]).
  assert (is_separated_path allowed =
          Ok ({| columns := pd.with_column (columns allowed) "rule";
                 rows := [] |}, roadway)) as H2.
  { rewrite is_separated_path_frames by (apply Hal; set_solver).
    fold cw. unfold allowed at 2 4. cbn [rows List.filter].
    unfold separated. by rewrite Hs0. }
  assert (is_bike_lane roadway =
          Ok ({| columns := columns roadway; rows := [] |},
              {| columns := columns roadway; rows := [r2] |})) as H3.
  { rewrite is_bike_lane_rows. unfold roadway at 4 8.
    cbn [rows List.filter].
    by rewrite (scenario_no_lane r2 Hr2)
      by apply columns_containing_all. }
  set (no_lane := {| columns := columns roadway; rows := [r2] |}).
  assert (resolvable no_lane = true) as Hres.
  { unfold resolvable.
    change (pd.has_column no_lane) with (pd.has_column roadway).
    rewrite !Hro by set_solver. unfold no_lane. cbn [rows forallb].
    by rewrite (scenario_lanes r2 Hr2), (scenario_speed r2 Hr2). }
  assert (mixed_traffic no_lane =
          Ok (pd.setitem
                (pd.setitem (resolved_frame no_lane) "rule"
                   ((λ x, Atom (PyStr (fst (mixed_score x)))) <$> rows no_lane))
                "lts"
                ((λ x, Atom (PyInt (default 0 (snd (mixed_score x)))))
                   <$> rows no_lane))) as H4.
  { rewrite mixed_eval by done.
    change (pd.has_column no_lane) with (pd.has_column roadway).
    by rewrite !Hro by set_solver. }
  eexists allowed, _, _, roadway, _, no_lane, _, r1, r2, _.
  split; [exact H1|]. split; [done|]. split; [done|].
  split; [unfold r1, tag_rule;
          by rewrite cell_set_cell_eq, (scenario_permission r Hr)|].
  split; [exact H2|]. split; [done|]. split; [done|]. split; [exact Hs0|].
  split; [exact H3|]. split; [done|]. split; [done|].
  split; [exact H4|]. rewrite rows_scored.
  change (rows no_lane) with [r2]. cbn [fmap list_fmap].
  rewrite (scenario_mixed r2 Hr2). cbn [fst snd default from_option id].
  split; [reflexivity|]. unfold scored.
  split; [done|]. split; [|split; [|split]].
  - rewrite !cell_set_other by done.
    by rewrite cell_resolved_speed, (scenario_speed r2 Hr2).
  - rewrite !cell_set_other by done.
    by rewrite cell_resolved_lanes, (scenario_lanes r2 Hr2).
  - apply cell_scored_rule.
  - apply cell_scored_lts.
Qed.
Lemma residential_default_scenario_witness :
  ∃ allowed refused separated roadway lane no_lane out r1 r2 r3,
    biking_permitted
      {| columns := example_columns; rows := [residential_street] |}
      = Ok (allowed, refused)
    ∧ rows allowed = [r1] ∧ rows refused = []
    ∧ cell "rule" r1 = Atom (PyStr "p0")
    ∧ is_separated_path allowed = Ok (separated, roadway)
    ∧ rows separated = [] ∧ rows roadway = [r2]
    ∧ separation_rule (pd.columns_containing allowed "cycleway") r1 = "s0"
    ∧ is_bike_lane roadway = Ok (lane, no_lane)
    ∧ rows lane = [] ∧ rows no_lane = [r2]
    ∧ mixed_traffic no_lane = Ok out
    ∧ rows out = [r3] ∧ label r3 = label residential_street
    ∧ cell "maxspeed_assumed" r3 = Atom (PyInt 50)
    ∧ cell "lanes_assumed" r3 = Atom (PyInt 2)
    ∧ cell "rule" r3 = Atom (PyStr "m9")
    ∧ cell "lts" r3 = Atom (PyInt 2).
Proof.
  apply (residential_default_scenario example_columns residential_street).
  - repeat constructor.
  - split; [reflexivity|]. split; [repeat constructor|].
    intros c Hc. unfold missing, cell, residential_street, edge. simpl.
    rewrite lookup_insert_ne; [reflexivity|].
    intros <-. vm_compute in Hc. discriminate.
Defined.

(** ** The exceptions of the text parsers *)

Lemma float_of_str_error s e :
  Py.float_of_str s = Raise e → e = ValueError.
Proof.
  unfold Py.float_of_str. repeat case_match; congruence.
Qed.

Lemma first_word_error s e : Str.first_word s = Raise e → e = IndexError.
Proof. unfold Str.first_word. repeat case_match; congruence. Qed.

(** ** The US speed resolver *)

(** C8.  The US resolver never returns: once the two columns it reads
    are found, building the list of values looks up the name
    [resdidential], which no scope binds. *)
Theorem get_max_speed_us_never_returns df motorway primary secondary
  tertiary residential :
  get_max_speed_us df motorway primary secondary tertiary residential =
  if pd.has_column df "maxspeed" then
    if pd.has_column df "highway" then Raise (NameError "resdidential")
    else Raise (KeyError "highway")
  else Raise (KeyError "maxspeed").
Proof.
  unfold get_max_speed_us, pd.getitem.
  destruct (pd.has_column df "maxspeed"); [|done]. run.
  destruct (pd.has_column df "highway"); [|done]. run.
  reflexivity.
Qed.

Example get_max_speed_us_residential :
  get_max_speed_us us_edges 80 60 35 35 25 = Raise (NameError "resdidential").
Proof. vm_compute. reflexivity. Qed.

(** With the name put right the call would still fail: [np.select] is
    given six conditions and five values. *)
Lemma select_six_conditions_five_values {A}
  (c1 c2 c3 c4 c5 c6 : list bool) (v1 v2 v3 v4 v5 : A) (d : list A) :
  np.select [c1; c2; c3; c4; c5; c6] [v1; v2; v3; v4; v5] d
  = Raise ValueError.
Proof. reflexivity. Qed.

(** ** Integer casts of text *)

Lemma lstrip_by_keeps blank l c :
  In c l → blank c = false → In c (Str.lstrip_by blank l).
Proof.
  induction l as [|x l IH]; [done|]. simpl. intros [->|Hc] Hs.
  - rewrite Hs. by left.
  - destruct (blank x); [by apply IH | by right].
Qed.

Lemma lstrip_keeps l c :
  In c l → Str.is_space c = false → In c (Str.lstrip l).
Proof. apply lstrip_by_keeps. Qed.

Lemma strip_keeps l c :
  In c l → Str.is_blank c = false → In c (Str.strip l).
Proof.
  intros Hc Hs. unfold Str.strip. apply in_rev.
  rewrite rev_involutive. apply lstrip_by_keeps; [|done].
  apply in_rev. rewrite rev_involutive. by apply lstrip_by_keeps.
Qed.

Lemma sign_keeps l c :
  In c l → Ascii.eqb c "+" = false → Ascii.eqb c "-" = false →
  In c (snd (Str.sign l)).
Proof.
  intros Hc Hp Hm. unfold Str.sign.
  destruct l as [|x l]; [done|].
  destruct (Ascii.eqb_spec x "-") as [->|]; simpl.
  { destruct Hc as [<-|]; [by rewrite Ascii.eqb_refl in Hm | done]. }
  destruct (Ascii.eqb_spec x "+") as [->|]; simpl.
  { destruct Hc as [<-|]; [by rewrite Ascii.eqb_refl in Hp | done]. }
  repeat case_match; subst; simpl; try done.
Qed.

Lemma drop_underscores_keeps prev l l' c :
  Str.drop_underscores prev l = Some l' →
  In c l → Ascii.eqb c "_" = false → In c l'.
Proof.
  revert prev l'. induction l as [|x l IH]; intros prev l' H Hc Hu; [done|].
  simpl in H. destruct (Ascii.eqb x "_") eqn:Hx.
  - destruct (Str.is_digit prev); [|discriminate].
    destruct Hc as [->|Hc]; [congruence|]. by eapply IH.
  - destruct (Ascii.eqb prev "_" && negb (Str.is_digit x)); [discriminate|].
    destruct (Str.drop_underscores x l) as [l0|] eqn:Hl; [|discriminate].
    injection H as <-. destruct Hc as [->|Hc]; [by left|].
    right. by eapply IH.
Qed.

Lemma int_of_str_error s e : Py.int_of_str s = Raise e → e = ValueError.
Proof. unfold Py.int_of_str. repeat case_match; congruence. Qed.

(** A character that [int] accepts nowhere makes the cast fail. *)
Lemma int_of_str_rejects s c :
  In c (list_ascii_of_string s) → int_char c = false →
  Py.int_of_str s = Raise ValueError.
Proof.
  intros Hc Hi. unfold int_char in Hi.
  apply orb_false_iff in Hi as [Hi Hun]. apply orb_false_iff in Hi as [Hi Hmi].
  apply orb_false_iff in Hi as [Hi Hpl]. apply orb_false_iff in Hi as [Hi Hdg].
  destruct (Py.int_of_str s) as [z|e] eqn:Hz;
    [|by rewrite (int_of_str_error _ _ Hz)].
  exfalso. unfold Py.int_of_str in Hz.
  pose proof (sign_keeps _ c (strip_keeps _ c Hc Hi) Hpl Hmi) as Hs.
  destruct (Str.sign (Str.strip (list_ascii_of_string s))) as [neg r].
  simpl in Hs.
  destruct (Str.drop_underscores Py.NUL r) as [[|x d]|] eqn:Hd;
    try discriminate.
  destruct (forallb Str.is_digit (x :: d)) eqn:Hf; [|discriminate].
  rewrite forallb_forall in Hf.
  assert (In c (x :: d)) as Hin by (eapply drop_underscores_keeps; eauto).
  apply Hf in Hin. congruence.
Qed.

Lemma contains_head a n s :
  Str.contains (String a n) s = true → In a (list_ascii_of_string s).
Proof.
  induction s as [|b s IH]; simpl; [done|].
  destruct (ascii_dec a b) as [->|Hne].
  - intros _. by left.
  - simpl. intros H. right. by apply IH.
Qed.

Lemma unit_suffix_rejected s :
  Str.contains "mph" s = true ∨ Str.contains "knots" s = true →
  Py.int_of_str s = Raise ValueError.
Proof.
  intros [H|H]; apply contains_head in H;
    eapply int_of_str_rejects; eauto.
Qed.
(** ** The generic speed resolver and text with a unit *)

Lemma scorer_resolvable sc df df' : score sc df = Ok df' → resolvable df = true.
Proof.
  destruct sc; simpl; intros H.
  - apply with_parking_spec in H as [H _]. unfold scorable_with_parking in H.
    rewrite !andb_true_iff in H. tauto.
  - apply no_parking_spec in H as [H _]. unfold scorable_no_parking in H.
    rewrite !andb_true_iff in H. tauto.
  - apply mixed_spec in H as [H _]. unfold scorable_mixed in H.
    rewrite !andb_true_iff in H. tauto.
Qed.

(** C9.  Where an edge of the frame has a speed limit that is text with
    a unit ("mph" or "knots" occurs in it), the generic resolver keeps the
    raw text as the value to cast, the cast to an integer raises
    [ValueError], and so [get_max_speed] does not return, whatever the
    defaults; nor does any scoring procedure, each of which calls it on
    the frame it is given. *)
Theorem get_max_speed_rejects_units df national local motorway primary
  secondary r s :
  r ∈ rows df →
  cell "maxspeed" r = Atom (PyStr s) →
  Str.contains "mph" s = true ∨ Str.contains "knots" s = true →
  maxspeed_choice national local motorway primary secondary r
    = Atom (PyStr s)
  ∧ maxspeed_assumed_of national local motorway primary secondary r
    = Raise ValueError
  ∧ is_ok (get_max_speed df national local motorway primary secondary)
    = false
  ∧ ∀ sc, is_ok (score sc df) = false.
Proof.
  intros Hr Hs Hu.
  assert (∀ n l m p q, maxspeed_choice n l m p q r = Atom (PyStr s)) as Hc.
  { intros. unfold maxspeed_choice. rewrite Hs. simpl.
    destruct (String.eqb_spec s "national") as [->|_]; [|done].
    destruct Hu as [Hu|Hu]; vm_compute in Hu; discriminate. }
  assert (∀ n l m p q, maxspeed_assumed_of n l m p q r = Raise ValueError)
    as Hx.
  { intros. unfold maxspeed_assumed_of. rewrite Hc.
    unfold int_max. simpl. by rewrite (unit_suffix_rejected s Hu). }
  split; [apply Hc|]. split; [apply Hx|]. split.
  - destruct (get_max_speed _ _ _ _ _ _) as [df'|] eqn:H; [|done].
    apply get_max_speed_spec in H as (_ & _ & Hok & _).
    rewrite Forall_forall in Hok. apply Hok in Hr. by rewrite Hx in Hr.
  - intros sc. destruct (score sc df) as [df'|] eqn:H; [|done].
    apply scorer_resolvable in H. unfold resolvable in H.
    rewrite !andb_true_iff, forallb_forall in H. destruct H as [_ H].
    apply list_elem_of_In, H, andb_true_iff in Hr as [_ Hr].
    unfold speed_of in Hr. by rewrite Hx in Hr.
Qed.

Lemma get_max_speed_rejects_units_witness :
  maxspeed_choice 40 50 100 80 80
    (edge 0 [("highway", Atom (PyStr "residential"));
             ("maxspeed", Atom (PyStr "35 mph"))])
    = Atom (PyStr "35 mph")
  ∧ maxspeed_assumed_of 40 50 100 80 80
      (edge 0 [("highway", Atom (PyStr "residential"));
               ("maxspeed", Atom (PyStr "35 mph"))])
    = Raise ValueError
  ∧ is_ok (get_max_speed mph_edges 40 50 100 80 80) = false
  ∧ ∀ sc, is_ok (score sc mph_edges) = false.
Proof.
  apply (get_max_speed_rejects_units mph_edges 40 50 100 80 80 _ "35 mph").
  - apply list_elem_of_In. left. reflexivity.
  - reflexivity.
  - left. reflexivity.
Defined.

(** The parser is reached only through [clean_speeds].  Written back over
    the [maxspeed] column it lets the resolver return 35; with its default
    target column [maxspeed_mph] the resolver still meets the raw text. *)
Example clean_speeds_then_get_max_speed :
  (d ← clean_speeds mph_edges "maxspeed" "mph" (Some "maxspeed");
   d' ← get_max_speed d 40 50 100 80 80;
   pd.getitem d' "maxspeed_assumed") = Ok [Atom (PyInt 35)]
  ∧ (d ← clean_speeds mph_edges "maxspeed" "mph" None;
     get_max_speed d 40 50 100 80 80) = Raise ValueError.
Proof. split; vm_compute; reflexivity. Qed.

(** ** Runs on the example frame *)

Example biking_permitted_example :
  (λ '(a, b), (labels a, labels b)) <$> biking_permitted example_edges
  = Ok ([0; 2], [1]).
Proof. vm_compute. reflexivity. Qed.

Example with_parking_example :
  (d ← bike_lane_analysis_with_parking example_edges;
   rule ← pd.getitem d "rule"; lts ← pd.getitem d "lts"; Ok (rule, lts))
  = Ok (strings ["b6"; "b8"; "b4"], ints [2; 4; 2]).
Proof. vm_compute. reflexivity. Qed.

Example no_parking_example :
  (d ← bike_lane_analysis_no_parking example_edges;
   rule ← pd.getitem d "rule"; lts ← pd.getitem d "lts"; Ok (rule, lts))
  = Ok (strings ["c1"; "c6"; "c3"], ints [1; 4; 3]).
Proof. vm_compute. reflexivity. Qed.

Example mixed_traffic_example :
  (d ← mixed_traffic example_edges;
   rule ← pd.getitem d "rule"; lts ← pd.getitem d "lts"; Ok (rule, lts))
  = Ok (strings ["m9"; "m12"; "m12"], ints [2; 4; 4]).
Proof. vm_compute. reflexivity. Qed.

(** * Further properties of the module *)

(** ** The classifiers, one by one *)

Lemma filter_fmap {A B} (p : B → bool) (g : A → B) (l : list A) :
  List.filter p (g <$> l) = g <$> List.filter (λ x, p (g x)) l.
Proof.
  induction l as [|x l IH]; [done|]. csimpl.
  destruct (p (g x)); csimpl; by rewrite IH.
Qed.

Lemma filter_all {A} (p : A → bool) (l : list A) :
  Forall (λ x, p x = true) l → List.filter p l = l.
Proof. induction 1 as [|x l Hx _ IH]; simpl; [done|]. by rewrite Hx, IH. Qed.

Lemma filter_none {A} (p : A → bool) (l : list A) :
  Forall (λ x, p x = false) l → List.filter p l = [].
Proof. induction 1 as [|x l Hx _ IH]; simpl; [done|]. by rewrite Hx, IH. Qed.

Lemma filter_holds {A} (p : A → bool) (l : list A) :
  Forall (λ x, p x = true) (List.filter p l).
Proof.
  apply Forall_forall. intros x Hx%list_elem_of_In.
  by apply filter_In in Hx as [_ ?].
Qed.

Lemma with_column_idem cols c :
  pd.with_column (pd.with_column cols c) c = pd.with_column cols c.
Proof.
  unfold pd.with_column at 1. by rewrite has_with_column, String.eqb_refl, orb_true_r.
Qed.

Lemma has_rule_filtered cols :
  existsb (String.eqb "rule")
    (List.filter (λ k, negb (String.eqb "rule" k)) cols) = false.
Proof.
  induction cols as [|k cols IH]; [done|]. cbn [List.filter].
  destruct (String.eqb "rule" k) eqn:Hk; cbn [negb existsb]; [exact IH|].
  by rewrite Hk, IH.
Qed.

Lemma set_cell_twice c r v w : set_cell c (set_cell c r v) w = set_cell c r w.
Proof. unfold set_cell. simpl. by rewrite insert_insert_eq. Qed.

Lemma separated_rule_values cw r :
  separated cw r = true →
  separation_rule cw r ∈ ["s3"; "s1"; "s2"; "s7"; "s8"].
Proof.
  unfold separated, separation_rule.
  repeat case_match; intros Hsep; try discriminate; repeat constructor.
Qed.

(** X1.  The separation classifier returns exactly on the frames that
    have the columns [highway] and [footway].  Its first output holds
    the edges whose first true predicate in the order s3 (cycleway), s1
    (path), s2 (footway that is no crossing), s7 (a cycleway-family cell
    is "track"), s8 ("opposite_track") exists, tagged with that rule id;
    its second output holds the other edges in their order, and neither
    its schema nor its rows keep a [rule] column. *)
Theorem is_separated_path_cascade df a b :
  is_separated_path df = Ok (a, b) →
  let cw := pd.columns_containing df "cycleway" in
  pd.has_column df "highway" = true ∧ pd.has_column df "footway" = true
  ∧ rows a = tag_rule (separation_rule cw) <$>
               List.filter (separated cw) (rows df)
  ∧ rows b = (λ r, untag_rule (tag_rule (separation_rule cw) r)) <$>
               List.filter (λ r, negb (separated cw r)) (rows df)
  ∧ Forall (λ r, ∃ s, cell "rule" r = Atom (PyStr s)
                      ∧ s ∈ ["s3"; "s1"; "s2"; "s7"; "s8"]) (rows a)
  ∧ pd.has_column b "rule" = false
  ∧ Forall (λ r, cells r !! "rule" = None) (rows b).
Proof.
  intros H cw. destruct (is_separated_path_Ok _ _ _ H) as [Hh Hf].
  rewrite is_separated_path_frames in H by done. injection H as <- <-.
  fold cw. cbn [rows columns]. repeat split; try done.
  - apply Forall_fmap, Forall_forall. intros r Hr%list_elem_of_In.
    apply filter_In in Hr as [_ Hs]. exists (separation_rule cw r).
    split; [apply cell_set_cell_eq | by apply separated_rule_values].
  - apply has_rule_filtered.
  - apply Forall_fmap, Forall_forall. intros r _. simpl.
    apply lookup_delete_eq.
Qed.

Lemma is_separated_path_cascade_witness :
  ∃ a b, is_separated_path example_edges = Ok (a, b)
    ∧ let cw := pd.columns_containing example_edges "cycleway" in
      pd.has_column example_edges "highway" = true
      ∧ pd.has_column example_edges "footway" = true
      ∧ rows a = tag_rule (separation_rule cw) <$>
                   List.filter (separated cw) (rows example_edges)
      ∧ rows b = (λ r, untag_rule (tag_rule (separation_rule cw) r)) <$>
                   List.filter (λ r, negb (separated cw r))
                     (rows example_edges)
      ∧ Forall (λ r, ∃ s, cell "rule" r = Atom (PyStr s)
                          ∧ s ∈ ["s3"; "s1"; "s2"; "s7"; "s8"]) (rows a)
      ∧ pd.has_column b "rule" = false
      ∧ Forall (λ r, cells r !! "rule" = None) (rows b).
Proof.
  eexists _, _. split; [reflexivity|].
  apply (is_separated_path_cascade example_edges). reflexivity.
Defined.
(** X2.  The lane classifier and the parking classifier never raise.
    The lane classifier sends to its first output exactly the edges that
    have a lane identifier in a cycleway-family cell or, when the frame
    has the shoulder column, "yes" in it; the parking classifier sends
    to its first output exactly the edges with a parking identifier in a
    parking-family cell.  Both keep the schema and the order. *)
Theorem lane_and_parking_classifiers df :
  let cw := pd.columns_containing df "cycleway" in
  let sh := pd.has_column df "shoulder:access:bicycle" in
  let pk := pd.columns_containing df "parking" in
  is_bike_lane df =
    Ok ({| columns := columns df;
           rows := List.filter (has_lane cw sh) (rows df) |},
        {| columns := columns df;
           rows := List.filter (λ r, negb (has_lane cw sh r)) (rows df) |})
  ∧ parking_present df =
    Ok ({| columns := columns df;
           rows := List.filter (has_parking pk) (rows df) |},
        {| columns := columns df;
           rows := List.filter (λ r, negb (has_parking pk r)) (rows df) |}).
Proof. split; [apply is_bike_lane_rows | apply parking_present_rows]. Qed.

(** X3.  On a frame with no column of the cycleway family and no
    shoulder column the lane classifier finds no lane: its first output
    is empty and its second is the input.  Likewise the parking
    classifier on a frame with no column of the parking family. *)
Theorem no_family_column_nothing_detected df :
  (pd.columns_containing df "cycleway" = [] →
   pd.has_column df "shoulder:access:bicycle" = false →
   is_bike_lane df = Ok ({| columns := columns df; rows := [] |}, df))
  ∧ (pd.columns_containing df "parking" = [] →
     parking_present df = Ok ({| columns := columns df; rows := [] |}, df)).
Proof.
  split.
  - intros Hcw Hsh. rewrite is_bike_lane_rows, Hcw, Hsh.
    rewrite filter_none, filter_all by (by apply Forall_forall).
    by destruct df.
  - intros Hpk. rewrite parking_present_rows, Hpk.
    rewrite filter_none, filter_all by (by apply Forall_forall).
    by destruct df.
Qed.

Lemma no_family_column_nothing_detected_witness :
  is_bike_lane us_edges
    = Ok ({| columns := columns us_edges; rows := [] |}, us_edges)
  ∧ parking_present us_edges
    = Ok ({| columns := columns us_edges; rows := [] |}, us_edges).
Proof.
  destruct (no_family_column_nothing_detected us_edges) as [Hl Hp].
  split; [apply Hl | apply Hp]; reflexivity.
Defined.

(** ** Missing columns *)

Lemma getitem_missing df c :
  pd.has_column df c = false → pd.getitem df c = Raise (KeyError c).
Proof. unfold pd.getitem. by intros ->. Qed.

(** X4.  A classifier that reads columns by name raises [KeyError] for
    the first column it reads that the frame lacks: [bicycle], [access],
    [highway], [footway] in this order for the permission filter,
    [highway], [footway] for the separation classifier.  Every scoring
    procedure starts with the lane resolver and so raises
    [KeyError 'lanes'] on a frame without that column. *)
Theorem missing_column_is_key_error df c :
  (first_missing df permission_columns = Some c →
   biking_permitted df = Raise (KeyError c))
  ∧ (first_missing df ["highway"; "footway"] = Some c →
     is_separated_path df = Raise (KeyError c))
  ∧ (pd.has_column df "lanes" = false →
     ∀ sc, score sc df = Raise (KeyError "lanes")).
Proof.
  unfold first_missing, permission_columns. repeat split.
  - unfold biking_permitted. cbn [List.find].
    destruct (pd.has_column df "bicycle") eqn:H1; cbn [negb];
      [rewrite (getitem_has df "bicycle") by done; run
      | intros [= <-]; by rewrite (getitem_missing _ _ H1)].
    destruct (pd.has_column df "access") eqn:H2; cbn [negb];
      [rewrite (getitem_has df "access") by done; run
      | intros [= <-]; by rewrite (getitem_missing _ _ H2)].
    destruct (pd.has_column df "highway") eqn:H3; cbn [negb];
      [rewrite (getitem_has df "highway") by done; run
      | intros [= <-]; by rewrite (getitem_missing _ _ H3)].
    destruct (pd.has_column df "footway") eqn:H4; cbn [negb];
      [discriminate | intros [= <-]; by rewrite (getitem_missing _ _ H4)].
  - unfold is_separated_path. cbn [List.find].
    destruct (pd.has_column df "highway") eqn:H3; cbn [negb];
      [rewrite (getitem_has df "highway") by done; run
      | intros [= <-]; by rewrite (getitem_missing _ _ H3)].
    destruct (pd.has_column df "footway") eqn:H4; cbn [negb];
      [discriminate | intros [= <-]; by rewrite (getitem_missing _ _ H4)].
  - intros Hl sc.
    destruct sc; cbn [score];
      [unfold bike_lane_analysis_with_parking
      | unfold bike_lane_analysis_no_parking | unfold mixed_traffic];
      unfold get_lanes; by rewrite (getitem_missing _ _ Hl).
Qed.

Lemma missing_column_is_key_error_witness :
  biking_permitted {| columns := []; rows := [] |}
    = Raise (KeyError "bicycle")
  ∧ is_separated_path {| columns := []; rows := [] |}
    = Raise (KeyError "highway")
  ∧ ∀ sc, score sc {| columns := []; rows := [] |}
          = Raise (KeyError "lanes").
Proof.
  destruct (missing_column_is_key_error {| columns := []; rows := [] |}
              "bicycle") as (Hp & _ & Hs).
  destruct (missing_column_is_key_error {| columns := []; rows := [] |}
              "highway") as (_ & Hh & _).
  split; [apply Hp; reflexivity|]. split; [apply Hh; reflexivity|].
  apply Hs. reflexivity.
Defined.

(** The module's test cannot pass: the frame it builds has no column, so
    the permission filter raises before anything is compared. *)
Example test_answer_raises : test_answer = Raise (KeyError "bicycle").
Proof. reflexivity. Qed.

(** ** Classifying twice *)

Lemma permission_rule_tag r v :
  permission_rule (set_cell "rule" r v) = permission_rule r.
Proof. unfold permission_rule. by rewrite !cell_set_cell_ne. Qed.

Lemma cell_untag c r : c ≠ "rule" → cell c (untag_rule r) = cell c r.
Proof. intros Hc. unfold cell, untag_rule. simpl. by rewrite lookup_delete_ne. Qed.

Lemma family_not_rule df sub c :
  Str.contains sub "rule" = false → c ∈ pd.columns_containing df sub → c ≠ "rule".
Proof.
  intros Hsub Hc%list_elem_of_In ->.
  apply filter_In in Hc as [_ Hc]. congruence.
Qed.

Lemma family_cells_ext cw r r' :
  (∀ c, c ∈ cw → cell c r' = cell c r) → family_cells cw r' = family_cells cw r.
Proof.
  intros H. unfold family_cells. apply list_fmap_ext.
  intros i c Hc. apply H. by eapply list_elem_of_lookup_2.
Qed.

Lemma separation_rule_ext cw r r' :
  (∀ c, c ≠ "rule" → cell c r' = cell c r) → (∀ c, c ∈ cw → c ≠ "rule") →
  separation_rule cw r' = separation_rule cw r.
Proof.
  intros H Hcw. unfold separation_rule.
  rewrite (family_cells_ext cw r r') by (intros c Hc; apply H, Hcw, Hc).
  by rewrite !H.
Qed.

Lemma columns_containing_with_rule cols rs rs' sub :
  Str.contains sub "rule" = false →
  pd.columns_containing {| columns := pd.with_column cols "rule"; rows := rs |} sub
  = pd.columns_containing {| columns := cols; rows := rs' |} sub.
Proof.
  intros Hsub. unfold pd.columns_containing, pd.with_column. cbn [columns].
  destruct (existsb _ cols); [done|].
  rewrite List.filter_app. cbn [List.filter]. rewrite Hsub. apply app_nil_r.
Qed.

Lemma filter_filter_comm {A} (p q : A → bool) (l : list A) :
  List.filter p (List.filter q l) = List.filter q (List.filter p l).
Proof.
  induction l as [|x l IH]; [done|]. cbn [List.filter].
  destruct (p x) eqn:Hp, (q x) eqn:Hq; cbn [List.filter];
    rewrite ?Hp, ?Hq, IH; done.
Qed.

Lemma columns_containing_without_rule cols rs rs' sub :
  Str.contains sub "rule" = false →
  pd.columns_containing
    {| columns := List.filter (λ k, negb (String.eqb "rule" k)) cols;
       rows := rs |} sub
  = pd.columns_containing {| columns := cols; rows := rs' |} sub.
Proof.
  intros Hsub. unfold pd.columns_containing. cbn [columns].
  rewrite filter_filter_comm. apply filter_all, Forall_forall.
  intros c Hc%list_elem_of_In. apply filter_In in Hc as [_ Hc].
  destruct (String.eqb_spec "rule" c) as [<-|]; [congruence | done].
Qed.

Lemma filter_rule_with_rule cols :
  let cols' := List.filter (λ k, negb (String.eqb "rule" k)) cols in
  List.filter (λ k, negb (String.eqb "rule" k)) (pd.with_column cols' "rule")
  = cols'.
Proof.
  intros cols'. unfold pd.with_column. subst cols'.
  rewrite has_rule_filtered, List.filter_app. cbn. rewrite app_nil_r.
  apply filter_all, filter_holds.
Qed.

Lemma untag_tag r v : untag_rule (set_cell "rule" r v) = untag_rule r.
Proof. unfold untag_rule, set_cell. simpl. by rewrite delete_insert_eq. Qed.

Lemma untag_untag r : untag_rule (untag_rule r) = untag_rule r.
Proof. unfold untag_rule. simpl. by rewrite delete_delete_eq. Qed.

Lemma filter_twice_all {A B} (p : B → bool) (g : A → B) (q : A → bool) l :
  (∀ x, q x = true → p (g x) = true) →
  List.filter p (g <$> List.filter q l) = g <$> List.filter q l.
Proof.
  intros H. apply filter_all, Forall_fmap, Forall_forall.
  intros x Hx%list_elem_of_In. apply filter_In in Hx as [_ Hx]. by apply H.
Qed.

Lemma filter_twice_none {A B} (p : B → bool) (g : A → B) (q : A → bool) l :
  (∀ x, q x = true → p (g x) = false) →
  List.filter p (g <$> List.filter q l) = [].
Proof.
  intros H. apply filter_none, Forall_fmap, Forall_forall.
  intros x Hx%list_elem_of_In. apply filter_In in Hx as [_ Hx]. by apply H.
Qed.

Lemma fmap_id_on {A} (g : A → A) (l : list A) :
  Forall (λ x, g x = x) l → g <$> l = l.
Proof. induction 1 as [|x l Hx _ IH]; csimpl; [done|]. by rewrite Hx, IH. Qed.

Lemma biking_permitted_again df a b :
  biking_permitted df = Ok (a, b) →
  biking_permitted a = Ok (a, {| columns := columns a; rows := [] |})
  ∧ biking_permitted b = Ok ({| columns := columns b; rows := [] |}, b).
Proof.
  intros H. pose proof (biking_permitted_Ok _ _ _ H) as Hc.
  rewrite biking_permitted_frames in H by done. injection H as <- <-.
  assert (∀ rs, Forall (λ c, pd.has_column
            {| columns := pd.with_column (columns df) "rule"; rows := rs |}
            c = true) permission_columns) as Hc'.
  { intros rs. eapply Forall_impl; [exact Hc|]. intros c Hdf. simpl in *.
    unfold pd.has_column in *. cbn [columns].
    by rewrite has_with_column, Hdf. }
  assert (∀ r, tag_rule permission_rule (tag_rule permission_rule r)
               = tag_rule permission_rule r) as Htt.
  { intros r. unfold tag_rule. by rewrite permission_rule_tag, set_cell_twice. }
  assert (∀ r, permitted (tag_rule permission_rule r) = permitted r) as Hp.
  { intros r. unfold permitted, tag_rule. by rewrite permission_rule_tag. }
  split; rewrite biking_permitted_frames by apply Hc'; cbn [rows columns];
    rewrite with_column_idem.
  - rewrite filter_twice_all by (intros r Hr; by rewrite Hp).
    rewrite filter_twice_none by (intros r Hr; by rewrite Hp, Hr).
    rewrite <- list_fmap_compose.
    rewrite (list_fmap_ext (tag_rule permission_rule ∘ tag_rule permission_rule)
               (tag_rule permission_rule)) by (intros; apply Htt).
    done.
  - rewrite filter_twice_none by (intros r Hr; rewrite Hp; by destruct (permitted r)).
    rewrite filter_twice_all by (intros r Hr; by rewrite Hp).
    rewrite <- list_fmap_compose.
    rewrite (list_fmap_ext (tag_rule permission_rule ∘ tag_rule permission_rule)
               (tag_rule permission_rule)) by (intros; apply Htt).
    done.
Qed.

Lemma Ok_pair_inj {A B} (a a' : A) (b b' : B) :
  @Ok (A * B) (a, b) = Ok (a', b') → a = a' ∧ b = b'.
Proof. by intros [= -> ->]. Qed.

Lemma is_separated_path_again df a b :
  is_separated_path df = Ok (a, b) →
  (∃ e, is_separated_path a = Ok (a, e) ∧ rows e = [])
  ∧ (∃ e, is_separated_path b = Ok (e, b) ∧ rows e = []).
Proof.
  intros H. destruct (is_separated_path_Ok _ _ _ H) as [Hh Hf].
  rewrite is_separated_path_frames in H by done.
  set (cw := pd.columns_containing df "cycleway") in *.
  apply Ok_pair_inj in H as [<- <-].
  assert (∀ c, c ∈ cw → c ≠ "rule") as Hcw.
  { intros c. by apply family_not_rule. }
  assert (∀ r v, separation_rule cw (set_cell "rule" r v)
                 = separation_rule cw r) as Hst.
  { intros r v. apply separation_rule_ext; [|done].
    intros c Hc. by apply cell_set_cell_ne. }
  assert (∀ r, separation_rule cw (untag_rule r) = separation_rule cw r)
    as Hsu.
  { intros r. apply separation_rule_ext; [|done]. intros c Hc.
    by apply cell_untag. }
  split.
  - rewrite is_separated_path_frames; cbn [columns rows];
      [| unfold pd.has_column in *; cbn [columns];
         by rewrite has_with_column, ?Hh, ?Hf ..].
    rewrite (columns_containing_with_rule _ _ (rows df)) by done.
    destruct df as [cols rs]. cbn [columns rows] in *. fold cw.
    rewrite with_column_idem.
    rewrite filter_twice_all
      by (intros r Hr; unfold separated, tag_rule in *; by rewrite Hst).
    rewrite filter_twice_none
      by (intros r Hr; unfold separated, tag_rule in *; by rewrite Hst, Hr).
    rewrite <- list_fmap_compose.
    rewrite (list_fmap_ext
               (tag_rule (separation_rule cw) ∘ tag_rule (separation_rule cw))
               (tag_rule (separation_rule cw)))
      by (intros; unfold tag_rule; simpl; by rewrite Hst, set_cell_twice).
    by eexists.
  - rewrite is_separated_path_frames; cbn [columns rows];
      [| unfold pd.has_column in *; cbn [columns];
         rewrite has_filter_ne by done; by rewrite has_with_column, ?Hh, ?Hf ..].
    rewrite (columns_containing_without_rule _ _
               (rows df)) by done.
    rewrite (columns_containing_with_rule _ _ (rows df)) by done.
    destruct df as [cols rs]. cbn [columns rows] in *. fold cw.
    assert (∀ r, separated cw
                   (untag_rule (tag_rule (separation_rule cw) r))
                 = separated cw r) as Hsep.
    { intros r. unfold separated, tag_rule. by rewrite Hsu, Hst. }
    rewrite filter_twice_none
      by (intros r Hr; rewrite Hsep; by destruct (separated cw r)).
    rewrite filter_twice_all by (intros r Hr; by rewrite Hsep).
    rewrite <- list_fmap_compose.
    rewrite (list_fmap_ext
               ((λ r, untag_rule (tag_rule (separation_rule cw) r))
                ∘ (λ r, untag_rule (tag_rule (separation_rule cw) r)))
               (λ r, untag_rule (tag_rule (separation_rule cw) r)))
      by (intros; unfold tag_rule; simpl; by rewrite !untag_tag, untag_untag).
    rewrite (filter_rule_with_rule (pd.with_column cols "rule")). by eexists.
Qed.

Lemma filter_split_again {A} (p q : A → bool) (l : list A) :
  (∀ x, q x = p x) →
  List.filter q (List.filter p l) = List.filter p l
  ∧ List.filter (λ x, negb (q x)) (List.filter p l) = []
  ∧ List.filter q (List.filter (λ x, negb (p x)) l) = []
  ∧ List.filter (λ x, negb (q x)) (List.filter (λ x, negb (p x)) l)
    = List.filter (λ x, negb (p x)) l.
Proof.
  intros Hq. repeat split.
  - apply filter_all, Forall_forall. intros x Hx%list_elem_of_In.
    apply filter_In in Hx as [_ Hx]. by rewrite Hq.
  - apply filter_none, Forall_forall. intros x Hx%list_elem_of_In.
    apply filter_In in Hx as [_ Hx]. by rewrite Hq, Hx.
  - apply filter_none, Forall_forall. intros x Hx%list_elem_of_In.
    apply filter_In in Hx as [_ Hx]. rewrite Hq. by destruct (p x).
  - apply filter_all, Forall_forall. intros x Hx%list_elem_of_In.
    apply filter_In in Hx as [_ Hx]. by rewrite Hq.
Qed.

(** X5.  Classifying twice changes nothing.  When a classifier returns
    the pair (a, b), running it again on [a] returns [a] itself in the
    first position beside a frame without rows, and running it again on
    [b] returns [b] itself in the second position beside a frame without
    rows: the rule ids written by the first run, or the [rule] column it
    dropped, do not alter the decision. *)
Theorem classify_twice k df a b :
  classify k df = Ok (a, b) →
  (∃ e, classify k a = Ok (a, e) ∧ rows e = [])
  ∧ (∃ e, classify k b = Ok (e, b) ∧ rows e = []).
Proof.
  destruct k; cbn [classify]; intros H.
  - apply biking_permitted_again in H as [-> ->]. split; by eexists.
  - by apply (is_separated_path_again df).
  - rewrite (is_bike_lane_rows df) in H. apply Ok_pair_inj in H as [<- <-].
    rewrite !is_bike_lane_rows. unfold pd.columns_containing, pd.has_column.
    cbn [columns rows].
    edestruct (filter_split_again
      (has_lane (List.filter (Str.contains "cycleway") (columns df))
         (existsb (String.eqb "shoulder:access:bicycle") (columns df)))
      (has_lane (List.filter (Str.contains "cycleway") (columns df))
         (existsb (String.eqb "shoulder:access:bicycle") (columns df)))
      (rows df)) as (-> & -> & -> & ->); [done|].
    split; by eexists.
  - rewrite (parking_present_rows df) in H. apply Ok_pair_inj in H as [<- <-].
    rewrite !parking_present_rows. unfold pd.columns_containing.
    cbn [columns rows].
    edestruct (filter_split_again
      (has_parking (List.filter (Str.contains "parking") (columns df)))
      (has_parking (List.filter (Str.contains "parking") (columns df)))
      (rows df)) as (-> & -> & -> & ->); [done|].
    split; by eexists.
Qed.

Lemma classify_twice_witness :
  ∃ a b, classify Separation example_edges = Ok (a, b)
    ∧ (∃ e, classify Separation a = Ok (a, e) ∧ rows e = [])
    ∧ (∃ e, classify Separation b = Ok (e, b) ∧ rows e = []).
Proof.
  eexists _, _. split; [reflexivity|].
  apply (classify_twice Separation example_edges). reflexivity.
Defined.

(** ** The lane resolver *)

Lemma fold_left_max_spec (a : list Z) (z : Z) :
  fold_left Z.max a z ∈ z :: a
  ∧ Forall (λ y, y ≤ fold_left Z.max a z) (z :: a).
Proof.
  revert z. induction a as [|x a IH]; intros z; simpl.
  - split; [by left | by repeat constructor].
  - destruct (IH (Z.max z x)) as [Hin Hle]. split.
    + apply elem_of_cons in Hin as [->|Hin]; [|by do 2 right].
      destruct (Z.max_spec z x) as [[_ ->]|[_ ->]]; [right|]; by left.
    + apply Forall_cons in Hle as [Hm Hle].
      repeat constructor; [lia | lia | done].
Qed.

Lemma to_int64_Ok z z' :
  np.to_int64 z = Ok z' → z' = z ∧ np.int64_min ≤ z ≤ np.int64_max.
Proof.
  unfold np.to_int64.
  destruct (_ && _) eqn:H; [|discriminate]. intros [= <-].
  apply andb_true_iff in H as [?%Z.leb_le ?%Z.leb_le]. done.
Qed.

Lemma int_of_atom_range a z :
  np.int_of_atom a = Ok z → np.int64_min ≤ z ≤ np.int64_max.
Proof.
  destruct a; simpl; intros H; try discriminate;
    try (apply bind_Ok in H as (? & _ & H));
    by apply to_int64_Ok in H as [-> ?].
Qed.

Lemma array_int_range x zs :
  np.array_int x = Ok zs →
  Forall (λ z, np.int64_min ≤ z ≤ np.int64_max) zs.
Proof.
  destruct x as [a|l]; simpl; intros H.
  - apply bind_Ok in H as (z & Hz & [= <-]).
    repeat constructor; by eapply int_of_atom_range.
  - apply mapM_Ok in H. induction H; constructor; eauto using int_of_atom_range.
Qed.

Lemma int_max_spec x z :
  int_max x = Ok z ↔
  ∃ zs, np.array_int x = Ok zs ∧ z ∈ zs ∧ Forall (λ y, y ≤ z) zs.
Proof.
  unfold int_max. split.
  - intros H. apply bind_Ok in H as (zs & Hzs & H). exists zs.
    split; [done|]. destruct zs as [|y zs]; [discriminate|].
    injection H as <-. apply fold_left_max_spec.
  - intros (zs & -> & Hin & Hle). run.
    destruct zs as [|y zs]; [by apply elem_of_nil in Hin|].
    simpl. f_equal.
    destruct (fold_left_max_spec zs y) as [Hin' Hle'].
    rewrite Forall_forall in Hle, Hle'.
    apply Z.le_antisymm; auto.
Qed.

Lemma same_cells_set_cell c r v k :
  k ≠ c → cells (set_cell c r v) !! k = cells r !! k.
Proof. intros Hk. unfold set_cell. simpl. by rewrite lookup_insert_ne. Qed.

(** X6.  When the lane resolver returns, the frame has gained the column
    [lanes_assumed] and nothing else has changed: same edges in the same
    order, every other cell as it was.  The new cell of an edge is an
    integer of the 64-bit range: the default where the lane cell is
    missing, the cast of the cell where it is a scalar, and the greatest
    of the casts of its elements where it is a list; no lane cell is an
    empty list. *)
Theorem get_lanes_edges df d df' :
  get_lanes df d = Ok df' →
  columns df' = pd.with_column (columns df) "lanes_assumed"
  ∧ Forall2
      (λ r r',
         label r' = label r
         ∧ (∀ c, c ≠ "lanes_assumed" → cells r' !! c = cells r !! c)
         ∧ ∃ z, cell "lanes_assumed" r' = Atom (PyInt z)
             ∧ np.int64_min ≤ z ≤ np.int64_max
             ∧ (pd.isna_cell (cell "lanes" r) = true → z = d)
             ∧ (∀ a, cell "lanes" r = Atom a →
                  pd.isna_cell (Atom a) = false → np.int_of_atom a = Ok z)
             ∧ (∀ l, cell "lanes" r = PyList l →
                  l ≠ []
                  ∧ ∃ zs, mapM np.int_of_atom l = Ok zs
                      ∧ z ∈ zs ∧ Forall (λ y, y ≤ z) zs))
      (rows df) (rows df').
Proof.
  intros H. apply get_lanes_spec in H as (_ & Hok & ->).
  split; [done|]. rewrite (rows_setitem df). apply Forall2_fmap_in.
  intros r Hr. rewrite Forall_forall in Hok. specialize (Hok r Hr).
  apply (is_ok_val 0) in Hok. set (z := val 0 (lanes_assumed_of d r)) in *.
  split; [done|]. split; [intros c Hc; by apply same_cells_set_cell|].
  exists z. split; [apply cell_set_cell_eq|].
  unfold lanes_assumed_of in Hok.
  apply int_max_spec in Hok as (zs & Hzs & Hin & Hle).
  split.
  { apply array_int_range in Hzs. rewrite Forall_forall in Hzs. auto. }
  split; [|split].
  - intros Hna. rewrite Hna in Hzs. simpl in Hzs.
    apply bind_Ok in Hzs as (y & Hy & [= <-]).
    apply to_int64_Ok in Hy as [-> _].
    by apply list_elem_of_singleton in Hin.
  - intros a Ha Hna. rewrite Ha, Hna in Hzs. simpl in Hzs.
    apply bind_Ok in Hzs as (y & Hy & [= <-]).
    apply list_elem_of_singleton in Hin. by subst.
  - intros l Hl. rewrite Hl in Hzs. simpl in Hzs. split.
    + intros ->. injection Hzs as <-. by apply elem_of_nil in Hin.
    + by exists zs.
Qed.

Lemma get_lanes_edges_witness :
  ∃ df', get_lanes example_edges 2 = Ok df'
  ∧ columns df' = pd.with_column (columns example_edges) "lanes_assumed"
  ∧ Forall2
      (λ r r',
         label r' = label r
         ∧ (∀ c, c ≠ "lanes_assumed" → cells r' !! c = cells r !! c)
         ∧ ∃ z, cell "lanes_assumed" r' = Atom (PyInt z)
             ∧ np.int64_min ≤ z ≤ np.int64_max
             ∧ (pd.isna_cell (cell "lanes" r) = true → z = 2)
             ∧ (∀ a, cell "lanes" r = Atom a →
                  pd.isna_cell (Atom a) = false → np.int_of_atom a = Ok z)
             ∧ (∀ l, cell "lanes" r = PyList l →
                  l ≠ []
                  ∧ ∃ zs, mapM np.int_of_atom l = Ok zs
                      ∧ z ∈ zs ∧ Forall (λ y, y ≤ z) zs))
      (rows example_edges) (rows df').
Proof.
  eexists. split; [reflexivity|].
  apply (get_lanes_edges example_edges 2). reflexivity.
Defined.

(** ** The speed resolver *)

Lemma int_max_int z y : int_max (Atom (PyInt z)) = Ok y → y = z.
Proof.
  intros H. apply int_max_spec in H as (zs & Hzs & Hin & _).
  simpl in Hzs. apply bind_Ok in Hzs as (x & Hx & [= <-]).
  apply to_int64_Ok in Hx as [-> _]. by apply list_elem_of_singleton in Hin.
Qed.

Lemma int_max_range x z :
  int_max x = Ok z → np.int64_min ≤ z ≤ np.int64_max.
Proof.
  intros H. apply int_max_spec in H as (zs & Hzs & Hin & _).
  apply array_int_range in Hzs. rewrite Forall_forall in Hzs. auto.
Qed.

(** X7.  When the generic speed resolver returns, the frame has gained
    the column [maxspeed_assumed] and nothing else has changed.  The new
    cell of an edge is an integer of the 64-bit range: the national
    default where the limit reads "national"; where the limit is missing,
    the default of the road class (motorway, primary, secondary) and the
    local default for every other class; and otherwise the cast of the
    limit itself, the greatest element for a list. *)
Theorem get_max_speed_edges df national local motorway primary secondary
  df' :
  get_max_speed df national local motorway primary secondary = Ok df' →
  columns df' = pd.with_column (columns df) "maxspeed_assumed"
  ∧ Forall2
      (λ r r',
         label r' = label r
         ∧ (∀ c, c ≠ "maxspeed_assumed" → cells r' !! c = cells r !! c)
         ∧ ∃ z, cell "maxspeed_assumed" r' = Atom (PyInt z)
             ∧ np.int64_min ≤ z ≤ np.int64_max
             ∧ (pd.eq_str "national" (cell "maxspeed" r) = true →
                z = national)
             ∧ (pd.isna_cell (cell "maxspeed" r) = true →
                z = if pd.eq_str "motorway" (cell "highway" r)
                    then motorway
                    else if pd.eq_str "primary" (cell "highway" r)
                    then primary
                    else if pd.eq_str "secondary" (cell "highway" r)
                    then secondary
                    else local)
             ∧ (pd.eq_str "national" (cell "maxspeed" r) = false →
                pd.isna_cell (cell "maxspeed" r) = false →
                int_max (cell "maxspeed" r) = Ok z))
      (rows df) (rows df').
Proof.
  intros H. apply get_max_speed_spec in H as (_ & _ & Hok & ->).
  split; [apply with_column_idem|].
  rewrite rows_setitem_twice. apply Forall2_fmap_in.
  intros r Hr. rewrite Forall_forall in Hok. specialize (Hok r Hr).
  apply (is_ok_val 0) in Hok.
  set (z := val 0 (maxspeed_assumed_of national local motorway primary
                     secondary r)) in *.
  split; [done|]. split; [intros c Hc; by apply same_cells_set_cell|].
  exists z. split; [apply cell_set_cell_eq|].
  split; [by eapply int_max_range|].
  unfold maxspeed_assumed_of, maxspeed_choice in Hok.
  split; [|split].
  - intros Hn. rewrite Hn in Hok. by apply int_max_int in Hok.
  - intros Hna. rewrite (isna_eq_str _ _ Hna), Hna in Hok. simpl in Hok.
    repeat case_match; by apply int_max_int in Hok.
  - intros Hn Hna. by rewrite Hn, Hna in Hok.
Qed.

Lemma get_max_speed_edges_witness :
  ∃ df', get_max_speed example_edges 40 50 100 80 80 = Ok df'
  ∧ columns df' = pd.with_column (columns example_edges) "maxspeed_assumed"
  ∧ Forall2
      (λ r r',
         label r' = label r
         ∧ (∀ c, c ≠ "maxspeed_assumed" → cells r' !! c = cells r !! c)
         ∧ ∃ z, cell "maxspeed_assumed" r' = Atom (PyInt z)
             ∧ np.int64_min ≤ z ≤ np.int64_max
             ∧ (pd.eq_str "national" (cell "maxspeed" r) = true → z = 40)
             ∧ (pd.isna_cell (cell "maxspeed" r) = true →
                z = if pd.eq_str "motorway" (cell "highway" r)
                    then 100
                    else if pd.eq_str "primary" (cell "highway" r)
                    then 80
                    else if pd.eq_str "secondary" (cell "highway" r)
                    then 80
                    else 50)
             ∧ (pd.eq_str "national" (cell "maxspeed" r) = false →
                pd.isna_cell (cell "maxspeed" r) = false →
                int_max (cell "maxspeed" r) = Ok z))
      (rows example_edges) (rows df').
Proof.
  eexists. split; [reflexivity|].
  apply (get_max_speed_edges example_edges 40 50 100 80 80). reflexivity.
Defined.

Lemma maxspeed_choice_present n l m p s r :
  pd.eq_str "national" (cell "maxspeed" r) = false →
  pd.isna_cell (cell "maxspeed" r) = false →
  maxspeed_choice n l m p s r = cell "maxspeed" r.
Proof. intros Hn Hna. unfold maxspeed_choice. by rewrite Hn, Hna. Qed.

(** X8.  The five defaults of the generic speed resolver are read only
    for the edges whose limit is missing or "national": on a frame where
    every edge carries a limit of its own, the call gives the same
    result, or raises the same exception, whatever the defaults. *)
Theorem get_max_speed_defaults_unused df n l m p s n' l' m' p' s' :
  Forall (λ r, pd.eq_str "national" (cell "maxspeed" r) = false
               ∧ pd.isna_cell (cell "maxspeed" r) = false) (rows df) →
  get_max_speed df n l m p s = get_max_speed df n' l' m' p' s'.
Proof.
  intros Hp. unfold get_max_speed, pd.getitem.
  destruct (pd.has_column df "maxspeed"); run; [|done].
  destruct (pd.has_column df "highway"); run; [|done].
  unfold np.select. simpl length. run. simpl np.select_go. rows_form.
  assert (∀ a b c d e,
    (λ r, maxspeed_choice a b c d e r) <$> rows df
    = cell "maxspeed" <$> rows df) as Hc.
  { intros. apply list_fmap_ext. intros i r Hr.
    rewrite Forall_forall in Hp.
    destruct (Hp r (list_elem_of_lookup_2 _ _ _ Hr)) as [Hn Hna].
    by apply maxspeed_choice_present. }
  unfold maxspeed_choice in Hc.
  by rewrite (Hc n l m p s), (Hc n' l' m' p' s').
Qed.

Lemma get_max_speed_defaults_unused_witness :
  get_max_speed
    {| columns := ["highway"; "maxspeed"];
       rows := [edge 0 [("highway", Atom (PyStr "primary"));
                        ("maxspeed", PyList [PyStr "30"; PyStr "50"])]] |}
    40 50 100 80 80
  = get_max_speed
    {| columns := ["highway"; "maxspeed"];
       rows := [edge 0 [("highway", Atom (PyStr "primary"));
                        ("maxspeed", PyList [PyStr "30"; PyStr "50"])]] |}
    0 0 0 0 0.
Proof.
  apply (get_max_speed_defaults_unused
    {| columns := ["highway"; "maxspeed"];
       rows := [edge 0 [("highway", Atom (PyStr "primary"));
                        ("maxspeed", PyList [PyStr "30"; PyStr "50"])]] |}).
  repeat constructor.
Defined.

(** ** The speed parser and [clean_speeds] *)

Lemma lstrip_nonblank l c :
  In c l → Str.is_space c = false → Str.lstrip l ≠ [].
Proof. intros Hc Hs Hl. apply (lstrip_keeps l c) in Hc; [|done]. by rewrite Hl in Hc. Qed.

Lemma first_word_unit a n s :
  Str.is_space a = false → Str.contains (String a n) s = true →
  ∃ w, Str.first_word s = Ok w.
Proof.
  intros Ha Hc. apply contains_head in Hc.
  pose proof (lstrip_nonblank _ _ Hc Ha) as Hl. unfold Str.first_word.
  destruct (Str.lstrip (list_ascii_of_string s)); [done | by eexists].
Qed.

Lemma isnan_atom_error a e :
  isnan_atom a = Raise e → e = TypeError.
Proof. destruct a; simpl; try congruence. case_match; congruence. Qed.

Lemma isnan_float_array_error a e :
  isnan_float_array a = Raise e → e = TypeError.
Proof. destruct a; simpl; congruence. Qed.

Lemma mapM_error {A B} (f : A → result B) (P : exn → Prop) l e :
  (∀ x e, f x = Raise e → P e) → mapM f l = Raise e → P e.
Proof.
  intros Hf. induction l as [|x l IH]; [done|]. simpl.
  destruct (f x) as [y|e'] eqn:Hx; run; [|intros [= <-]; eauto].
  destruct (mapM f l); run; [done|]. intros [= <-]. by apply IH.
Qed.

(** X9.  The speed parser raises nothing but [ValueError] on a string
    and nothing but [ValueError] or [TypeError] on any other value.  In
    particular the subscript of [split()[0]] is never out of range: a
    string in which a unit occurs has a first word. *)
Theorem parse_speed_errors x e :
  parse_speed x = Raise e →
  (e = ValueError ∨ e = TypeError)
  ∧ (Py.isinstance_str x = true → e = ValueError).
Proof.
  destruct x as [[|s|z|f]|l]; simpl.
  - intros [= <-]. split; [by right | done].
  - intros H. enough (e = ValueError) by (split; [by left | done]).
    destruct (Str.contains "mph" s) eqn:Hm;
      [|destruct (Str.contains "knots" s) eqn:Hk].
    + destruct (first_word_unit "m" "ph" s eq_refl Hm) as [w Hw].
      rewrite Hw in H. run in H.
      destruct (Py.float_of_str w) eqn:Hf; [done|]. injection H as <-.
      by eapply float_of_str_error.
    + destruct (first_word_unit "k" "nots" s eq_refl Hk) as [w Hw].
      rewrite Hw in H. run in H.
      destruct (Py.float_of_str w) eqn:Hf; [done|]. injection H as <-.
      by eapply float_of_str_error.
    + destruct (Py.float_of_str s) eqn:Hf; [done|]. injection H as <-.
      by eapply float_of_str_error.
  - case_match; [done|]. intros [= <-]. split; [by right | done].
  - by destruct (is_nan f).
  - intros H. split; [|done].
    match type of H with context [mapM ?g0 l] => set (g := g0) in H end.
    destruct (mapM g l) as [bs|e'] eqn:Hl; run in H.
    + destruct bs as [|b [|? ?]]; try (injection H as <-; by left).
      by destruct b.
    + injection H as <-. right.
      apply (mapM_error g (λ e, e = TypeError) l e'); [|done].
      subst g. intros a e0.
      destruct (existsb _ l);
        [apply isnan_float_array_error | apply isnan_atom_error].
Qed.

Lemma parse_speed_errors_witness :
  (ValueError = ValueError ∨ ValueError = TypeError)
  ∧ (Py.isinstance_str (Atom (PyStr "mph")) = true →
     ValueError = ValueError).
Proof.
  apply (parse_speed_errors (Atom (PyStr "mph")) ValueError). reflexivity.
Defined.

Lemma digits_keeps l c :
  In c l → Str.is_digit c = false → In c (snd (Str.digits l)).
Proof.
  induction l as [|x l IH]; [done|]. simpl. intros Hc Hd.
  destruct (Str.is_digit x) eqn:Hx; [|done].
  destruct Hc as [->|Hc]; [congruence|].
  specialize (IH Hc Hd). by destruct (Str.digits l).
Qed.

Lemma exponent_keeps l c :
  In c l → Ascii.eqb (Str.lower c) "e" = false → Str.is_digit c = false →
  Ascii.eqb c "+" = false → Ascii.eqb c "-" = false →
  In c (snd (Py.exponent l)).
Proof.
  intros Hc He Hd Hp Hm. unfold Py.exponent.
  destruct l as [|x l]; [done|].
  destruct (Ascii.eqb (Str.lower x) "e") eqn:Hx; [|done].
  destruct Hc as [->|Hc]; [congruence|].
  pose proof (sign_keeps _ _ Hc Hp Hm) as Hs.
  destruct (Str.sign l) as [neg l2]. simpl in Hs.
  pose proof (digits_keeps _ _ Hs Hd) as Hr.
  destruct (Str.digits l2) as [[|d ds] r]; simpl in *; [by right | done].
Qed.

Lemma lower_name r name c :
  String.eqb (string_of_list_ascii (map Str.lower r)) name = true →
  In c r → In (Str.lower c) (list_ascii_of_string name).
Proof.
  intros Hn%String.eqb_eq Hc. rewrite <- Hn.
  rewrite list_ascii_of_string_of_list_ascii. by apply in_map.
Qed.

(** A character that [float] accepts nowhere makes the parse fail. *)
Lemma float_of_str_rejects s c :
  In c (list_ascii_of_string s) → float_char c = false →
  Py.float_of_str s = Raise ValueError.
Proof.
  intros Hc Hf. unfold float_char in Hf.
  apply orb_false_iff in Hf as [Hf Hlet]. apply orb_false_iff in Hf as [Hf Hpt].
  apply orb_false_iff in Hf as [Hf Hun]. apply orb_false_iff in Hf as [Hf Hmi].
  apply orb_false_iff in Hf as [Hf Hpl]. apply orb_false_iff in Hf as [Hsp Hdg].
  assert (∀ name, forallb (λ x, existsb (Ascii.eqb x)
                     ["e"; "i"; "n"; "f"; "t"; "y"; "a"]%char)
                    (list_ascii_of_string name) = true →
          ∀ r, In c r →
          String.eqb (string_of_list_ascii (map Str.lower r)) name = false)
    as Hname.
  { intros name Hall r Hr.
    destruct (String.eqb _ name) eqn:Hn; [|done].
    apply (lower_name _ _ c Hn) in Hr.
    rewrite forallb_forall in Hall. apply Hall in Hr. congruence. }
  assert (Ascii.eqb (Str.lower c) "e" = false) as He.
  { simpl in Hlet. by apply orb_false_iff in Hlet as [? _]. }
  destruct (Py.float_of_str s) as [z|e] eqn:Hz;
    [|by rewrite (float_of_str_error _ _ Hz)].
  exfalso. unfold Py.float_of_str in Hz.
  pose proof (strip_keeps _ c Hc Hsp) as Hs.
  destruct (Str.drop_underscores Py.NUL _) as [l|] eqn:Hd; [|discriminate].
  pose proof (drop_underscores_keeps _ _ _ c Hd Hs Hun) as Hl.
  pose proof (sign_keeps _ c Hl Hpl Hmi) as Hr.
  destruct (Str.sign l) as [neg r]. simpl in Hr.
  rewrite (Hname "inf" eq_refl r Hr), (Hname "infinity" eq_refl r Hr),
    (Hname "nan" eq_refl r Hr) in Hz. simpl in Hz.
  pose proof (digits_keeps _ _ Hr Hdg) as H1.
  destruct (Str.digits r) as [ip r1]. simpl in H1.
  assert (∀ fp r2,
    match r1 with
    | "."%char :: r' => Str.digits r'
    | _ => ([], r1)
    end = (fp, r2) → In c r2) as H2.
  { intros fp r2 Heq. destruct r1 as [|x r1]; [done|].
    destruct (Ascii.eqb_spec x ".") as [->|Hx].
    - destruct H1 as [<-|H1]; [done|].
      apply (digits_keeps _ _ H1) in Hdg. by rewrite Heq in Hdg.
    - assert ((fp, r2) = ([], x :: r1)) as [= -> ->]; [|done].
      rewrite <- Heq. clear -Hx.
      destruct x as [[] [] [] [] [] [] [] []]; try done. }
  destruct (match r1 with "."%char :: r' => Str.digits r' | _ => ([], r1) end)
    as [fp r2] eqn:Heq.
  specialize (H2 _ _ eq_refl).
  pose proof (exponent_keeps _ _ H2 He Hdg Hpl Hmi) as H3.
  destruct (ip ++ fp)%list; [discriminate|].
  destruct (Py.exponent r2) as [ex [|y rest]]; [done | discriminate].
Qed.

(** X10.  A unit must stand apart from the number.  When the parser
    returns on a string in which "mph" or "knots" occurs, the first
    blank-separated word of the string holds neither unit and is the
    literal that was read; the result is that number, converted from
    knots only when "mph" does not occur.  So "35mph", whose first word
    is the whole string, is never parsed. *)
Theorem parse_speed_unit_apart s v :
  Str.contains "mph" s = true ∨ Str.contains "knots" s = true →
  parse_speed (Atom (PyStr s)) = Ok v →
  ∃ w f, Str.first_word s = Ok w ∧ Py.float_of_str w = Ok f
    ∧ Str.contains "mph" w = false ∧ Str.contains "knots" w = false
    ∧ v = Atom (PyFloat (if Str.contains "mph" s then f
                         else knots_to_mph f)).
Proof.
  intros Hu H. simpl in H.
  assert (∀ w f, Py.float_of_str w = Ok f →
            Str.contains "mph" w = false ∧ Str.contains "knots" w = false)
    as Hw.
  { intros w f Hf. split.
    - destruct (Str.contains "mph" w) eqn:Hc; [|done].
      apply contains_head in Hc.
      rewrite (float_of_str_rejects w "m" Hc eq_refl) in Hf. discriminate.
    - destruct (Str.contains "knots" w) eqn:Hc; [|done].
      apply contains_head in Hc.
      rewrite (float_of_str_rejects w "k" Hc eq_refl) in Hf. discriminate. }
  destruct (Str.contains "mph" s) eqn:Hm.
  - apply bind_Ok in H as (w & Hfw & H). apply bind_Ok in H as (f & Hf & H).
    injection H as <-. exists w, f. destruct (Hw w f Hf). done.
  - destruct Hu as [|Hk]; [done|]. rewrite Hk in H.
    apply bind_Ok in H as (w & Hfw & H). apply bind_Ok in H as (f & Hf & H).
    injection H as <-. exists w, f. destruct (Hw w f Hf). done.
Qed.

Lemma parse_speed_unit_apart_witness :
  ∃ w f, Str.first_word "10 knots" = Ok w ∧ Py.float_of_str w = Ok f
    ∧ Str.contains "mph" w = false ∧ Str.contains "knots" w = false
    ∧ Atom (PyFloat 11.5078)
      = Atom (PyFloat (if Str.contains "mph" "10 knots" then f
                       else knots_to_mph f)).
Proof.
  apply (parse_speed_unit_apart "10 knots" (Atom (PyFloat 11.5078))).
  - right. reflexivity.
  - vm_compute. reflexivity.
Defined.

Example parse_speed_glued_unit :
  parse_speed (Atom (PyStr "35mph")) = Raise ValueError.
Proof. vm_compute. reflexivity. Qed.

Lemma append_ne key x : x ≠ "" → (key ++ x)%string ≠ key.
Proof.
  intros Hx. induction key as [|a key IH]; simpl; [done|].
  intros [= H]. by apply IH.
Qed.

Lemma parse_speed_float_or_none x v :
  parse_speed x = Ok v → pd.is_float_or_none v = true.
Proof.
  destruct x as [[|s|z|f]|l]; simpl; intros H.
  - discriminate.
  - repeat case_match;
      repeat (apply bind_Ok in H as (? & _ & H)); by injection H as <-.
  - apply bind_Ok in H as (b & _ & H). destruct b; by injection H as <-.
  - destruct (is_nan f); by injection H as <-.
  - apply bind_Ok in H as (b & _ & H). destruct b; by injection H as <-.
Qed.

Lemma existsb_fmap {A B} (p : B → bool) (g : A → B) (l : list A) :
  existsb p (g <$> l) = existsb (λ x, p (g x)) l.
Proof. induction l as [|x l IH]; [done|]. csimpl. by rewrite IH. Qed.

Lemma existsb_ext_in {A} (p q : A → bool) (l : list A) :
  Forall (λ x, p x = q x) l → existsb p l = existsb q l.
Proof. induction 1 as [|x l Hx _ IH]; simpl; [done|]. by rewrite Hx, IH. Qed.

Lemma infer_parsed key (l : list Row) :
  Forall (λ r, is_ok (parse_speed (cell key r)) = true) l →
  pd.infer_floats ((λ r, val NaN (parse_speed (cell key r))) <$> l)
  = (λ r, stored_speed (existsb (parses_float key) l)
            (val NaN (parse_speed (cell key r)))) <$> l.
Proof.
  intros Hok. unfold pd.infer_floats.
  assert (forallb pd.is_float_or_none
            ((λ r, val NaN (parse_speed (cell key r))) <$> l) = true) as ->.
  { apply forallb_forall. intros v Hv%list_elem_of_In.
    apply list_elem_of_fmap in Hv as (r & -> & Hr).
    rewrite Forall_forall in Hok. specialize (Hok r Hr).
    destruct (parse_speed (cell key r)) as [v|] eqn:Hp; [|done].
    by apply (parse_speed_float_or_none (cell key r)). }
  rewrite andb_true_r, existsb_fmap.
  rewrite (existsb_ext_in _ (parses_float key)).
  - unfold stored_speed. destruct (existsb (parses_float key) l); [|done].
    by rewrite <- list_fmap_compose.
  - eapply Forall_impl; [exact Hok|]. intros r. unfold parses_float.
    destruct (parse_speed (cell key r)) as [[[]|]|]; done.
Qed.

Lemma clean_speeds_spec df key units newkey df' :
  clean_speeds df key units newkey = Ok df' ↔
  pd.has_column df key = true
  ∧ Forall (λ r, is_ok (parse_speed (cell key r)) = true) (rows df)
  ∧ df' = pd.setitem df (default (key ++ "_" ++ units)%string newkey)
            ((λ r, stored_speed (existsb (parses_float key) (rows df))
                     (val NaN (parse_speed (cell key r)))) <$> rows df).
Proof.
  unfold clean_speeds, pd.getitem.
  destruct (pd.has_column df key); run; [|by split; [|intros [? _]]].
  unfold pd.apply. rewrite mapM_fmap. split.
  - intros H. apply bind_Ok in H as (parsed & Hp & [= <-]).
    apply (mapM_Ok_fmap NaN) in Hp as [-> Hp].
    rewrite infer_parsed by done. by destruct newkey.
  - intros (_ & Hp & ->). rewrite (mapM_total NaN _ _ Hp). run.
    rewrite infer_parsed by done. by destruct newkey.
Qed.

(** X11.  When [clean_speeds] returns, every speed of the column [key]
    has been parsed and the results stand in the target column, which is
    [newkey] when one is given and the name [key_units] otherwise; no
    other cell has changed, and [units] has no part in the values.  The
    target holds each result as the column stores it: where the parser
    returned a float for some edge, the [None] it returned for a present
    number is stored as NaN.  Without a [newkey] the column [key] itself
    is left as it was. *)
Theorem clean_speeds_edges df key units newkey df' :
  clean_speeds df key units newkey = Ok df' →
  let target := default (key ++ "_" ++ units)%string newkey in
  columns df' = pd.with_column (columns df) target
  ∧ Forall2
      (λ r r',
         label r' = label r
         ∧ (∀ c, c ≠ target → cells r' !! c = cells r !! c)
         ∧ ∃ v, parse_speed (cell key r) = Ok v
             ∧ cell target r'
               = stored_speed (existsb (parses_float key) (rows df)) v)
      (rows df) (rows df')
  ∧ (∀ units', clean_speeds df key units' (Some target) = Ok df')
  ∧ (newkey = None → pd.getitem df' key = pd.getitem df key).
Proof.
  intros H target. pose proof H as H'.
  apply clean_speeds_spec in H as (Hk & Hok & ->). fold target in H' |- *.
  split; [done|]. split; [|split].
  - rewrite (rows_setitem df). apply Forall2_fmap_in. intros r Hr.
    split; [done|]. split; [intros c Hc; by apply same_cells_set_cell|].
    exists (val NaN (parse_speed (cell key r))).
    rewrite cell_set_cell_eq. split; [|done]. apply is_ok_val.
    rewrite Forall_forall in Hok. by apply Hok.
  - intros units'. apply clean_speeds_spec. done.
  - intros ->. subst target. simpl default.
    assert ((key ++ "_" ++ units)%string ≠ key) as Hne
      by (by apply append_ne).
    rewrite (getitem_has df key Hk).
    rewrite getitem_has
      by (rewrite has_column_setitem, Hk; apply orb_true_l).
    rewrite (rows_setitem df), cell_rows_ne by done. done.
Qed.

Lemma clean_speeds_edges_witness :
  ∃ df', clean_speeds mixed_speed_edges "maxspeed" "mph" None = Ok df'
  ∧ let target := default ("maxspeed" ++ "_" ++ "mph")%string None in
    columns df' = pd.with_column (columns mixed_speed_edges) target
    ∧ Forall2
        (λ r r',
           label r' = label r
           ∧ (∀ c, c ≠ target → cells r' !! c = cells r !! c)
           ∧ ∃ v, parse_speed (cell "maxspeed" r) = Ok v
               ∧ cell target r'
                 = stored_speed
                     (existsb (parses_float "maxspeed")
                        (rows mixed_speed_edges)) v)
        (rows mixed_speed_edges) (rows df')
    ∧ (∀ units', clean_speeds mixed_speed_edges "maxspeed" units'
                   (Some target) = Ok df')
    ∧ (@None string = None →
       pd.getitem df' "maxspeed" = pd.getitem mixed_speed_edges "maxspeed").
Proof.
  eexists. split; [reflexivity|].
  apply (clean_speeds_edges mixed_speed_edges "maxspeed" "mph" None).
  reflexivity.
Defined.

(** A present number beside a speed with a unit: the parser answers
    [None] and 35.0, the column holds NaN and 35.0. *)
Example clean_speeds_stores_nan :
  (d ← clean_speeds mixed_speed_edges "maxspeed" "mph" None;
   pd.getitem d "maxspeed_mph") = Ok [NaN; Atom (PyFloat 35)].
Proof. vm_compute. reflexivity. Qed.

(** ** The scorers, edge by edge *)

Lemma frame_ext d d' : columns d = columns d' → rows d = rows d' → d = d'.
Proof. destruct d, d'. simpl. by intros -> ->. Qed.

Lemma columns_resolved_scored df v1 v2 :
  columns (pd.setitem (pd.setitem (resolved_frame df) "rule" v1) "lts" v2)
  = foldl pd.with_column (columns df)
      ["lanes_assumed"; "maxspeed_assumed"; "rule"; "lts"].
Proof.
  unfold resolved_frame. simpl. by rewrite with_column_idem.
Qed.

Lemma columns_coerced_scored df v1 v2 :
  columns (pd.setitem (pd.setitem (coerced_frame df) "rule" v1) "lts" v2)
  = foldl pd.with_column (columns df)
      ["lanes_assumed"; "maxspeed_assumed"; "width"; "rule"; "lts"].
Proof.
  unfold coerced_frame, resolved_frame. simpl. by rewrite with_column_idem.
Qed.

Lemma score_spec s df df' :
  score s df = Ok df' ↔
  scorable s df = true
  ∧ df' = {| columns := out_columns s (columns df);
             rows := edge_out s <$> rows df |}.
Proof.
  destruct s; cbn [score scorable].
  - rewrite with_parking_spec.
    split; intros [Hs ->]; (split; [done|]); apply frame_ext;
      cbn [rows columns]; rewrite ?columns_resolved_scored, ?rows_scored;
      done.
  - rewrite no_parking_spec.
    assert (rows (pd.setitem
              (pd.setitem (coerced_frame df) "rule"
                 ((λ r, Atom (PyStr (fst (no_parking_score r)))) <$> rows df))
              "lts"
              ((λ r, Atom (PyInt (snd (no_parking_score r)))) <$> rows df))
            = edge_out NoParking <$> rows df) as Hrows.
    { erewrite (rows_setitem_over _ "lts"); [done|].
      by rewrite (rows_setitem_over _ _ coerced _ _ (rows_coerced_frame df)). }
    split; intros [Hs ->]; (split; [done|]); apply frame_ext;
      cbn [rows columns]; rewrite ?columns_coerced_scored, ?Hrows; done.
  - rewrite mixed_spec.
    split; intros [Hs ->]; (split; [done|]); apply frame_ext;
      cbn [rows columns]; rewrite ?columns_resolved_scored, ?rows_scored;
      done.
Qed.

Lemma scorable_resolvable s df : scorable s df = true → resolvable df = true.
Proof.
  destruct s; cbn [scorable]; unfold scorable_with_parking,
    scorable_no_parking, scorable_mixed; rewrite !andb_true_iff; tauto.
Qed.

Lemma cell_coerced_width r :
  cell "width" (coerced r) = coerce_width (cell "width" r).
Proof. apply cell_set_cell_eq. Qed.

Lemma cell_out_rule s r :
  cell "rule" (edge_out s r) = Atom (PyStr (fst (edge_rule s r))).
Proof. apply cell_scored_rule. Qed.

Lemma cell_out_lts s r :
  cell "lts" (edge_out s r) = Atom (PyInt (snd (edge_rule s r))).
Proof. apply cell_scored_lts. Qed.

Lemma cell_out_other s c r :
  c ≠ "rule" → c ≠ "lts" → cell c (edge_out s r) = cell c (edge_in s r).
Proof. intros. unfold edge_out. by rewrite !cell_set_cell_ne. Qed.



(** X13.  When the mixed-traffic scorer returns, every edge has a
    resolved lane count and speed, one of the sixteen rules matches it,
    and its [rule] and [lts] cells hold the id and the score of the first
    that does, in the order m17, m13, m14, m2, m15, m3, m4, m16, m5, m6,
    m7, m8, m9, m10, m11, m12.  The default id m0 is never written. *)
Theorem mixed_traffic_first_match df df' :
  mixed_traffic df = Ok df' →
  Forall2
    (λ r r', ∃ la ms rule z,
       lanes_of r = Ok la ∧ speed_of r = Ok ms
       ∧ mixed_table la ms (cell "motor_vehicle" r) (cell "highway" r)
           (cell "footway" r) (cell "service" r) = (rule, Some z)
       ∧ rule ≠ "m0"
       ∧ r' = scored r rule z
       ∧ cell "rule" r' = Atom (PyStr rule)
       ∧ cell "lts" r' = Atom (PyInt z))
    (rows df) (rows df').
Proof.
  intros H. apply (score_spec MixedTraffic) in H as [Hs ->].
  apply scorable_resolvable in Hs. cbn [rows].
  apply Forall2_fmap_in. intros r Hr.
  destruct (resolvable_row df r Hs Hr) as [Hl Hm].
  destruct (mixed_table_total (val 0 (lanes_of r)) (val 0 (speed_of r))
              (cell "motor_vehicle" r) (cell "highway" r)
              (cell "footway" r) (cell "service" r)) as (z & Hz & _).
  exists (val 0 (lanes_of r)), (val 0 (speed_of r)),
    (fst (mixed_score r)), z.
  split; [done|]. split; [done|].
  assert (snd (edge_rule MixedTraffic r) = z) as Hz'.
  { cbn [edge_rule snd]. unfold mixed_score. by rewrite Hz. }
  split; [|split; [|split; [|split]]].
  - unfold mixed_score. rewrite <- Hz. by destruct (mixed_table _ _ _ _ _ _).
  - unfold mixed_score. intros H0. revert Hz H0. unfold mixed_table.
    repeat match goal with
           | |- context [if ?c then _ else _] => destruct c
           end; simpl; congruence.
  - unfold edge_out. rewrite Hz'. done.
  - apply (cell_out_rule MixedTraffic).
  - rewrite <- Hz'. apply (cell_out_lts MixedTraffic).
Qed.

Lemma mixed_traffic_first_match_witness :
  ∃ df', mixed_traffic example_edges = Ok df'
  ∧ Forall2
    (λ r r', ∃ la ms rule z,
       lanes_of r = Ok la ∧ speed_of r = Ok ms
       ∧ mixed_table la ms (cell "motor_vehicle" r) (cell "highway" r)
           (cell "footway" r) (cell "service" r) = (rule, Some z)
       ∧ rule ≠ "m0"
       ∧ r' = scored r rule z
       ∧ cell "rule" r' = Atom (PyStr rule)
       ∧ cell "lts" r' = Atom (PyInt z))
    (rows example_edges) (rows df').
Proof.
  eexists. split; [reflexivity|].
  apply (mixed_traffic_first_match example_edges). reflexivity.
Defined.

(** X14.  Text in the width column stops the lane-with-parking scorer
    and not the lane-without-parking scorer.  On a frame whose lanes and
    speeds resolve and which has a width column, one edge with a textual
    width makes the first raise [TypeError], the comparison of a string
    with a number; the second replaces the text before it compares and
    returns, provided every width is a number or text. *)
Theorem textual_width df r s :
  resolvable df = true → pd.has_column df "width" = true →
  r ∈ rows df → cell "width" r = Atom (PyStr s) →
  bike_lane_analysis_with_parking df = Raise TypeError
  ∧ (Forall (λ r, is_number (cell "width" r)
                  || Py.isinstance_str (cell "width" r) = true) (rows df) →
     ∃ df', bike_lane_analysis_no_parking df = Ok df').
Proof.
  intros Hres Hw Hr Hs. split.
  - rewrite with_parking_eval, Hw by done.
    destruct (forallb _ (rows df)) eqn:Hall; [|done].
    rewrite forallb_forall in Hall.
    apply list_elem_of_In, Hall in Hr. by rewrite Hs in Hr.
  - intros Hall. rewrite no_parking_eval, Hw by done.
    destruct (forallb _ (rows df)) eqn:Hn; [by eexists|].
    exfalso. apply not_true_iff_false in Hn. apply Hn.
    apply forallb_forall. intros x Hx%list_elem_of_In.
    rewrite Forall_forall in Hall. specialize (Hall x Hx).
    unfold coerce_width.
    destruct (Py.isinstance_str (cell "width" x)); [done|].
    by rewrite orb_false_r in Hall.
Qed.

Lemma textual_width_witness :
  bike_lane_analysis_with_parking text_width_edges = Raise TypeError
  ∧ (Forall (λ r, is_number (cell "width" r)
                  || Py.isinstance_str (cell "width" r) = true)
       (rows text_width_edges) →
     ∃ df', bike_lane_analysis_no_parking text_width_edges = Ok df').
Proof.
  apply (textual_width text_width_edges
           (edge 0 [("highway", Atom (PyStr "residential"));
                    ("width", Atom (PyStr "3 m"))]) "3 m").
  - reflexivity.
  - reflexivity.
  - apply list_elem_of_In. left. reflexivity.
  - reflexivity.
Defined.

Lemma same_cells_resolved r c :
  c ≠ "lanes_assumed" → c ≠ "maxspeed_assumed" →
  cells (resolved r) !! c = cells r !! c.
Proof. intros. unfold resolved. by rewrite !same_cells_set_cell. Qed.

Lemma same_cells_in s r c :
  c ∉ columns_written s → cells (edge_in s r) !! c = cells r !! c.
Proof.
  intros Hc.
  assert (c ≠ "lanes_assumed" ∧ c ≠ "maxspeed_assumed") as [? ?].
  { split; intros ->; apply Hc; destruct s; repeat constructor. }
  destruct s; cbn [edge_in]; try by apply same_cells_resolved.
  unfold coerced. rewrite same_cells_set_cell, same_cells_resolved; try done.
  intros ->. apply Hc. repeat constructor.
Qed.

(** X15.  A scorer that returns keeps the edges: same number, same
    order, same labels, and every cell outside the columns it writes
    ([lanes_assumed], [maxspeed_assumed], [rule], [lts], and [width] for
    the lane-without-parking scorer) as it was.  The schema is the
    input's with the written columns added where they were not there,
    and a width that is not text reads as before. *)
Theorem scorers_keep_edges s df df' :
  score s df = Ok df' →
  columns df' = out_columns s (columns df)
  ∧ (∀ c, pd.has_column df c = true → pd.has_column df' c = true)
  ∧ Forall2
      (λ r r',
         label r' = label r
         ∧ (∀ c, c ∉ columns_written s → cells r' !! c = cells r !! c)
         ∧ (Py.isinstance_str (cell "width" r) = false →
            cell "width" r' = cell "width" r))
      (rows df) (rows df').
Proof.
  intros H. apply score_spec in H as [_ ->]. cbn [columns rows].
  split; [done|]. split.
  - intros c Hc. unfold pd.has_column in *. cbn [columns].
    unfold out_columns.
    destruct s; simpl; rewrite !has_with_column, Hc; done.
  - apply Forall2_fmap_in. intros r _. split; [by destruct s|]. split.
    + intros c Hc. unfold edge_out.
      rewrite !same_cells_set_cell, same_cells_in; try done;
        intros ->; apply Hc; destruct s; repeat constructor.
    + intros Hw. rewrite cell_out_other by done.
      destruct s; cbn [edge_in];
        rewrite ?cell_coerced_width, ?cell_resolved_other by done; try done.
      unfold coerce_width. by rewrite Hw.
Qed.

Lemma scorers_keep_edges_witness :
  ∃ df', score NoParking text_width_edges = Ok df'
  ∧ columns df' = out_columns NoParking (columns text_width_edges)
  ∧ (∀ c, pd.has_column text_width_edges c = true →
          pd.has_column df' c = true)
  ∧ Forall2
      (λ r r',
         label r' = label r
         ∧ (∀ c, c ∉ columns_written NoParking →
                 cells r' !! c = cells r !! c)
         ∧ (Py.isinstance_str (cell "width" r) = false →
            cell "width" r' = cell "width" r))
      (rows text_width_edges) (rows df').
Proof.
  eexists. split; [reflexivity|].
  apply (scorers_keep_edges NoParking text_width_edges). reflexivity.
Defined.

(** ** More lanes, more speed *)

Ltac arith_atoms :=
  repeat match goal with
         | |- context [Z.leb ?a ?b] =>
             destruct (Z.leb_spec a b); try (exfalso; lia)
         | |- context [Z.ltb ?a ?b] =>
             destruct (Z.ltb_spec a b); try (exfalso; lia)
         end.

Ltac table_cases :=
  arith_atoms; cbn [andb negb];
  repeat match goal with
         | |- context [if ?c then _ else _] => destruct c
         end;
  cbn [snd default from_option id]; lia.

Lemma with_parking_table_lanes la la' ms w hw :
  la ≤ la' →
  snd (with_parking_table la ms w hw) ≤ snd (with_parking_table la' ms w hw).
Proof. intros Hla. unfold with_parking_table. table_cases. Qed.

Lemma no_parking_table_lanes la la' ms w hw :
  la ≤ la' →
  snd (no_parking_table la ms w hw) ≤ snd (no_parking_table la' ms w hw).
Proof. intros Hla. unfold no_parking_table. table_cases. Qed.

Lemma mixed_table_lanes la la' ms mv hw fw sv :
  la ≤ la' →
  default 0 (snd (mixed_table la ms mv hw fw sv))
  ≤ default 0 (snd (mixed_table la' ms mv hw fw sv)).
Proof. intros Hla. unfold mixed_table. table_cases. Qed.

Lemma mixed_table_speed la ms ms' mv hw fw sv :
  ms ≤ ms' →
  default 0 (snd (mixed_table la ms mv hw fw sv))
  ≤ default 0 (snd (mixed_table la ms' mv hw fw sv)).
Proof. intros Hms. unfold mixed_table. table_cases. Qed.

Lemma lanes_of_ext r1 r2 :
  cell "lanes" r1 = cell "lanes" r2 → lanes_of r1 = lanes_of r2.
Proof. unfold lanes_of, lanes_assumed_of. by intros ->. Qed.

Lemma speed_of_ext r1 r2 :
  cell "maxspeed" r1 = cell "maxspeed" r2 →
  cell "highway" r1 = cell "highway" r2 → speed_of r1 = speed_of r2.
Proof.
  unfold speed_of, maxspeed_assumed_of, maxspeed_choice. by intros -> ->.
Qed.

Lemma scored_rows s df d :
  score s df = Ok d →
  rows d = edge_out s <$> rows df
  ∧ ∀ r, r ∈ rows df →
      lanes_of r = Ok (val 0 (lanes_of r))
      ∧ speed_of r = Ok (val 0 (speed_of r)).
Proof.
  intros H. apply score_spec in H as [Hs ->]. split; [done|].
  intros r Hr. by apply (resolvable_row df), Hr; eapply scorable_resolvable.
Qed.

Lemma no_lower_scores_intro s df1 df2 d1 d2 :
  score s df1 = Ok d1 → score s df2 = Ok d2 →
  Forall2 (λ r1 r2, snd (edge_rule s r1) ≤ snd (edge_rule s r2))
    (rows df1) (rows df2) →
  no_lower_scores d1 d2.
Proof.
  intros [E1 _]%scored_rows [E2 _]%scored_rows H.
  unfold no_lower_scores. rewrite E1, E2. apply Forall2_fmap.
  eapply Forall2_impl; [exact H|]. intros r1 r2 Hle. cbn beta.
  exists (snd (edge_rule s r1)), (snd (edge_rule s r2)).
  by rewrite !cell_out_lts.
Qed.

(** X16.  More lanes never give a lower score.  Take two frames with
    the same edges up to the lane cell, the lane count of each edge of
    the second resolving to no less than in the first: when a scorer
    returns on both, the score of every edge of the second is no lower
    than the score of the edge it stands for in the first. *)
Theorem more_lanes_no_lower_score s df1 df2 d1 d2 :
  score s df1 = Ok d1 → score s df2 = Ok d2 →
  more_of "lanes" lanes_of df1 df2 → no_lower_scores d1 d2.
Proof.
  intros H1 H2 Hm. apply (no_lower_scores_intro s df1 df2); try done.
  eapply Forall2_impl; [exact Hm|]. cbn beta.
  intros r1 r2 (Hd & a & b & Ha & Hb & Hab).
  assert (speed_of r1 = speed_of r2) as Hsp by (apply speed_of_ext; by apply Hd).
  destruct s; cbn [edge_rule snd];
    unfold with_parking_score, no_parking_score, mixed_score;
    rewrite Ha, Hb, Hsp, ?(Hd "width"), ?(Hd "highway"),
      ?(Hd "motor_vehicle"), ?(Hd "footway"), ?(Hd "service") by done;
    cbn [val].
  - by apply with_parking_table_lanes.
  - by apply no_parking_table_lanes.
  - by apply mixed_table_lanes.
Qed.

Lemma street_edge_differ c hw la la' ms ms' w :
  (c = "lanes" ∧ ms = ms') ∨ (c = "maxspeed" ∧ la = la') →
  differ_at c
    (edge 0 [("highway", Atom (PyStr hw)); ("lanes", Atom (PyInt la));
             ("maxspeed", Atom (PyInt ms)); ("width", Atom (PyFloat w))])
    (edge 0 [("highway", Atom (PyStr hw)); ("lanes", Atom (PyInt la'));
             ("maxspeed", Atom (PyInt ms')); ("width", Atom (PyFloat w))]).
Proof.
  intros Hc k Hk. unfold cell, edge. simpl.
  rewrite !lookup_insert.
  repeat case_decide; try done; destruct Hc as [[-> ->]|[-> ->]]; congruence.
Qed.

Lemma more_lanes_no_lower_score_witness :
  ∃ d1 d2,
    score WithParking (street "primary" 2 50 5) = Ok d1
    ∧ score WithParking (street "primary" 4 50 5) = Ok d2
    ∧ no_lower_scores d1 d2.
Proof.
  eexists _, _. split; [reflexivity|]. split; [reflexivity|].
  apply (more_lanes_no_lower_score WithParking
           (street "primary" 2 50 5) (street "primary" 4 50 5)).
  - reflexivity.
  - reflexivity.
  - repeat constructor.
    + apply street_edge_differ. by left.
    + exists 2, 4. split; [reflexivity|]. split; [reflexivity | lia].
Defined.

Lemma mixed_more_speed df1 df2 d1 d2 :
  mixed_traffic df1 = Ok d1 → mixed_traffic df2 = Ok d2 →
  more_of "maxspeed" speed_of df1 df2 → no_lower_scores d1 d2.
Proof.
  intros H1 H2 Hm.
  apply (no_lower_scores_intro MixedTraffic df1 df2); try done.
  destruct (scored_rows MixedTraffic _ _ H1) as [_ Hr1].
  destruct (scored_rows MixedTraffic _ _ H2) as [_ Hr2].
  unfold more_of in Hm. revert Hr1 Hr2.
  induction Hm as [|r1 r2 l1 l2 (Hd & a & b & Ha & Hb & Hab) _ IH];
    intros Hr1 Hr2; constructor.
  - destruct (Hr1 r1) as [Hl1 _]; [by left|].
    destruct (Hr2 r2) as [Hl2 _]; [by left|].
    assert (lanes_of r1 = lanes_of r2) as Hla
      by (apply lanes_of_ext; by apply Hd).
    cbn [edge_rule snd]. unfold mixed_score.
    rewrite Ha, Hb, Hla, (Hd "highway"), (Hd "motor_vehicle"),
      (Hd "footway"), (Hd "service") by done.
    cbn [val]. by apply mixed_table_speed.
  - apply IH; intros r Hr; [apply Hr1 | apply Hr2]; by right.
Qed.

Lemma no_lower_scores_rule s df1 df2 r1 r2 d1 d2 :
  score s df1 = Ok d1 → score s df2 = Ok d2 →
  rows df1 = [r1] → rows df2 = [r2] →
  no_lower_scores d1 d2 → snd (edge_rule s r1) ≤ snd (edge_rule s r2).
Proof.
  intros [E1 _]%scored_rows [E2 _]%scored_rows Hr1 Hr2.
  unfold no_lower_scores. rewrite E1, E2, Hr1, Hr2.
  intros [(z1 & z2 & Hz1 & Hz2 & Hle) _]%Forall2_cons_1.
  rewrite cell_out_lts in Hz1, Hz2. congruence.
Qed.

Lemma speed_counterexample s hw la ms ms' w :
  scorable s (street hw la ms w) = true →
  scorable s (street hw la ms' w) = true →
  speed_of (edge 0 [("highway", Atom (PyStr hw)); ("lanes", Atom (PyInt la));
                    ("maxspeed", Atom (PyInt ms));
                    ("width", Atom (PyFloat w))]) = Ok ms →
  speed_of (edge 0 [("highway", Atom (PyStr hw)); ("lanes", Atom (PyInt la));
                    ("maxspeed", Atom (PyInt ms'));
                    ("width", Atom (PyFloat w))]) = Ok ms' →
  ms ≤ ms' →
  monotone_in_speed s →
  snd (edge_rule s
         (edge 0 [("highway", Atom (PyStr hw)); ("lanes", Atom (PyInt la));
                  ("maxspeed", Atom (PyInt ms));
                  ("width", Atom (PyFloat w))]))
  ≤ snd (edge_rule s
           (edge 0 [("highway", Atom (PyStr hw)); ("lanes", Atom (PyInt la));
                    ("maxspeed", Atom (PyInt ms'));
                    ("width", Atom (PyFloat w))])).
Proof.
  intros H1 H2 Hs1 Hs2 Hle Hmono.
  assert (∀ df, scorable s df = true → ∃ d, score s df = Ok d) as Hret.
  { intros df Hdf. eexists. apply score_spec. by split. }
  destruct (Hret _ H1) as [d1 E1]. destruct (Hret _ H2) as [d2 E2].
  apply (no_lower_scores_rule s _ _ _ _ d1 d2 E1 E2 eq_refl eq_refl).
  apply (Hmono _ _ _ _ E1 E2). repeat constructor.
  - apply street_edge_differ. by right.
  - by exists ms, ms'.
Qed.

(** X17.  Of the three scorers only the mixed-traffic one is monotone
    in speed.  With the edges otherwise unchanged, a higher resolved
    speed never lowers a mixed-traffic score; but a primary road with two
    lanes and a wide lane beside parking scores 3 at 30 and 2 at 45, and
    a primary road with three lanes and a narrow lane without parking
    scores 3 at 60 and 2 at 70. *)
Theorem speed_monotone_only_mixed s :
  monotone_in_speed s ↔ s = MixedTraffic.
Proof.
  split.
  - intros H. destruct s; [exfalso | exfalso | done].
    + pose proof (speed_counterexample WithParking "primary" 2 30 45 5
                    eq_refl eq_refl eq_refl eq_refl ltac:(lia) H) as Hle.
      vm_compute in Hle. by apply Hle.
    + pose proof (speed_counterexample NoParking "primary" 3 60 70 1.5
                    eq_refl eq_refl eq_refl eq_refl ltac:(lia) H) as Hle.
      vm_compute in Hle. by apply Hle.
  - intros -> df1 df2 d1 d2. apply mixed_more_speed.
Qed.

(** ** Scoring twice *)

Lemma with_column_has cols c :
  existsb (String.eqb c) cols = true → pd.with_column cols c = cols.
Proof. unfold pd.with_column. by intros ->. Qed.

Lemma has_foldl_with_column cs cols c :
  existsb (String.eqb c) (foldl pd.with_column cols cs)
  = existsb (String.eqb c) cols || existsb (String.eqb c) cs.
Proof.
  revert cols. induction cs as [|x cs IH]; intros cols; simpl.
  - by rewrite orb_false_r.
  - rewrite IH, has_with_column. by rewrite orb_assoc.
Qed.

Lemma foldl_with_column_has cs cols :
  Forall (λ c, existsb (String.eqb c) cols = true) cs →
  foldl pd.with_column cols cs = cols.
Proof.
  induction 1 as [|c cs Hc _ IH]; simpl; [done|].
  by rewrite with_column_has.
Qed.

Lemma out_columns_twice s cols :
  out_columns s (out_columns s cols) = out_columns s cols.
Proof.
  unfold out_columns at 1. apply foldl_with_column_has, Forall_forall.
  intros c Hc. unfold out_columns. rewrite has_foldl_with_column.
  apply orb_true_iff. right. apply existsb_exists. exists c.
  split; [by apply list_elem_of_In | apply String.eqb_refl].
Qed.

Lemma cell_in_other s c r :
  c ∉ columns_written s → cell c (edge_in s r) = cell c r.
Proof. intros Hc. unfold cell. by rewrite same_cells_in. Qed.

Lemma cell_out_read s c r :
  c ∈ ["lanes"; "maxspeed"; "highway"; "motor_vehicle"; "footway";
       "service"] →
  cell c (edge_out s r) = cell c r.
Proof.
  intros Hc.
  assert (c ≠ "rule" ∧ c ≠ "lts" ∧ c ∉ columns_written s) as (? & ? & ?).
  { repeat (apply elem_of_cons in Hc as [->|Hc]);
      try (by apply elem_of_nil in Hc);
      (split; [done|]; split; [done|]; destruct s; cbn [columns_written];
       rewrite !elem_of_cons, elem_of_nil; intros H;
       repeat destruct H as [H|H]; done). }
  by rewrite cell_out_other, cell_in_other.
Qed.

Lemma cell_out_width s r :
  cell "width" (edge_out s r)
  = match s with
    | NoParking => coerce_width (cell "width" r)
    | _ => cell "width" r
    end.
Proof.
  rewrite cell_out_other by done.
  destruct s; cbn [edge_in];
    rewrite ?cell_coerced_width, ?cell_resolved_other; done.
Qed.

Lemma coerce_width_twice x : coerce_width (coerce_width x) = coerce_width x.
Proof. unfold coerce_width. by destruct (Py.isinstance_str x) eqn:Hx; [|rewrite Hx]. Qed.

Lemma lanes_of_out s r : lanes_of (edge_out s r) = lanes_of r.
Proof. apply lanes_of_ext, cell_out_read. repeat constructor. Qed.

Lemma speed_of_out s r : speed_of (edge_out s r) = speed_of r.
Proof. apply speed_of_ext; apply cell_out_read; repeat constructor. Qed.

Lemma edge_rule_out s r : edge_rule s (edge_out s r) = edge_rule s r.
Proof.
  destruct s; cbn [edge_rule];
    unfold with_parking_score, no_parking_score, mixed_score;
    rewrite lanes_of_out, speed_of_out, ?cell_out_width,
      ?coerce_width_twice, !cell_out_read by repeat constructor; done.
Qed.

Lemma edge_out_twice s r : edge_out s (edge_out s r) = edge_out s r.
Proof.
  assert (∀ a b : Row, label a = label b → cells a = cells b → a = b) as Hext.
  { intros [] []. simpl. by intros -> ->. }
  apply Hext.
  { by destruct s. }
  unfold edge_out at 1. rewrite edge_rule_out.
  assert (cells (edge_in s (edge_out s r))
          = match s with
            | NoParking =>
                <["width" := coerce_width (cell "width" r)]>
                  (<["maxspeed_assumed" := Atom (PyInt (val 0 (speed_of r)))]>
                     (<["lanes_assumed" := Atom (PyInt (val 0 (lanes_of r)))]>
                        (cells (edge_out s r))))
            | _ =>
                <["maxspeed_assumed" := Atom (PyInt (val 0 (speed_of r)))]>
                  (<["lanes_assumed" := Atom (PyInt (val 0 (lanes_of r)))]>
                     (cells (edge_out s r)))
            end) as Hin.
  { destruct s; cbn [edge_in]; unfold coerced, resolved;
      rewrite ?lanes_of_out, ?speed_of_out, ?cell_out_width,
        ?coerce_width_twice; done. }
  cbn [set_cell cells]. rewrite Hin.
  apply map_eq. intros k.
  destruct s; unfold edge_out, edge_in, coerced, resolved;
    cbn [set_cell cells]; rewrite !lookup_insert;
    repeat case_decide; congruence.
Qed.

Lemma forallb_fmap_same {A} (p : A → bool) (g : A → A) (l : list A) :
  (∀ x, p (g x) = p x) → forallb p (g <$> l) = forallb p l.
Proof.
  intros H. induction l as [|x l IH]; [done|]. csimpl. by rewrite H, IH.
Qed.

Lemma has_column_out s df rs c :
  pd.has_column df c = true →
  pd.has_column {| columns := out_columns s (columns df); rows := rs |} c
  = true.
Proof.
  unfold pd.has_column, out_columns. cbn [columns].
  rewrite has_foldl_with_column. by intros ->.
Qed.

Lemma scorable_out s df :
  scorable s df = true →
  scorable s {| columns := out_columns s (columns df);
                rows := edge_out s <$> rows df |} = true.
Proof.
  assert (resolvable df = true →
          resolvable {| columns := out_columns s (columns df);
                        rows := edge_out s <$> rows df |} = true) as Hres.
  { unfold resolvable. rewrite !andb_true_iff. intros [[[Hl Hm] Hh] Hok].
    rewrite !has_column_out by done. cbn [rows].
    rewrite forallb_fmap_same
      by (intros r; by rewrite lanes_of_out, speed_of_out).
    done. }
  destruct s; cbn [scorable]; unfold scorable_with_parking,
    scorable_no_parking, scorable_mixed; rewrite !andb_true_iff.
  - intros [[Hr Hw] Hn]. rewrite Hres, has_column_out by done. cbn [rows].
    rewrite forallb_fmap_same by (intros r; by rewrite cell_out_width).
    done.
  - intros [[Hr Hw] Hn]. rewrite Hres, has_column_out by done. cbn [rows].
    rewrite forallb_fmap_same
      by (intros r; by rewrite cell_out_width, coerce_width_twice).
    done.
  - intros [[[Hr Hm] Hf] Hs]. by rewrite Hres, !has_column_out.
Qed.

(** X18.  Scoring twice changes nothing: a frame that a scorer has
    returned is accepted by the same scorer and returned as it is.  The
    columns written by the first run are written again with the same
    values, since lanes, speed, width and tags are read from cells the
    run does not alter, or alters only once. *)
Theorem score_twice s df d : score s df = Ok d → score s d = Ok d.
Proof.
  intros H. apply score_spec in H as [Hs ->]. apply score_spec.
  split; [by apply scorable_out|]. cbn [columns rows].
  rewrite out_columns_twice. f_equal.
  rewrite <- list_fmap_compose. apply list_fmap_ext.
  intros i r _. symmetry. apply edge_out_twice.
Qed.

Lemma score_twice_witness :
  ∃ d, score NoParking text_width_edges = Ok d ∧ score NoParking d = Ok d.
Proof.
  eexists. split; [reflexivity|].
  apply (score_twice NoParking text_width_edges). reflexivity.
Defined.

(** ** Scoring a part of a frame *)

Lemma forallb_take {A} (p : A → bool) (l : list A) (mask : list bool) :
  forallb p l = true → forallb p (pd.take l mask) = true.
Proof.
  rewrite !forallb_forall. intros H x Hx%list_elem_of_In.
  apply take_elem_of in Hx as (i & Hi & _).
  apply H, list_elem_of_In. by eapply list_elem_of_lookup_2.
Qed.

Lemma scorable_loc s df mask :
  scorable s df = true → scorable s (pd.loc df mask) = true.
Proof.
  assert (resolvable df = true → resolvable (pd.loc df mask) = true) as Hres.
  { unfold resolvable. rewrite !andb_true_iff. intros [[[Hl Hm] Hh] Hok].
    rewrite !has_column_loc. cbn [pd.loc rows]. by rewrite forallb_take. }
  destruct s; cbn [scorable]; unfold scorable_with_parking,
    scorable_no_parking, scorable_mixed; rewrite !andb_true_iff,
    !has_column_loc; cbn [pd.loc rows].
  - intros [[Hr Hw] Hn]. by rewrite Hres, forallb_take.
  - intros [[Hr Hw] Hn]. by rewrite Hres, forallb_take.
  - intros [[[Hr Hm] Hf] Hs]. by rewrite Hres.
Qed.

Lemma score_loc s df d mask :
  score s df = Ok d → score s (pd.loc df mask) = Ok (pd.loc d mask).
Proof.
  intros H. apply score_spec in H as [Hs ->]. apply score_spec.
  split; [by apply scorable_loc|]. unfold pd.loc. cbn [columns rows].
  by rewrite take_fmap.
Qed.

(** X19.  A score depends on the edge alone.  When a scorer returns on
    a frame, it returns on every selection of its rows, with the rows of
    the full result at the selected positions.  In particular the two
    parts into which the lane classifier or the parking classifier
    splits the frame are selections by a mask and its negation, and
    scoring either part gives that part of the scored frame. *)
Theorem score_of_parts s df d :
  score s df = Ok d →
  (∀ mask, score s (pd.loc df mask) = Ok (pd.loc d mask))
  ∧ ∀ k a b,
      k = LanePresence ∨ k = ParkingPresence →
      classify k df = Ok (a, b) →
      ∃ mask, length mask = length (rows df)
        ∧ a = pd.loc df mask ∧ b = pd.loc df (negb <$> mask)
        ∧ score s a = Ok (pd.loc d mask)
        ∧ score s b = Ok (pd.loc d (negb <$> mask)).
Proof.
  intros H. split; [intros mask; by apply score_loc|].
  intros k a b Hk Hc.
  assert (∃ p : Row → bool,
            a = {| columns := columns df; rows := List.filter p (rows df) |}
            ∧ b = {| columns := columns df;
                     rows := List.filter (λ r, negb (p r)) (rows df) |})
    as (p & -> & ->).
  { destruct Hk as [-> | ->]; cbn [classify] in Hc.
    - rewrite (is_bike_lane_rows df) in Hc.
      apply Ok_pair_inj in Hc as [<- <-]. by eexists.
    - rewrite (parking_present_rows df) in Hc.
      apply Ok_pair_inj in Hc as [<- <-]. by eexists. }
  exists (p <$> rows df).
  assert ({| columns := columns df; rows := List.filter p (rows df) |}
          = pd.loc df (p <$> rows df)) as ->.
  { unfold pd.loc. by rewrite take_self_fmap. }
  assert ({| columns := columns df;
             rows := List.filter (λ r, negb (p r)) (rows df) |}
          = pd.loc df (negb <$> (p <$> rows df))) as ->.
  { unfold pd.loc. rewrite <- list_fmap_compose.
    by rewrite (take_self_fmap (negb ∘ p)). }
  split; [by rewrite length_fmap|]. split; [done|]. split; [done|].
  split; by apply score_loc.
Qed.

Lemma score_of_parts_witness :
  ∃ d, score MixedTraffic example_edges = Ok d
  ∧ (∀ mask, score MixedTraffic (pd.loc example_edges mask)
             = Ok (pd.loc d mask))
  ∧ ∀ k a b,
      k = LanePresence ∨ k = ParkingPresence →
      classify k example_edges = Ok (a, b) →
      ∃ mask, length mask = length (rows example_edges)
        ∧ a = pd.loc example_edges mask
        ∧ b = pd.loc example_edges (negb <$> mask)
        ∧ score MixedTraffic a = Ok (pd.loc d mask)
        ∧ score MixedTraffic b = Ok (pd.loc d (negb <$> mask)).
Proof.
  eexists. split; [reflexivity|].
  apply (score_of_parts MixedTraffic example_edges). reflexivity.
Defined.

(** ** What stops a scorer *)



Lemma int_of_atom_text s c :
  In c (list_ascii_of_string s) → int_char c = false →
  np.int_of_atom (PyStr s) = Raise ValueError.
Proof. intros Hc Hi. simpl. by rewrite (int_of_str_rejects s c). Qed.

Lemma int_max_text x s c :
  x = Atom (PyStr s) ∨ (∃ l, x = PyList l ∧ PyStr s ∈ l) →
  In c (list_ascii_of_string s) → int_char c = false →
  is_ok (int_max x) = false.
Proof.
  intros Hx Hc Hi. destruct (int_max x) as [z|] eqn:Hz; [|done].
  exfalso. apply int_max_spec in Hz as (zs & Hzs & _).
  destruct Hx as [->|(l & -> & Hl)]; simpl in Hzs.
  - by rewrite (int_of_str_rejects s c) in Hzs.
  - apply mapM_Ok in Hzs.
    apply list_elem_of_lookup in Hl as [i Hl].
    destruct (Forall2_lookup_l _ _ _ _ _ Hzs Hl) as (z' & _ & Hz').
    by rewrite (int_of_atom_text s c) in Hz'.
Qed.

(** X21.  Text that is not a whole number in a lane cell stops the lane
    resolver.  Where the lane cell of an edge is a string, or a list with
    a string in it, holding an ASCII character that [int] accepts nowhere
    (as in "2;3" or "1.5"), [get_lanes] does not return whatever the
    default, and neither does any scorer.  The character is taken in the
    ASCII range, which [int] reads as it stands whatever else the text
    holds. *)
Theorem get_lanes_rejects_text df d r s c :
  r ∈ rows df →
  cell "lanes" r = Atom (PyStr s)
  ∨ (∃ l, cell "lanes" r = PyList l ∧ PyStr s ∈ l) →
  In c (list_ascii_of_string s) → (Str.code c < 128)%N →
  int_char c = false →
  is_ok (get_lanes df d) = false ∧ ∀ sc, is_ok (score sc df) = false.
Proof.
  intros Hr Hx Hc _ Hi.
  assert (∀ d, is_ok (lanes_assumed_of d r) = false) as Hbad.
  { intros d'. unfold lanes_assumed_of.
    assert (pd.isna_cell (cell "lanes" r) = false) as ->
      by (by destruct Hx as [->|(l & -> & _)]).
    by apply (int_max_text _ s c). }
  split.
  - destruct (get_lanes df d) as [df'|] eqn:H; [|done].
    apply get_lanes_spec in H as (_ & Hok & _).
    rewrite Forall_forall in Hok. apply Hok in Hr. by rewrite Hbad in Hr.
  - intros sc. destruct (score sc df) as [df'|] eqn:H; [|done].
    apply scorer_resolvable in H. unfold resolvable in H.
    rewrite !andb_true_iff, forallb_forall in H. destruct H as [_ H].
    apply list_elem_of_In, H, andb_true_iff in Hr as [Hr _].
    unfold lanes_of in Hr. by rewrite Hbad in Hr.
Qed.

Lemma get_lanes_rejects_text_witness :
  is_ok (get_lanes
           {| columns := ["highway"; "lanes"; "maxspeed"];
              rows := [edge 0 [("lanes", Atom (PyStr "2;3"))]] |} 2) = false
  ∧ ∀ sc, is_ok (score sc
                   {| columns := ["highway"; "lanes"; "maxspeed"];
                      rows := [edge 0 [("lanes", Atom (PyStr "2;3"))]] |})
          = false.
Proof.
  apply (get_lanes_rejects_text
           {| columns := ["highway"; "lanes"; "maxspeed"];
              rows := [edge 0 [("lanes", Atom (PyStr "2;3"))]] |} 2
           (edge 0 [("lanes", Atom (PyStr "2;3"))]) "2;3" ";"%char).
  - apply list_elem_of_In. left. reflexivity.
  - left. reflexivity.
  - right. left. reflexivity.
  - reflexivity.
  - reflexivity.
Defined.

(** * The speed parser *)

(** ** No rounding gives NaN *)

Lemma is_nan_Prim2SF f : is_nan f = true ↔ Prim2SF f = S754_nan.
Proof.
  unfold is_nan. rewrite FloatAxioms.eqb_spec. unfold SFeqb.
  destruct (Prim2SF f) as [s|s| |s m e]; simpl.
  - by split.
  - destruct s; by split.
  - by split.
  - rewrite Z.compare_refl, Pos.compare_cont_refl. destruct s; by split.
Qed.

Lemma shr_1_nonneg mrs : 0 ≤ shr_m mrs → 0 ≤ shr_m (shr_1 mrs).
Proof. destruct mrs as [[|[p|p|]|p] r s]; simpl; lia. Qed.

Lemma iter_shr_1_nonneg p mrs :
  0 ≤ shr_m mrs → 0 ≤ shr_m (SpecFloat.iter_pos shr_1 p mrs).
Proof.
  revert mrs. induction p as [p IH|p IH|]; intros mrs H; simpl.
  - apply IH, IH. by apply shr_1_nonneg.
  - by apply IH, IH.
  - by apply shr_1_nonneg.
Qed.

Lemma shr_fexp_nonneg m e l :
  0 ≤ m → 0 ≤ shr_m (fst (shr_fexp prec emax m e l)).
Proof.
  intros Hm. unfold shr_fexp, shr.
  assert (0 ≤ shr_m (shr_record_of_loc m l)) as H0
    by (by destruct l as [|[]]).
  destruct (_ - e); simpl; [done| |done]. by apply iter_shr_1_nonneg.
Qed.

Lemma round_nearest_even_nonneg m l : 0 ≤ m → 0 ≤ round_nearest_even m l.
Proof.
  intros Hm. unfold round_nearest_even.
  destruct l as [|[]]; try done; [destruct (Z.even m)|]; lia.
Qed.

Lemma binary_round_aux_not_nan sx mx ex lx :
  0 ≤ mx → binary_round_aux prec emax sx mx ex lx ≠ S754_nan.
Proof.
  intros Hm. unfold binary_round_aux.
  pose proof (shr_fexp_nonneg mx ex lx Hm) as H1.
  destruct (shr_fexp prec emax mx ex lx) as [mrs' e']. simpl in H1.
  pose proof (shr_fexp_nonneg _ e' loc_Exact
                (round_nearest_even_nonneg _ (loc_of_shr_record mrs') H1))
    as H2.
  destruct (shr_fexp prec emax _ e' loc_Exact) as [mrs'' e'']. simpl in H2.
  destruct (shr_m mrs''); [done| |lia]. by case_match.
Qed.

Lemma binary_round_not_nan sx mx ex :
  binary_round prec emax sx mx ex ≠ S754_nan.
Proof.
  unfold binary_round. destruct (shl_align _ _ _).
  by apply binary_round_aux_not_nan.
Qed.

Lemma binary_normalize_not_nan m e s :
  binary_normalize prec emax m e s ≠ S754_nan.
Proof. destruct m; simpl; [done|apply binary_round_not_nan ..]. Qed.

Lemma SF2Prim_not_nan x : x ≠ S754_nan → is_nan (SF2Prim x) = false.
Proof.
  intros Hx. destruct x as [[]|[]| |s m e]; try done.
  apply not_true_iff_false. rewrite is_nan_Prim2SF. unfold SF2Prim.
  assert (Prim2SF (Z.ldexp (of_uint63 (Uint63Axioms.of_Z (Z.pos m))) e)
          ≠ S754_nan) as Hl.
  { rewrite Z_ldexp_spec, of_uint63_spec. unfold SFldexp.
    pose proof (binary_normalize_not_nan
                  (Uint63Axioms.to_Z (Uint63Axioms.of_Z (Z.pos m))) 0 false).
    destruct (binary_normalize _ _ _ _ _); try done.
    apply binary_round_not_nan. }
  destruct s; [|done]. rewrite opp_spec.
  by destruct (Prim2SF (Z.ldexp _ e)).
Qed.

Lemma dec_to_float_not_nan neg m e :
  is_nan (Py.dec_to_float neg m e) = false.
Proof.
  unfold Py.dec_to_float. apply SF2Prim_not_nan.
  case_match; apply binary_normalize_not_nan.
Qed.

Lemma knots_to_mph_nan f : is_nan (f * 1.15078) = is_nan f.
Proof.
  apply eq_true_iff_eq. rewrite !is_nan_Prim2SF, mul_spec.
  unfold SF64mul.
  destruct (Prim2SF 1.15078) as [| | |s m e] eqn:Hc;
    try (vm_compute in Hc; discriminate).
  destruct (Prim2SF f) as [[]|[]| |s' m' e']; simpl; try done.
  split; [|done]. intros H. by apply binary_round_aux_not_nan in H.
Qed.

(** ** Words and units *)

Lemma contains_app_r needle w rest :
  Str.contains needle rest = true → Str.contains needle (w ++ rest) = true.
Proof.
  intros H. induction w as [|a w IH]; [done|].
  change (String a w ++ rest)%string with (String a (w ++ rest)%string).
  cbn [Str.contains]. rewrite IH. apply orb_true_r.
Qed.

Lemma contains_app_without a n w rest :
  ¬ In a (list_ascii_of_string w) →
  Str.contains (String a n) (w ++ rest) = Str.contains (String a n) rest.
Proof.
  induction w as [|b w IH]; [done|]. intros Hw.
  change (String b w ++ rest)%string with (String b (w ++ rest)%string).
  cbn [Str.contains String.prefix].
  destruct (ascii_dec a b) as [->|_]; [exfalso; apply Hw; by left|].
  rewrite IH; [done|]. intros Hin. apply Hw. by right.
Qed.

Lemma token_word w rest :
  no_space w = true →
  fst (Str.token (list_ascii_of_string (w ++ String " " rest)))
  = list_ascii_of_string w.
Proof.
  induction w as [|c w IH]; [done|]. cbn [no_space].
  intros [Hc Hw]%andb_true_iff. apply negb_true_iff in Hc.
  change (String c w ++ String " " rest)%string
    with (String c (w ++ String " " rest)%string).
  cbn [list_ascii_of_string Str.token]. rewrite Hc.
  specialize (IH Hw). destruct (Str.token _). simpl in *. by rewrite IH.
Qed.

Lemma first_word_of_word w rest :
  is_word w = true → Str.first_word (w ++ String " " rest) = Ok w.
Proof.
  unfold is_word. intros [Hne Hw]%andb_true_iff.
  destruct w as [|c w]; [done|]. pose proof Hw as Hw'. cbn [no_space] in Hw.
  apply andb_true_iff in Hw as [Hc _]. apply negb_true_iff in Hc.
  unfold Str.first_word.
  change (String c w ++ String " " rest)%string
    with (String c (w ++ String " " rest)%string).
  cbn [list_ascii_of_string]. unfold Str.lstrip. cbn [Str.lstrip_by].
  rewrite Hc.
  change (c :: list_ascii_of_string (w ++ String " " rest))
    with (list_ascii_of_string (String c w ++ String " " rest)).
  rewrite token_word by done.
  by rewrite string_of_list_ascii_of_string.
Qed.

Lemma float_literal_no_letter w f c :
  Py.float_of_str w = Ok f → float_char c = false →
  ¬ In c (list_ascii_of_string w).
Proof.
  intros Hf Hc Hin. by rewrite (float_of_str_rejects w c Hin Hc) in Hf.
Qed.

Lemma float_literal_no_unit w f :
  Py.float_of_str w = Ok f →
  Str.contains "mph" w = false ∧ Str.contains "knots" w = false.
Proof.
  intros Hf. split.
  - destruct (Str.contains "mph" w) eqn:Hc; [|done].
    apply contains_head in Hc.
    by apply (float_literal_no_letter w f "m" Hf) in Hc.
  - destruct (Str.contains "knots" w) eqn:Hc; [|done].
    apply contains_head in Hc.
    by apply (float_literal_no_letter w f "k" Hf) in Hc.
Qed.

(** ** Numerals *)

Lemma digit_facts c :
  Str.is_digit c = true →
  Str.is_blank c = false ∧ Str.is_space c = false
  ∧ Ascii.eqb c "_" = false ∧ Str.lower c = c
  ∧ (∀ l, Str.sign (c :: l) = (false, c :: l))
  ∧ (∀ s, String.eqb (String c s) "inf" = false
          ∧ String.eqb (String c s) "infinity" = false
          ∧ String.eqb (String c s) "nan" = false).
Proof.
  destruct c as [[] [] [] [] [] [] [] []]; intros H; try discriminate H;
    repeat split; reflexivity.
Qed.

Lemma lstrip_by_head blank c l :
  blank c = false → Str.lstrip_by blank (c :: l) = c :: l.
Proof. intros H. simpl. by rewrite H. Qed.

Lemma strip_digits ds :
  forallb Str.is_digit ds = true → Str.strip ds = ds.
Proof.
  intros H. unfold Str.strip. destruct ds as [|c ds]; [done|].
  cbn [forallb] in H. apply andb_true_iff in H as [Hc Hds].
  destruct (digit_facts c Hc) as (Hb & _).
  rewrite lstrip_by_head by done.
  assert (forallb Str.is_digit (rev (c :: ds)) = true) as Hr.
  { apply forallb_forall. intros x Hx%in_rev.
    assert (forallb Str.is_digit (c :: ds) = true) as Hall
      by (simpl; by rewrite Hc, Hds).
    rewrite forallb_forall in Hall. by apply Hall. }
  destruct (rev (c :: ds)) as [|d r] eqn:Hrev.
  { apply (f_equal (@length _)) in Hrev. by rewrite length_rev in Hrev. }
  cbn [forallb] in Hr. apply andb_true_iff in Hr as [Hd _].
  destruct (digit_facts d Hd) as (Hb' & _).
  rewrite lstrip_by_head by done. rewrite <- Hrev. apply rev_involutive.
Qed.

Lemma drop_underscores_digits prev ds :
  forallb Str.is_digit ds = true →
  (ds = [] → Ascii.eqb prev "_" = false) →
  Str.drop_underscores prev ds = Some ds.
Proof.
  revert prev. induction ds as [|c ds IH]; intros prev Hall Hp; simpl.
  - by rewrite Hp.
  - cbn [forallb] in Hall. apply andb_true_iff in Hall as [Hc Hds].
    destruct (digit_facts c Hc) as (_ & _ & Hu & _).
    rewrite Hu, Hc, andb_false_r.
    rewrite IH; [done | done | by intros _].
Qed.

Lemma digits_digits ds :
  forallb Str.is_digit ds = true → Str.digits ds = (ds, []).
Proof.
  induction ds as [|c ds IH]; [done|]. simpl.
  intros [Hc Hds]%andb_true_iff. by rewrite Hc, IH.
Qed.

Lemma map_lower_digits ds :
  forallb Str.is_digit ds = true → map Str.lower ds = ds.
Proof.
  induction ds as [|c ds IH]; [done|]. simpl.
  intros [Hc Hds]%andb_true_iff.
  destruct (digit_facts c Hc) as (_ & _ & _ & -> & _). by rewrite IH.
Qed.

Lemma float_of_digits ds :
  ds ≠ [] → forallb Str.is_digit ds = true →
  Py.float_of_str (string_of_list_ascii ds)
  = Ok (Py.float_of_Z (Str.nat_of_digits ds)).
Proof.
  intros Hne Hall. unfold Py.float_of_str.
  rewrite list_ascii_of_string_of_list_ascii, strip_digits by done.
  rewrite drop_underscores_digits by done.
  destruct ds as [|c ds]; [done|].
  pose proof Hall as Hall'. cbn [forallb] in Hall'.
  apply andb_true_iff in Hall' as [Hc _].
  destruct (digit_facts c Hc) as (_ & _ & _ & _ & Hsign & Hname).
  rewrite Hsign, map_lower_digits by done.
  cbn [string_of_list_ascii].
  destruct (Hname (string_of_list_ascii ds)) as (-> & -> & ->).
  cbn [orb]. rewrite digits_digits by done.
  rewrite app_nil_r. cbn [Py.exponent length]. done.
Qed.

Lemma no_space_digits ds :
  forallb Str.is_digit ds = true → no_space (string_of_list_ascii ds) = true.
Proof.
  induction ds as [|c ds IH]; [done|]. simpl.
  intros [Hc Hds]%andb_true_iff.
  destruct (digit_facts c Hc) as (_ & -> & _). by rewrite IH.
Qed.

Lemma is_word_digits ds :
  ds ≠ [] → forallb Str.is_digit ds = true →
  is_word (string_of_list_ascii ds) = true.
Proof.
  intros Hne Hall. unfold is_word. rewrite no_space_digits by done.
  by destruct ds.
Qed.

(** ** What [parse_speed] returns *)

Lemma contains_after_literal a n w f rest :
  Py.float_of_str w = Ok f → float_char a = false → Ascii.eqb a " " = false →
  Str.contains (String a n) (w ++ String " " rest)
  = Str.contains (String a n) rest.
Proof.
  intros Hf Ha Hsp.
  rewrite contains_app_without by (by eapply float_literal_no_letter).
  cbn [Str.contains String.prefix].
  destruct (ascii_dec a " ") as [->|_]; [done|]. done.
Qed.

Lemma parse_speed_mph w f rest :
  Py.float_of_str w = Ok f → is_word w = true →
  Str.contains "mph" rest = true →
  parse_speed (Atom (PyStr (w ++ String " " rest))) = Ok (Atom (PyFloat f)).
Proof.
  intros Hf Hw Hm. cbn [parse_speed].
  rewrite (contains_after_literal "m" "ph" w f) by done.
  rewrite Hm, first_word_of_word by done. run. by rewrite Hf.
Qed.

Lemma parse_speed_knots w f rest :
  Py.float_of_str w = Ok f → is_word w = true →
  Str.contains "mph" rest = false → Str.contains "knots" rest = true →
  parse_speed (Atom (PyStr (w ++ String " " rest)))
  = Ok (Atom (PyFloat (f * 1.15078))).
Proof.
  intros Hf Hw Hm Hk. cbn [parse_speed].
  rewrite (contains_after_literal "m" "ph" w f) by done.
  rewrite (contains_after_literal "k" "nots" w f) by done.
  rewrite Hm, Hk, first_word_of_word by done. run. by rewrite Hf.
Qed.

Lemma parse_speed_bare w f :
  Py.float_of_str w = Ok f →
  parse_speed (Atom (PyStr w)) = Ok (Atom (PyFloat f)).
Proof.
  intros Hf. cbn [parse_speed].
  destruct (float_literal_no_unit w f Hf) as [-> ->]. by rewrite Hf.
Qed.

(** C6.  [parse_speed] reads the leading numeral of a speed.  For every
    word [w] that [float] reads as [f]: followed by a blank and text in
    which "mph" occurs the result is [f]; followed by a blank and text in
    which "knots" occurs and "mph" does not, it is [f] times 1.15078; on
    its own it is [f], unconverted.  A word of decimal digits is read as
    the float of the number it denotes.  So "35 mph" gives 35.0,
    "10 knots" gives 11.5078 and "50" gives 50.0; and a NaN goes to
    NaN. *)
Theorem parse_speed_numeral (w : string) (f : float) :
  Py.float_of_str w = Ok f → is_word w = true →
  (∀ rest, Str.contains "mph" rest = true →
     parse_speed (Atom (PyStr (w ++ String " " rest)))
     = Ok (Atom (PyFloat f)))
  ∧ (∀ rest, Str.contains "mph" rest = false →
       Str.contains "knots" rest = true →
       parse_speed (Atom (PyStr (w ++ String " " rest)))
       = Ok (Atom (PyFloat (f * 1.15078))))
  ∧ parse_speed (Atom (PyStr w)) = Ok (Atom (PyFloat f))
  ∧ (∀ ds, ds ≠ [] → forallb Str.is_digit ds = true →
       is_word (string_of_list_ascii ds) = true
       ∧ Py.float_of_str (string_of_list_ascii ds)
         = Ok (Py.float_of_Z (Str.nat_of_digits ds)))
  ∧ parse_speed (Atom (PyStr "35 mph")) = Ok (Atom (PyFloat 35))
  ∧ parse_speed (Atom (PyStr "10 knots")) = Ok (Atom (PyFloat 11.5078))
  ∧ parse_speed (Atom (PyStr "50")) = Ok (Atom (PyFloat 50))
  ∧ (∀ x, is_nan x = true → parse_speed (Atom (PyFloat x)) = Ok NaN).
Proof.
  intros Hf Hw. repeat split.
  - intros rest. by apply parse_speed_mph.
  - intros rest. by apply parse_speed_knots.
  - by apply parse_speed_bare.
  - by apply is_word_digits.
  - by apply float_of_digits.
  - intros x Hx. simpl. by rewrite Hx.
Qed.

Lemma parse_speed_numeral_witness :
  (∀ rest, Str.contains "mph" rest = true →
     parse_speed (Atom (PyStr ("20" ++ String " " rest)))
     = Ok (Atom (PyFloat 20)))
  ∧ (∀ rest, Str.contains "mph" rest = false →
       Str.contains "knots" rest = true →
       parse_speed (Atom (PyStr ("20" ++ String " " rest)))
       = Ok (Atom (PyFloat (20 * 1.15078))))
  ∧ parse_speed (Atom (PyStr "20")) = Ok (Atom (PyFloat 20))
  ∧ (∀ ds, ds ≠ [] → forallb Str.is_digit ds = true →
       is_word (string_of_list_ascii ds) = true
       ∧ Py.float_of_str (string_of_list_ascii ds)
         = Ok (Py.float_of_Z (Str.nat_of_digits ds)))
  ∧ parse_speed (Atom (PyStr "35 mph")) = Ok (Atom (PyFloat 35))
  ∧ parse_speed (Atom (PyStr "10 knots")) = Ok (Atom (PyFloat 11.5078))
  ∧ parse_speed (Atom (PyStr "50")) = Ok (Atom (PyFloat 50))
  ∧ (∀ x, is_nan x = true → parse_speed (Atom (PyFloat x)) = Ok NaN).
Proof. apply (parse_speed_numeral "20" 20); reflexivity. Defined.

(** The conversion is by the factor and not by a table: twenty knots
    are not ten. *)
Example parse_speed_twenty_knots :
  parse_speed (Atom (PyStr "20 knots")) = Ok (Atom (PyFloat 23.0156))
  ∧ parse_speed (Atom (PyStr "7.5 knots or so"))
    = Ok (Atom (PyFloat (7.5 * 1.15078)))
  ∧ parse_speed (Atom (PyStr "120")) = Ok (Atom (PyFloat 120)).
Proof. repeat split; vm_compute; reflexivity. Qed.

Lemma float_of_str_nan_iff w f :
  Py.float_of_str w = Ok f → is_nan f = spells_nan w.
Proof.
  unfold Py.float_of_str, spells_nan.
  destruct (Str.drop_underscores Py.NUL _) as [l|]; [|done].
  destruct (Str.sign l) as [neg r]. cbn [snd].
  set (name := string_of_list_ascii (map Str.lower r)).
  destruct (String.eqb_spec name "inf") as [Hi|_].
  { rewrite Hi. intros [= <-]. by destruct neg. }
  destruct (String.eqb_spec name "infinity") as [Hi|_].
  { rewrite Hi. intros [= <-]. by destruct neg. }
  cbn [orb]. destruct (String.eqb name "nan"); [by intros [= <-]|].
  intros H. repeat case_match; try discriminate;
    injection H as <-; apply dec_to_float_not_nan.
Qed.

Lemma parse_speed_string t v :
  parse_speed (Atom (PyStr t)) = Ok v →
  ∃ w f, speed_literal t = Ok w ∧ Py.float_of_str w = Ok f
    ∧ v = Atom (PyFloat (speed_of_literal t f))
    ∧ pd.isna_cell v = spells_nan w.
Proof.
  cbn [parse_speed]. unfold speed_literal, speed_of_literal. intros H.
  destruct (Str.contains "mph" t); [|destruct (Str.contains "knots" t)];
    cbn [orb].
  - apply bind_Ok in H as (w & Hw & H). apply bind_Ok in H as (f & Hf & H).
    injection H as <-. exists w, f. repeat split; try done.
    by apply float_of_str_nan_iff.
  - apply bind_Ok in H as (w & Hw & H). apply bind_Ok in H as (f & Hf & H).
    injection H as <-. exists w, f. repeat split; try done.
    cbn [pd.isna_cell]. unfold knots_to_mph. rewrite knots_to_mph_nan.
    by apply float_of_str_nan_iff.
  - apply bind_Ok in H as (f & Hf & H). injection H as <-.
    exists t, f. repeat split; try done. by apply float_of_str_nan_iff.
Qed.

Lemma parse_speed_not_string x v :
  Py.isinstance_str x = false → parse_speed x = Ok v → pd.isna_cell v = true.
Proof.
  intros Hx H. destruct x as [[|s|z|f]|l]; try done; simpl in H.
  - apply bind_Ok in H as (b & _ & H). destruct b; by injection H as <-.
  - destruct (is_nan f); by injection H as <-.
  - apply bind_Ok in H as (b & _ & H). destruct b; by injection H as <-.
Qed.

(** C7, as the code has it.  A string without "mph" and without
    "knots" that [float] rejects makes [parse_speed] raise the
    [ValueError] of the parse.  A string on which it returns yields the
    float read from its literal, converted where the unit is knots, and
    this value is missing exactly when the literal spells NaN.  A value
    that is not a string never yields a present result: what is returned
    for it is NaN or [None]. *)
Theorem parse_speed_malformed (s : string) :
  Str.contains "mph" s = false → Str.contains "knots" s = false →
  is_ok (Py.float_of_str s) = false →
  parse_speed (Atom (PyStr s)) = Raise ValueError
  ∧ (∀ t v, parse_speed (Atom (PyStr t)) = Ok v →
       ∃ w f, speed_literal t = Ok w ∧ Py.float_of_str w = Ok f
         ∧ v = Atom (PyFloat (speed_of_literal t f))
         ∧ pd.isna_cell v = spells_nan w)
  ∧ (∀ x v, Py.isinstance_str x = false → parse_speed x = Ok v →
       pd.isna_cell v = true)
  ∧ parse_speed NaN = Ok NaN.
Proof.
  intros Hm Hk Hf. split; [|split; [|split]].
  - cbn [parse_speed]. rewrite Hm, Hk.
    destruct (Py.float_of_str s) as [f|e] eqn:He; [discriminate|].
    by rewrite (float_of_str_error _ _ He).
  - apply parse_speed_string.
  - apply parse_speed_not_string.
  - reflexivity.
Qed.

Lemma parse_speed_malformed_witness :
  parse_speed (Atom (PyStr "fast")) = Raise ValueError
  ∧ (∀ t v, parse_speed (Atom (PyStr t)) = Ok v →
       ∃ w f, speed_literal t = Ok w ∧ Py.float_of_str w = Ok f
         ∧ v = Atom (PyFloat (speed_of_literal t f))
         ∧ pd.isna_cell v = spells_nan w)
  ∧ (∀ x v, Py.isinstance_str x = false → parse_speed x = Ok v →
       pd.isna_cell v = true)
  ∧ parse_speed NaN = Ok NaN.
Proof. apply (parse_speed_malformed "fast"); reflexivity. Defined.

(** C7, as the specification states it, fails: a missing result does not
    always come from a missing input.  The number 50.0 is present and
    [parse_speed] answers [None]; the text "nan" is present and
    [parse_speed] answers NaN. *)
Lemma missing_result_for_present_input :
  ¬ (∀ x v, parse_speed x = Ok v →
       pd.isna_cell v = true → pd.isna_cell x = true)
  ∧ parse_speed (Atom (PyFloat 50)) = Ok (Atom PyNone)
  ∧ parse_speed (Atom (PyStr "nan")) = Ok NaN.
Proof.
  split; [|split; vm_compute; reflexivity].
  intros H. specialize (H (Atom (PyFloat 50)) (Atom PyNone)).
  assert (pd.isna_cell (Atom (PyFloat 50)) = true) as Hna
    by (apply H; vm_compute; reflexivity).
  vm_compute in Hna. discriminate.
Qed.

(** C10, as the code has it.  A number that is present and that NumPy
    holds as a number, a float other than NaN or an integer of the 64-bit
    range, falls through both tests of [parse_speed]: the result is
    [None].  An integer beyond the unsigned 64-bit range does not get
    that far: [np.isnan] raises [TypeError] on it. *)
Theorem parse_speed_number_is_none (x : value) :
  present_number x = true →
  parse_speed x = Ok (Atom PyNone)
  ∧ ∀ z, z < np.int64_min ∨ 2 ^ 64 ≤ z →
      parse_speed (Atom (PyInt z)) = Raise TypeError.
Proof.
  assert (∀ z, parse_speed (Atom (PyInt z))
               = if (np.int64_min <=? z) && (z <? 2 ^ 64)
                 then Ok (Atom PyNone) else Raise TypeError) as Hint.
  { intros z. cbn [parse_speed isnan_truth isnan_atom]. by case_match. }
  intros Hx. split.
  - destruct x as [[| |z|f]|l]; try discriminate.
    + rewrite Hint. cbn [present_number] in Hx.
      apply andb_true_iff in Hx as [Hlo Hhi%Z.leb_le]. rewrite Hlo.
      assert ((z <? 2 ^ 64) = true) as ->; [|done].
      apply Z.ltb_lt. unfold np.int64_max in Hhi. lia.
    + simpl in *. by destruct (is_nan f).
  - intros z Hz. rewrite Hint.
    assert ((np.int64_min <=? z) && (z <? 2 ^ 64) = false) as ->; [|done].
    apply andb_false_iff. rewrite Z.leb_gt, Z.ltb_ge. lia.
Qed.

Lemma parse_speed_number_is_none_witness :
  parse_speed (Atom (PyFloat 50)) = Ok (Atom PyNone)
  ∧ ∀ z, z < np.int64_min ∨ 2 ^ 64 ≤ z →
      parse_speed (Atom (PyInt z)) = Raise TypeError.
Proof.
  apply (parse_speed_number_is_none (Atom (PyFloat 50))). reflexivity.
Defined.

(** C10, as the specification states it, fails on a number that is too
    large: the integer 10^30 is a number and not NaN, and [parse_speed]
    raises [TypeError] on it instead of answering [None]. *)
Lemma huge_integer_is_type_error :
  ¬ (∀ x, number_not_nan x = true → parse_speed x = Ok (Atom PyNone))
  ∧ number_not_nan (Atom (PyInt (10 ^ 30))) = true
  ∧ parse_speed (Atom (PyInt (10 ^ 30))) = Raise TypeError.
Proof.
  split; [|split; vm_compute; reflexivity].
  intros H. specialize (H (Atom (PyInt (10 ^ 30))) eq_refl).
  vm_compute in H. discriminate.
Qed.
